(** * xMatiStudio: single-tab election and the WebSocket session wrapper

    A shallow embedding of
    - [web/utils/crypto-utils.js] and [web/utils/secureStorage.ts]
      (module [SecureStorage]),
    - [WebSocketWrapper/utils/TabManager.ts] (module [TabManager]),
    - [WebSocketWrapper/index.tsx] (module [WebSocketWrapper]) and its
      earlier variant with a bounded retry policy (module [BoundedRetry]),
    - the overlay of [hooks/useDevToolsProtection.ts] (module [DevTools])
      and [getUserEmailFromStorage] of [App/index.tsx] (module [App]),
    - [nlu/custom-pattern-entities.ts] and the entity service (module
      [EntityService]), and the training status component (module
      [TrainingStatus]),
    - the wrapper as [App] mounts it, with [hooks/useTabManager] feeding it
      the flag of the tab manager (module [Session]),
    followed by the properties proved about them. *)

From Stdlib Require Import ZArith Lia QArith.
From stdpp Require Import gmap strings list pretty.

Open Scope Z_scope.
Set Warnings "-register-all".

(** ** JavaScript values and the libraries the code calls *)

(** The values that [JSON.parse] can produce, plus [undefined], which a
    property access on a missing field gives.  Numbers are restricted to
    integers: the code only tests them for truthiness. *)
Inductive jsval : Type :=
  | VUndef
  | VNull
  | VBool (b : bool)
  | VNum (z : Z)
  | VStr (s : string)
  | VArr (items : list jsval)
  | VObj (fields : list (string * jsval)).

(** Exceptions that the modelled code throws or lets through. *)
Inductive exn : Type :=
  | SyntaxError            (* JSON.parse on malformed text *)
  | TypeError              (* property access on null *)
  | Error (msg : string).  (* new Error(msg) *)

Inductive result (A : Type) : Type :=
  | Ok (a : A)
  | Throw (e : exn).
Arguments Ok {A} a.
Arguments Throw {A} e.

(** JavaScript truthiness of a value ([if (v)], [v || d], [!v]). *)
Definition truthy (v : jsval) : bool :=
  match v with
  | VUndef | VNull => false
  | VBool b => b
  | VNum z => negb (z =? 0)
  | VStr s => negb (String.eqb s "")
  | VArr _ | VObj _ => true
  end.

Definition str_truthy (s : string) : bool := negb (String.eqb s "").

(** [v === 'lit'] for a string literal. *)
Definition is_str (v : jsval) (lit : string) : bool :=
  match v with
  | VStr s => String.eqb s lit
  | _ => false
  end.

Fixpoint assoc (k : string) (fs : list (string * jsval)) : jsval :=
  match fs with
  | [] => VUndef
  | (k', v) :: rest => if String.eqb k k' then v else assoc k rest
  end.

(** [data.k]: throws on [null] and [undefined], reads the field of an
    object, and is [undefined] on every other value. *)
Definition get_prop (data : jsval) (k : string) : result jsval :=
  match data with
  | VUndef | VNull => Throw TypeError
  | VObj fs => Ok (assoc k fs)
  | _ => Ok VUndef
  end.

(** The library functions used by the code: [JSON.stringify], [JSON.parse]
    ([None] is a thrown [SyntaxError]), CryptoJS's [AES.encrypt(..).toString()]
    (it draws a random salt, passed here as an argument; [None] is a thrown
    error), [AES.decrypt(..).toString(CryptoJS.enc.Utf8)] and the value of
    [getSessionKey()], the hash of the browser fingerprint. *)
Class Libs : Type := {
  JSON_stringify : jsval → string;
  JSON_parse : string → option jsval;
  AES_encrypt : string → string → string → option string;
  AES_decrypt_utf8 : string → string → option string;
  getSessionKey : string
}.

(** What the round trip of a stored string relies on. *)
Class LibsLaws (L : Libs) : Prop := {
  json_string_roundtrip :
    ∀ v : string, JSON_parse (JSON_stringify (VStr v)) = Some (VStr v);
  json_string_nonempty :
    ∀ v : string, JSON_stringify (VStr v) ≠ "";
  aes_encrypt_total :
    ∀ salt plain key, is_Some (AES_encrypt salt plain key);
  aes_cipher_nonempty :
    ∀ salt plain key c, AES_encrypt salt plain key = Some c → c ≠ "";
  aes_roundtrip :
    ∀ salt plain key c,
      AES_encrypt salt plain key = Some c → AES_decrypt_utf8 c key = Some plain
}.

(** A small instance of the libraries, used to run the model on concrete
    inputs: strings are serialised between two quote characters, the cipher
    prefixes the plain text with a marker. *)
Module Toy.
Definition quote : string := String (Ascii.ascii_of_nat 34) EmptyString.

Fixpoint drop_last (s : string) : string :=
  match s with
  | EmptyString => EmptyString
  | String c EmptyString => EmptyString
  | String c rest => String c (drop_last rest)
  end.

Definition stringify (v : jsval) : string :=
  match v with
  | VStr s => quote +:+ s +:+ quote
  | VBool true => "true"
  | VBool false => "false"
  | VNum z => "0"
  | VNull => "null"
  | VObj (("type", VStr "REGISTER_CHILD") :: _) => "{type:REGISTER_CHILD}"
  | VObj [("status", VBool true)] => "{status:true}"
  | VObj [("status", VBool false)] => "{status:false}"
  | VObj [("isBlocked", VBool true)] => "{isBlocked:true}"
  | VObj [("isBlocked", VBool false)] => "{isBlocked:false}"
  | _ => "{}"
  end.

Definition parse (s : string) : option jsval :=
  match s with
  | String c rest =>
      if Ascii.eqb c (Ascii.ascii_of_nat 34) then Some (VStr (drop_last rest))
      else if String.eqb s "null" then Some VNull
      else if String.eqb s "{type:REGISTER_SUCCESS}"
        then Some (VObj [("type", VStr "REGISTER_SUCCESS")])
      else if String.eqb s "{type:PING}"
        then Some (VObj [("type", VStr "PING")])
      else if String.eqb s "{}" then Some (VObj [])
      else None
  | EmptyString => None
  end.

Definition marker : Ascii.ascii := Ascii.ascii_of_nat 85.

Definition encrypt (salt plain key : string) : option string :=
  Some (String marker plain).

Definition decrypt (c key : string) : option string :=
  match c with
  | String m plain => if Ascii.eqb m marker then Some plain else None
  | EmptyString => None
  end.

#[export] Instance libs : Libs := {|
  JSON_stringify := stringify;
  JSON_parse := parse;
  AES_encrypt := encrypt;
  AES_decrypt_utf8 := decrypt;
  getSessionKey := "fingerprint"
|}.
End Toy.

(** [String(v)], the conversion that [JSON.parse] applies to an argument
    that is not a string.  Integers print in decimal; an array joins its
    items with commas, [null] and [undefined] items printing as nothing. *)
Fixpoint to_text (v : jsval) : string :=
  match v with
  | VUndef => "undefined"
  | VNull => "null"
  | VBool true => "true"
  | VBool false => "false"
  | VNum z => pretty z
  | VStr s => s
  | VArr items =>
      String.concat ","
        (List.map (λ x, match x with VUndef | VNull => "" | _ => to_text x end) items)
  | VObj _ => "[object Object]"
  end.

(** The toy libraries with a [JSON.parse] that also reads back the two
    objects the wrapper stores, and one record of user data. *)
Module Demo.
Definition parse (s : string) : option jsval :=
  if String.eqb s "{status:true}" then Some (VObj [("status", VBool true)])
  else if String.eqb s "{status:false}" then Some (VObj [("status", VBool false)])
  else if String.eqb s "{isBlocked:true}" then Some (VObj [("isBlocked", VBool true)])
  else if String.eqb s "{isBlocked:false}"
    then Some (VObj [("isBlocked", VBool false)])
  else if String.eqb s "{email:alice@example.com}"
    then Some (VObj [("email", VStr "alice@example.com")])
  else Toy.parse s.

Definition libs : Libs := {|
  JSON_stringify := Toy.stringify;
  JSON_parse := parse;
  AES_encrypt := Toy.encrypt;
  AES_decrypt_utf8 := Toy.decrypt;
  getSessionKey := "fingerprint"
|}.
End Demo.

(** ** crypto-utils.js and secureStorage.ts *)

Module SecureStorage.
Section WithLibs.
Context `{L : Libs}.

(** [customKey || getSessionKey()] *)
Definition pick_key (customKey : option string) : string :=
  match customKey with
  | Some k => if str_truthy k then k else getSessionKey
  | None => getSessionKey
  end.

(** [encryptData(data, customKey = null)]: [null] for [null]/[undefined],
    otherwise the cipher text; any library failure is rethrown as
    [Error('Failed to encrypt data')]. *)
Definition encryptData (salt : string) (data : jsval)
    (customKey : option string) : result (option string) :=
  match data with
  | VNull | VUndef => Ok None
  | _ =>
      match AES_encrypt salt (JSON_stringify data) (pick_key customKey) with
      | Some c => Ok (Some c)
      | None => Throw (Error "Failed to encrypt data")
      end
  end.

(** [decryptData(encryptedData, customKey = null)]: [null] for an empty
    input; an empty plain text, a failing decryption and a failing
    [JSON.parse] all end in
    [Error('Failed to decrypt data - data may be corrupted')]. *)
Definition decryptData (encryptedData : string)
    (customKey : option string) : result jsval :=
  if negb (str_truthy encryptedData) then Ok VNull
  else
    match AES_decrypt_utf8 encryptedData (pick_key customKey) with
    | Some decryptedStr =>
        if negb (str_truthy decryptedStr)
        then Throw (Error "Failed to decrypt data - data may be corrupted")
        else
          match JSON_parse decryptedStr with
          | Some v => Ok v
          | None => Throw (Error "Failed to decrypt data - data may be corrupted")
          end
    | None => Throw (Error "Failed to decrypt data - data may be corrupted")
    end.

(** The browser's [sessionStorage]: string keys to string values. *)
Definition setItem (salt : string) (key value : string)
    (store : gmap string string) : result unit * gmap string string :=
  match encryptData salt (VStr value) None with
  | Ok (Some encrypted) =>
      if str_truthy encrypted then (Ok (), <[key := encrypted]> store)
      else (Ok (), store)
  | Ok None => (Ok (), store)
  | Throw e => (Throw e, store)
  end.

(** [getItem] never throws: a failing decryption removes the entry and
    gives [null]. *)
Definition getItem (key : string) (store : gmap string string)
    : jsval * gmap string string :=
  match store !! key with
  | None => (VNull, store)
  | Some encrypted =>
      if negb (str_truthy encrypted) then (VNull, store)
      else
        match decryptData encrypted None with
        | Ok decrypted => (decrypted, store)
        | Throw _ => (VNull, delete key store)
        end
  end.

Definition removeItem (key : string) (store : gmap string string)
    : gmap string string := delete key store.

(** [clear], [hasItem] and [length] work on the raw entries. *)
Definition clear (store : gmap string string) : gmap string string := ∅.

Definition hasItem (key : string) (store : gmap string string) : bool :=
  match store !! key with Some _ => true | None => false end.

Definition length (store : gmap string string) : nat := size store.

(** [encryptWithKey(data, key)] and [decryptWithKey(encryptedData, key)] *)
Definition encryptWithKey (salt : string) (data : jsval) (key : string)
    : result (option string) :=
  encryptData salt data (Some key).

Definition decryptWithKey (encryptedData key : string) : result jsval :=
  decryptData encryptedData (Some key).

End WithLibs.
End SecureStorage.


(** ** utils/TabManager.ts *)

Module TabManager.

Definition HEARTBEAT_INTERVAL : Z := 2000.
Definition TAB_TIMEOUT : Z := 5000.
Definition PING_TIMEOUT : Z := 1000.
Definition TAB_ID_KEY : string := "xmati_active_tab_id".

(** [generateTabId]: the string [tab_<Date.now()>_<random suffix>].  The two
    parts are kept apart; two identifiers are equal as strings exactly when
    both parts agree. *)
Record TabId : Type := mkTabId { created : Z; suffix : string }.

#[export] Instance TabId_eq_dec : EqDecision TabId.
Proof. solve_decision. Defined.

(** [parseInt(this.tabId.split('_')[1])] *)
Definition tab_timestamp (id : TabId) : Z := created id.

Inductive MsgType : Type :=
  | ping | pong | heartbeat | focus_request | claim | activated.

(** [event.data] on the channel.  [focus_request] is posted without
    [tabId] and [timestamp], which then read as [undefined] ([None]). *)
Record Message : Type := mkMessage {
  m_type : MsgType;
  m_tabId : option TabId;
  m_timestamp : option Z
}.

(** The content of [localStorage] under [TAB_ID_KEY], as [JSON.parse] and
    the destructuring [{ tabId, timestamp }] see it: text on which one of
    them throws, or an object whose two fields may be missing. *)
Inductive Stored : Type :=
  | Unparsable
  | TabData (tid : option TabId) (ts : option Z).

Inductive Effect : Type :=
  | PostMessage (m : Message)
  | WindowFocus
  | ShowDuplicateTabMessage
  | SetTimeoutCloseTab (delay : Z)
  | SetTimeoutPing (delay : Z)
  | SetTimeoutRecheck (delay : Z)
  | SetIntervalHeartbeat (delay : Z)
  | ClearIntervalHeartbeat
  | ChannelClose
  | AddStorageListener
  | ConsoleError (what : string).

Record Tab : Type := mkTab {
  tabId : TabId;
  channel : bool;             (* this.channel !== null *)
  heartbeatInterval : bool;   (* this.heartbeatInterval !== null *)
  isActive : bool;
  useLocalStorage : bool;
  receivedPong : bool;
  pingResponses : list (option TabId)  (* a Set: no duplicates *)
}.

Definition set_add (x : option TabId) (s : list (option TabId))
    : list (option TabId) :=
  if decide (x ∈ s) then s else s ++ [x].

(** [timestamp && e]: [undefined], [0] and [NaN] are falsy. *)
Definition ts_and (ts : option Z) (e : Z → bool) : bool :=
  match ts with
  | Some t => negb (t =? 0) && e t
  | None => false
  end.

(** [tabId !== this.tabId] *)
Definition differs (sender : option TabId) (me : TabId) : bool :=
  match sender with
  | Some s => negb (bool_decide (s = me))
  | None => true
  end.

(** [Date.now() - timestamp < TAB_TIMEOUT]; the difference is [NaN] when the
    time stamp is missing, and every comparison with [NaN] is false. *)
Definition fresh (now : Z) (ts : option Z) : bool :=
  match ts with
  | Some t => now - t <? TAB_TIMEOUT
  | None => false
  end.

Definition requestFocusOnExistingTab (t : Tab) : list Effect :=
  if channel t then [PostMessage (mkMessage focus_request None None)] else [].

Definition handleDuplicateTab (t : Tab) : Tab * list Effect :=
  if isActive t then (t, [])
  else (t, requestFocusOnExistingTab t
             ++ [ShowDuplicateTabMessage; SetTimeoutCloseTab 2000]).

(** [this.channel.onmessage] *)
Definition onmessage (now : Z) (t : Tab) (m : Message) : Tab * list Effect :=
  match m_type m with
  | ping =>
      if isActive t || ts_and (m_timestamp m) (λ ts, tab_timestamp (tabId t) <? ts)
      then (t, if channel t
               then [PostMessage (mkMessage pong (Some (tabId t)) (Some now))]
               else [])
      else (t, [])
  | pong =>
      if differs (m_tabId m) (tabId t) then
        let t' := mkTab (tabId t) (channel t) (heartbeatInterval t) (isActive t)
                    (useLocalStorage t) true
                    (set_add (m_tabId m) (pingResponses t)) in
        if negb (isActive t') then handleDuplicateTab t' else (t', [])
      else (t, [])
  | heartbeat =>
      if differs (m_tabId m) (tabId t) && negb (isActive t)
      then handleDuplicateTab t else (t, [])
  | focus_request =>
      if isActive t then (t, [WindowFocus]) else (t, [])
  | claim =>
      if differs (m_tabId m) (tabId t)
         && ts_and (m_timestamp m) (λ ts, tab_timestamp (tabId t) >? ts)
      then handleDuplicateTab t else (t, [])
  | activated => (t, [])
  end.

Definition updateHeartbeat (now : Z) (t : Tab) (ls : option Stored)
    : option Stored * list Effect :=
  if useLocalStorage t then (Some (TabData (Some (tabId t)) (Some now)), [])
  else if channel t && isActive t
  then (ls, [PostMessage (mkMessage heartbeat (Some (tabId t)) (Some now))])
  else (ls, []).

Definition activateTab (now : Z) (t : Tab) (ls : option Stored)
    : Tab * option Stored * list Effect :=
  let t1 := mkTab (tabId t) (channel t) (heartbeatInterval t) true
              (useLocalStorage t) (receivedPong t) (pingResponses t) in
  let '(ls1, e1) := updateHeartbeat now t1 ls in
  let e2 := if channel t1
            then [PostMessage (mkMessage activated (Some (tabId t1)) (Some now))]
            else [] in
  (mkTab (tabId t1) (channel t1) true true (useLocalStorage t1)
     (receivedPong t1) (pingResponses t1),
   ls1, e1 ++ e2 ++ [SetIntervalHeartbeat HEARTBEAT_INTERVAL]).

(** The callback of [setInterval(.., HEARTBEAT_INTERVAL)]. *)
Definition heartbeat_tick (now : Z) (t : Tab) (ls : option Stored)
    : option Stored * list Effect :=
  updateHeartbeat now t ls.

(** The callback of [setTimeout(.., PING_TIMEOUT)] in
    [initializeBroadcastChannel]. *)
Definition ping_timeout (now : Z) (t : Tab) (ls : option Stored)
    : Tab * option Stored * list Effect :=
  if negb (receivedPong t) && (length (pingResponses t) =? 0)%nat
  then activateTab now t ls
  else if receivedPong t
  then (if negb (isActive t)
        then let '(t', e) := handleDuplicateTab t in (t', ls, e)
        else (t, ls, []))
  else (t, ls, []).

(** The body of [initializeBroadcastChannel] once [new BroadcastChannel]
    has succeeded: the handler is installed, [ping] and [claim] are posted
    and the decision timer is armed. *)
Definition initializeBroadcastChannel (t : Tab) : Tab * list Effect :=
  (mkTab (tabId t) true (heartbeatInterval t) (isActive t) (useLocalStorage t)
     (receivedPong t) (pingResponses t),
   [PostMessage (mkMessage ping (Some (tabId t)) (Some (tab_timestamp (tabId t))));
    PostMessage (mkMessage claim (Some (tabId t)) (Some (tab_timestamp (tabId t))));
    SetTimeoutPing PING_TIMEOUT]).

(** [initializeLocalStorage]; a parse failure is caught and logged and the
    code then goes on to activate. *)
Definition initializeLocalStorage (now : Z) (t : Tab) (ls : option Stored)
    : Tab * option Stored * list Effect :=
  let activate (pre : list Effect) :=
    let '(t', ls', e) := activateTab now t ls in
    (t', ls', pre ++ e ++ [AddStorageListener]) in
  match ls with
  | Some (TabData _ ts) =>
      if fresh now ts then (t, ls, [SetTimeoutRecheck 300]) else activate []
  | Some Unparsable => activate [ConsoleError "Error parsing tab data:"]
  | None => activate []
  end.

(** The callback of [setTimeout(.., 300)] in [initializeLocalStorage];
    its [JSON.parse] is not guarded. *)
Definition recheck (now : Z) (t : Tab) (ls : option Stored)
    : result (Tab * option Stored * list Effect) :=
  match ls with
  | Some Unparsable => Throw SyntaxError
  | Some (TabData tid ts) =>
      if fresh now ts && differs tid (tabId t)
      then let '(t', e) := handleDuplicateTab t in Ok (t', ls, e)
      else Ok (activateTab now t ls)
  | None => Ok (activateTab now t ls)
  end.

(** [handleStorageEvent]: [key] is [event.key], [newValue] is
    [event.newValue] ([None] when it is [null] or empty). *)
Definition handleStorageEvent (now : Z) (t : Tab) (key : string)
    (newValue : option Stored) : Tab * list Effect :=
  if String.eqb key TAB_ID_KEY then
    match newValue with
    | Some Unparsable => (t, [ConsoleError "Error handling storage event:"])
    | Some (TabData tid ts) =>
        if differs tid (tabId t) && isActive t
        then (if fresh now ts then handleDuplicateTab t else (t, []))
        else (t, [])
    | None => (t, [])
    end
  else (t, []).

(** [cleanup] (also [destroy]). *)
Definition cleanup (t : Tab) (ls : option Stored)
    : Tab * option Stored * list Effect :=
  let e1 := if heartbeatInterval t then [ClearIntervalHeartbeat] else [] in
  let e2 := if channel t then [ChannelClose] else [] in
  let t' := mkTab (tabId t) false false (isActive t) (useLocalStorage t)
              (receivedPong t) (pingResponses t) in
  if isActive t && useLocalStorage t then
    match ls with
    | Some Unparsable => (t', ls, e1 ++ e2 ++ [ConsoleError "Cleanup error:"])
    | Some (TabData tid _) =>
        if bool_decide (tid = Some (tabId t)) then (t', None, e1 ++ e2)
        else (t', ls, e1 ++ e2)
    | None => (t', ls, e1 ++ e2)
    end
  else (t', ls, e1 ++ e2).

(** [handleVisibilityChange]; [hidden] is [document.hidden]. *)
Definition handleVisibilityChange (hidden : bool) (now : Z) (t : Tab)
    (ls : option Stored) : option Stored * list Effect :=
  if hidden then (ls, [])
  else if isActive t then updateHeartbeat now t ls else (ls, []).

(** The listeners that [initialize] installs after choosing the transport. *)
Inductive Listener : Type := VisibilityChange | BeforeUnload.

(** [initialize]: [bc_defined] is [typeof BroadcastChannel !== 'undefined'],
    [ctor_ok] tells whether [new BroadcastChannel(..)] succeeds; when it
    throws, the [catch] logs and falls back to [localStorage]. *)
Definition initialize (bc_defined ctor_ok : bool) (now : Z) (t : Tab)
    (ls : option Stored) : Tab * option Stored * list Effect * list Listener :=
  let fallback (pre : list Effect) :=
    let t1 := mkTab (tabId t) (channel t) (heartbeatInterval t) (isActive t)
                true (receivedPong t) (pingResponses t) in
    let '(t2, ls2, es) := initializeLocalStorage now t1 ls in
    (t2, ls2, pre ++ es, [VisibilityChange; BeforeUnload]) in
  if bc_defined then
    if ctor_ok then
      let '(t1, es) := initializeBroadcastChannel t in
      (t1, ls, es, [VisibilityChange; BeforeUnload])
    else fallback [ConsoleError "BroadcastChannel failed:"]
  else fallback [].

(** The state right after the constructor has chosen an identifier. *)
Definition new_tab (id : TabId) : Tab :=
  mkTab id false false false false false [].

(** *** Two tabs on one BroadcastChannel

    Each tab has opened the channel and posted its [ping] and [claim];
    [to1] holds the messages on their way to tab 1 (posted by tab 0, in
    posting order), [to0] those on their way to tab 0. *)
Inductive Who : Type := T0 | T1.

Record Net : Type := mkNet {
  tab0 : Tab;  tab1 : Tab;
  pending0 : bool;  pending1 : bool;   (* decision timer not yet fired *)
  to0 : list Message;  to1 : list Message;
  out0 : list Effect;  out1 : list Effect
}.

Inductive Event : Type :=
  | Deliver (to : Who) (now : Z)
  | PingTimeout (who : Who) (now : Z)
  | HeartbeatTick (who : Who) (now : Z).

Definition posted (es : list Effect) : list Message :=
  omap (λ e, match e with PostMessage m => Some m | _ => None end) es.

(** Both tabs use the channel ([useLocalStorage] is [false]), so that the
    timers leave [localStorage] alone. *)
Definition step (n : Net) (ev : Event) : Net :=
  match ev with
  | Deliver T0 now =>
      match to0 n with
      | [] => n
      | m :: rest =>
          let '(t, es) := onmessage now (tab0 n) m in
          mkNet t (tab1 n) (pending0 n) (pending1 n) rest (to1 n ++ posted es)
            (out0 n ++ es) (out1 n)
      end
  | Deliver T1 now =>
      match to1 n with
      | [] => n
      | m :: rest =>
          let '(t, es) := onmessage now (tab1 n) m in
          mkNet (tab0 n) t (pending0 n) (pending1 n) (to0 n ++ posted es) rest
            (out0 n) (out1 n ++ es)
      end
  | PingTimeout T0 now =>
      if pending0 n then
        let '(t, _, es) := ping_timeout now (tab0 n) None in
        mkNet t (tab1 n) false (pending1 n) (to0 n) (to1 n ++ posted es)
          (out0 n ++ es) (out1 n)
      else n
  | PingTimeout T1 now =>
      if pending1 n then
        let '(t, _, es) := ping_timeout now (tab1 n) None in
        mkNet (tab0 n) t (pending0 n) false (to0 n ++ posted es) (to1 n)
          (out0 n) (out1 n ++ es)
      else n
  | HeartbeatTick T0 now =>
      if heartbeatInterval (tab0 n) then
        let '(_, es) := heartbeat_tick now (tab0 n) None in
        mkNet (tab0 n) (tab1 n) (pending0 n) (pending1 n) (to0 n)
          (to1 n ++ posted es) (out0 n ++ es) (out1 n)
      else n
  | HeartbeatTick T1 now =>
      if heartbeatInterval (tab1 n) then
        let '(_, es) := heartbeat_tick now (tab1 n) None in
        mkNet (tab0 n) (tab1 n) (pending0 n) (pending1 n) (to0 n ++ posted es)
          (to1 n) (out0 n) (out1 n ++ es)
      else n
  end.

Definition run (evs : list Event) (n : Net) : Net := foldl step n evs.

Definition is_timeout (ev : Event) : bool :=
  match ev with PingTimeout _ _ => true | _ => false end.

Definition start (id : TabId) : Tab * list Effect :=
  initializeBroadcastChannel (new_tab id).

(** Both tabs started and received nothing yet. *)
Definition init_net (id0 id1 : TabId) : Net :=
  mkNet (start id0).1 (start id1).1 true true
    (posted (start id1).2) (posted (start id0).2)
    (start id0).2 (start id1).2.

(** *** The states of the two tabs during an election *)

Definition ping_of (id : TabId) : Message :=
  mkMessage ping (Some id) (Some (tab_timestamp id)).
Definition claim_of (id : TabId) : Message :=
  mkMessage claim (Some id) (Some (tab_timestamp id)).
Definition focus_req : Message := mkMessage focus_request None None.

(** A tab that opened the channel and has not heard or decided anything. *)
Definition waiting_tab (id : TabId) : Tab := mkTab id true false false false false [].

(** A tab that has not been activated. *)
Definition inactive_tab (id : TabId) (t : Tab) : Prop :=
  ∃ rp resp, t = mkTab id true false false false rp resp.

Definition active_tab (id : TabId) : Tab := mkTab id true true true false false [].

(** What can be on its way once the first exchange is over: focus requests,
    and the heartbeats and activation notices of the other tab. *)
Definition late_from (other : TabId) (m : Message) : Prop :=
  m = focus_req
  ∨ (m_tabId m = Some other ∧ (m_type m = heartbeat ∨ m_type m = activated)).

(** After the first exchange.  [heard1] tells whether tab 1 received a
    pong; a tab that did not is waiting for its timer or, once the timer has
    fired, active. *)
Record deciding (id0 id1 : TabId) (heard1 : bool) (n : Net) : Prop := {
  de_tab0 : tab0 n = if pending0 n then waiting_tab id0 else active_tab id0;
  de_tab1 : if heard1
            then ∃ resp, tab1 n = mkTab id1 true false false false true resp
            else tab1 n = if pending1 n then waiting_tab id1 else active_tab id1;
  de_to0 : Forall (late_from id1) (to0 n);
  de_to1 : Forall (late_from id0) (to1 n)
}.

(** Before the decision timers: tab 0 has answered or will answer the ping
    of tab 1, and tab 1 has heard or will hear the pong. *)
Record exchanging (id0 id1 : TabId) (n : Net) : Prop := {
  ex_tab0 : tab0 n = waiting_tab id0;
  ex_tab1 : inactive_tab id1 (tab1 n);
  ex_pending : pending0 n = true ∧ pending1 n = true;
  ex_to0 : Forall (λ m, m = ping_of id1 ∨ m = claim_of id1 ∨ m = focus_req) (to0 n);
  ex_to1 : Forall (λ m, m = ping_of id0 ∨ m = claim_of id0
                        ∨ ∃ now, m = mkMessage pong (Some id0) (Some now)) (to1 n);
  ex_progress : receivedPong (tab1 n) = true
                ∨ (∃ now, mkMessage pong (Some id0) (Some now) ∈ to1 n)
                ∨ ping_of id1 ∈ to0 n
}.

(** Before the timers nothing happens: neither tab answers the ping of the
    other, neither yields to its claim. *)
Record tied (id0 id1 : TabId) (n : Net) : Prop := {
  ti_tab0 : tab0 n = waiting_tab id0;
  ti_tab1 : tab1 n = waiting_tab id1;
  ti_pending : pending0 n = true ∧ pending1 n = true;
  ti_to0 : Forall (λ m, m = ping_of id1 ∨ m = claim_of id1) (to0 n);
  ti_to1 : Forall (λ m, m = ping_of id0 ∨ m = claim_of id0) (to1 n)
}.

(** The decision timer of tab 1. *)
Definition younger_timer (ev : Event) : bool :=
  match ev with PingTimeout T1 _ => true | _ => false end.

(** What tab 0 posts besides its ping and claim: pongs, and, once it is
    active, heartbeats and its activation notice. *)
Definition from_older (id0 : TabId) (m : Message) : Prop :=
  m_tabId m = Some id0
  ∧ (m_type m = pong ∨ m_type m = heartbeat ∨ m_type m = activated).

(** As long as tab 1 has not been activated: tab 0 waits for its timer or,
    once the timer has fired, is active; tab 1 may have yielded and may
    have heard a pong. *)
Record settling (id0 id1 : TabId) (n : Net) : Prop := {
  se_tab0 : tab0 n = if pending0 n then waiting_tab id0 else active_tab id0;
  se_tab1 : inactive_tab id1 (tab1 n);
  se_to0 : Forall (λ m, m = ping_of id1 ∨ m = claim_of id1 ∨ m = focus_req) (to0 n);
  se_to1 : Forall (λ m, m = ping_of id0 ∨ m = claim_of id0 ∨ from_older id0 m)
             (to1 n)
}.

(** *** A tab that starts while another one is active

    Tab 0 started alone: nobody heard its ping and claim, and its decision
    timer, firing at [now0], activated it.  Tab 1 starts afterwards: only
    its own ping and claim are on their way. *)
Definition join_net (id0 id1 : TabId) (now0 : Z) : Net :=
  let '(t0, _, es0) := ping_timeout now0 (start id0).1 None in
  mkNet t0 (start id1).1 false true (posted (start id1).2) []
    ((start id0).2 ++ es0) (start id1).2.

(** What tab 0 can post once it is active. *)
Definition from_leader (id0 : TabId) (m : Message) : Prop :=
  m_tabId m = Some id0 ∧ (m_type m = pong ∨ m_type m = heartbeat).

Record joining (id0 id1 : TabId) (n : Net) : Prop := {
  jo_tab0 : tab0 n = active_tab id0;
  jo_pending0 : pending0 n = false;
  jo_tab1 : inactive_tab id1 (tab1 n);
  jo_to0 : Forall (λ m, m = ping_of id1 ∨ m = claim_of id1 ∨ m = focus_req) (to0 n);
  jo_to1 : Forall (from_leader id0) (to1 n)
}.

End TabManager.


(** ** The browser objects both connection managers use *)

Module Browser.

Inductive ReadyState : Type := CONNECTING | OPEN | CLOSING | CLOSED.

#[export] Instance ReadyState_eq_dec : EqDecision ReadyState.
Proof. solve_decision. Defined.

(** A [WebSocket] object.  Its four handlers are closures created by one call
    of [connect]; [owner] is what that call had bound (the props and hook
    values of the render that defined it).  [sent] lists the frames passed
    to [send]. *)
Record Socket (E : Type) : Type := mkSocket {
  readyState : ReadyState;
  owner : E;
  sent : list string
}.
Arguments mkSocket {E} _ _ _.
Arguments readyState {E} _.
Arguments owner {E} _.
Arguments sent {E} _.

(** A pending [setTimeout]: its delay and what its callback had bound. *)
Record Timer (E : Type) : Type := mkTimer { delay : Z; env : E }.
Arguments mkTimer {E} _ _.
Arguments delay {E} _.
Arguments env {E} _.

Definition ready_eqb (a b : ReadyState) : bool :=
  match a, b with
  | CONNECTING, CONNECTING | OPEN, OPEN | CLOSING, CLOSING | CLOSED, CLOSED => true
  | _, _ => false
  end.

(** [ref.current] as a condition: [null] is falsy. *)
Definition is_set {A} (ref : option A) : bool :=
  match ref with Some _ => true | None => false end.

(** [ws.close()]: an open or connecting socket starts closing (its close
    event is dispatched later); otherwise nothing happens. *)
Definition close_socket {E} (k : Socket E) : Socket E :=
  match readyState k with
  | CONNECTING | OPEN => mkSocket CLOSING (owner k) (sent k)
  | CLOSING | CLOSED => k
  end.

Definition set_ready {E} (st : ReadyState) (k : Socket E) : Socket E :=
  mkSocket st (owner k) (sent k).

Definition push_frame {E} (frame : string) (k : Socket E) : Socket E :=
  mkSocket (readyState k) (owner k) (sent k ++ [frame]).

End Browser.


(** ** WebSocketWrapper/index.tsx *)

Module WebSocketWrapper.
Import Browser.

(** What one render of the component binds.  [connect], the two effects and
    the socket handlers are closures: they read the values of the render
    that created them, while the refs are shared by all renders.
    [isActiveTab] is the value returned by [useTabManager()] in that render;
    [url_ok] tells whether [new WebSocket(url)] succeeds. *)
Record Render : Type := mkRender {
  url_ok : bool;
  reconnectInterval : Z;
  reconnectAttempts : Z;
  enabled : bool;
  userId : option string;
  isActiveTab : bool
}.

Inductive Notice : Type :=
  | DuplicateSessionNotice
  | ForceLogoutNotice (msg : jsval)   (* data.message || 'You have been ..' *)
  | ErrorNotice (msg : jsval)         (* data.message || 'Unknown error' *)
  | UnknownTypeNotice (ty : jsval).

(** What the component does to the outside; the [debug.*] calls, which
    write to the console when [DEBUG_WEBSOCKET] is set, are left out. *)
Inductive Effect : Type :=
  | Alert (n : Notice)
  | Logout                 (* onLogout(): auth.logout(..) *)
  | OnConnect              (* the onConnect prop *)
  | Uncaught (e : exn).    (* an exception that left a handler *)

Record State : Type := mkState {
  (* useState *)
  isConnected : bool;
  showBlockedScreen : jsval;
  showMaintenanceScreen : jsval;
  (* useRef *)
  socketRef : option nat;
  reconnectCountRef : Z;
  reconnectTimeoutRef : option nat;
  isConnectingRef : bool;
  hasRegisteredRef : bool;
  (* the browser *)
  sockets : list (Socket Render);          (* by order of creation *)
  timers : list (option (Timer Render));   (* [None]: fired or cleared *)
  sessionStorage : gmap string string;
  (* the latest render, [None] once unmounted *)
  rendered : option Render;
  log : list Effect
}.

Definition set_isConnected (v : bool) (s : State) : State :=
  mkState v (showBlockedScreen s) (showMaintenanceScreen s) (socketRef s)
    (reconnectCountRef s) (reconnectTimeoutRef s) (isConnectingRef s)
    (hasRegisteredRef s) (sockets s) (timers s) (sessionStorage s)
    (rendered s) (log s).
Definition set_showBlockedScreen (v : jsval) (s : State) : State :=
  mkState (isConnected s) v (showMaintenanceScreen s) (socketRef s)
    (reconnectCountRef s) (reconnectTimeoutRef s) (isConnectingRef s)
    (hasRegisteredRef s) (sockets s) (timers s) (sessionStorage s)
    (rendered s) (log s).
Definition set_showMaintenanceScreen (v : jsval) (s : State) : State :=
  mkState (isConnected s) (showBlockedScreen s) v (socketRef s)
    (reconnectCountRef s) (reconnectTimeoutRef s) (isConnectingRef s)
    (hasRegisteredRef s) (sockets s) (timers s) (sessionStorage s)
    (rendered s) (log s).
Definition set_socketRef (v : option nat) (s : State) : State :=
  mkState (isConnected s) (showBlockedScreen s) (showMaintenanceScreen s) v
    (reconnectCountRef s) (reconnectTimeoutRef s) (isConnectingRef s)
    (hasRegisteredRef s) (sockets s) (timers s) (sessionStorage s)
    (rendered s) (log s).
Definition set_reconnectCountRef (v : Z) (s : State) : State :=
  mkState (isConnected s) (showBlockedScreen s) (showMaintenanceScreen s)
    (socketRef s) v (reconnectTimeoutRef s) (isConnectingRef s)
    (hasRegisteredRef s) (sockets s) (timers s) (sessionStorage s)
    (rendered s) (log s).
Definition set_reconnectTimeoutRef (v : option nat) (s : State) : State :=
  mkState (isConnected s) (showBlockedScreen s) (showMaintenanceScreen s)
    (socketRef s) (reconnectCountRef s) v (isConnectingRef s)
    (hasRegisteredRef s) (sockets s) (timers s) (sessionStorage s)
    (rendered s) (log s).
Definition set_isConnectingRef (v : bool) (s : State) : State :=
  mkState (isConnected s) (showBlockedScreen s) (showMaintenanceScreen s)
    (socketRef s) (reconnectCountRef s) (reconnectTimeoutRef s) v
    (hasRegisteredRef s) (sockets s) (timers s) (sessionStorage s)
    (rendered s) (log s).
Definition set_hasRegisteredRef (v : bool) (s : State) : State :=
  mkState (isConnected s) (showBlockedScreen s) (showMaintenanceScreen s)
    (socketRef s) (reconnectCountRef s) (reconnectTimeoutRef s)
    (isConnectingRef s) v (sockets s) (timers s) (sessionStorage s)
    (rendered s) (log s).
Definition set_sockets (v : list (Socket Render)) (s : State) : State :=
  mkState (isConnected s) (showBlockedScreen s) (showMaintenanceScreen s)
    (socketRef s) (reconnectCountRef s) (reconnectTimeoutRef s)
    (isConnectingRef s) (hasRegisteredRef s) v (timers s) (sessionStorage s)
    (rendered s) (log s).
Definition set_timers (v : list (option (Timer Render))) (s : State) : State :=
  mkState (isConnected s) (showBlockedScreen s) (showMaintenanceScreen s)
    (socketRef s) (reconnectCountRef s) (reconnectTimeoutRef s)
    (isConnectingRef s) (hasRegisteredRef s) (sockets s) v (sessionStorage s)
    (rendered s) (log s).
Definition set_sessionStorage (v : gmap string string) (s : State) : State :=
  mkState (isConnected s) (showBlockedScreen s) (showMaintenanceScreen s)
    (socketRef s) (reconnectCountRef s) (reconnectTimeoutRef s)
    (isConnectingRef s) (hasRegisteredRef s) (sockets s) (timers s) v
    (rendered s) (log s).
Definition set_rendered (v : option Render) (s : State) : State :=
  mkState (isConnected s) (showBlockedScreen s) (showMaintenanceScreen s)
    (socketRef s) (reconnectCountRef s) (reconnectTimeoutRef s)
    (isConnectingRef s) (hasRegisteredRef s) (sockets s) (timers s)
    (sessionStorage s) v (log s).
Definition emit (e : Effect) (s : State) : State :=
  mkState (isConnected s) (showBlockedScreen s) (showMaintenanceScreen s)
    (socketRef s) (reconnectCountRef s) (reconnectTimeoutRef s)
    (isConnectingRef s) (hasRegisteredRef s) (sockets s) (timers s)
    (sessionStorage s) (rendered s) (log s ++ [e]).

(** The [case] labels of the dispatch in [ws.onmessage]. *)
Definition recognized (ty : jsval) : bool :=
  is_str ty "REGISTER_SUCCESS" || is_str ty "DUPLICATE_SESSION"
  || is_str ty "FORCE_LOGOUT" || is_str ty "BLOCK_STATUS"
  || is_str ty "MAINTENANCE_STATUS" || is_str ty "error".

(** Handlers are state transformers that may throw; a throw keeps the
    changes made before it. *)
Definition M (A : Type) : Type := State → result A * State.

#[export] Instance M_ret : MRet M := λ A a s, (Ok a, s).
#[export] Instance M_bind : MBind M :=
  λ A B f m s, match m s with
               | (Ok a, s') => f a s'
               | (Throw e, s') => (Throw e, s')
               end.
Definition modify (f : State → State) : M unit := λ s, (Ok (), f s).
Definition throw {A} (e : exn) : M A := λ s, (Throw e, s).
Definition lift {A} (r : result A) : M A := λ s, (r, s).
Definition when (b : bool) (m : M unit) : M unit := if b then m else mret ().

(** [socketRef.current?.readyState === WebSocket.OPEN] *)
Definition current_is_open (s : State) : bool :=
  match socketRef s with
  | Some i =>
      match sockets s !! i with
      | Some k => ready_eqb (readyState k) OPEN
      | None => false
      end
  | None => false
  end.

(** [socketRef.current.send(frame)] *)
Definition send_current (frame : string) (s : State) : State :=
  match socketRef s with
  | Some i => set_sockets (alter (push_frame frame) i (sockets s)) s
  | None => s
  end.

(** [socketRef.current.close(); socketRef.current = null], guarded by
    [if (socketRef.current)]. *)
Definition close_current (s : State) : State :=
  match socketRef s with
  | Some i => set_socketRef None (set_sockets (alter close_socket i (sockets s)) s)
  | None => s
  end.

(** [setTimeout(callback, delay)] with the callback's bindings. *)
Definition set_timeout (d : Z) (r : Render) (s : State) : State :=
  set_timers (timers s ++ [Some (mkTimer d r)]) s.

Section WithLibs.
Context `{L : Libs}.

Definition registrationMessage (userIdToRegister : string) : jsval :=
  VObj [("type", VStr "REGISTER_CHILD");
        ("userId", VStr (userIdToRegister +:+ "_studio"))].

Definition sendRegistration (userIdToRegister : string) : M unit :=
  λ s,
    if current_is_open s && str_truthy userIdToRegister
       && negb (hasRegisteredRef s)
    then (Ok (),
          set_hasRegisteredRef true
            (send_current (JSON_stringify (registrationMessage userIdToRegister)) s))
    else (Ok (), s).

(** [secureSessionStorage.setItem(key, value)] on the state's storage. *)
Definition storage_setItem (salt key value : string) : M unit :=
  λ s, let '(r, st) := SecureStorage.setItem salt key value (sessionStorage s) in
       (r, set_sessionStorage st s).

Definition onBlockStatus (salt : string) (status : jsval) : M unit :=
  let blocked := is_str status "Blocked" in
  modify (set_showBlockedScreen (VBool blocked)) ;;
  storage_setItem salt "accountBlocked"
    (JSON_stringify (VObj [("isBlocked", VBool blocked)])).

Definition onMaintenanceUpdate (salt : string) (status : jsval) : M unit :=
  modify (set_showMaintenanceScreen status) ;;
  storage_setItem salt "maintenance" (JSON_stringify (VObj [("status", status)])).

Definition onLogout : M unit := modify (emit Logout).

(** [ws.onopen] *)
Definition onopen (r : Render) (salt : string) : M unit :=
  onMaintenanceUpdate salt (VBool false) ;;
  modify (set_isConnected true) ;;
  modify (set_reconnectCountRef 0) ;;
  modify (set_isConnectingRef false) ;;
  match userId r with
  | Some u => when (str_truthy u) (sendRegistration u)
  | None => mret ()
  end ;;
  modify (emit OnConnect).

(** The statements of [ws.onopen] that follow the first one:
    [onopen r salt] is [onMaintenanceUpdate salt (VBool false)] followed by
    [onopen_rest r]. *)
Definition onopen_rest (r : Render) : M unit :=
  modify (set_isConnected true) ;;
  modify (set_reconnectCountRef 0) ;;
  modify (set_isConnectingRef false) ;;
  match userId r with
  | Some u => when (str_truthy u) (sendRegistration u)
  | None => mret ()
  end ;;
  modify (emit OnConnect).

(** [ws.onmessage]; [data] is [event.data]. *)
Definition onmessage (r : Render) (data : string) (salt : string) : M unit :=
  d ← match JSON_parse data with
       | Some d => mret d
       | None => throw SyntaxError
       end;
  ty ← lift (get_prop d "type");
  if is_str ty "REGISTER_SUCCESS" then mret ()
  else if is_str ty "DUPLICATE_SESSION" then
    modify (emit (Alert DuplicateSessionNotice)) ;; onLogout
  else if is_str ty "FORCE_LOGOUT" then
    a ← lift (get_prop d "alert");
    m ← lift (get_prop d "message");
    when (truthy a) (modify (emit (Alert (ForceLogoutNotice m)))) ;;
    onLogout
  else if is_str ty "BLOCK_STATUS" then
    m ← lift (get_prop d "message"); onBlockStatus salt m
  else if is_str ty "MAINTENANCE_STATUS" then
    m ← lift (get_prop d "message"); onMaintenanceUpdate salt m
  else if is_str ty "error" then
    m ← lift (get_prop d "message");
    modify (emit (Alert (ErrorNotice m))) ;; onLogout
  else
    modify (emit (Alert (UnknownTypeNotice ty))) ;; onLogout.

(** [ws.onerror] *)
Definition onerror (r : Render) (salt : string) : M unit :=
  modify (set_isConnectingRef false) ;;
  onMaintenanceUpdate salt (VBool true).

(** [ws.onclose]: [setTimeout(connect, 1000)], where [connect] is the one
    that created the socket, with the bindings [r] of its render; the timer
    identifier goes to a local variable of [connect], not to
    [reconnectTimeoutRef]. *)
Definition onclose (r : Render) : M unit :=
  modify (set_isConnected false) ;;
  modify (set_isConnectingRef false) ;;
  modify (set_hasRegisteredRef false) ;;
  modify (set_timeout 1000 r).

(** [connect], as defined by render [r]. *)
Definition connect (r : Render) : M unit :=
  λ s,
    if negb (isActiveTab r) then (Ok (), s)
    else if negb (enabled r) || isConnectingRef s || current_is_open s
    then (Ok (), s)
    else
      let s1 := set_isConnectingRef true (close_current s) in
      if url_ok r then
        (Ok (),
         set_socketRef (Some (length (sockets s1)))
           (set_sockets (sockets s1 ++ [mkSocket CONNECTING r []]) s1))
      else (Ok (), set_isConnectingRef false s1).

(** First effect (dependencies [[isActiveTab]]): its body and the cleanup it
    returns. *)
Definition effect_connect (r : Render) : M unit :=
  when (enabled r) (connect r).

Definition effect_cleanup : M unit :=
  λ s,
    let s1 := match reconnectTimeoutRef s with
              | Some t => set_reconnectTimeoutRef None
                            (set_timers (<[t := None]> (timers s)) s)
              | None => s
              end in
    (Ok (), set_reconnectCountRef 0 (set_isConnectingRef false (close_current s1))).

(** Second effect (dependencies [[isActiveTab, enabled]]). *)
Definition effect_tab (r : Render) : M unit :=
  λ s,
    if isActiveTab r && enabled r then
      (if negb (is_set (socketRef s)) || negb (current_is_open s)
       then connect r s else (Ok (), s))
    else if negb (isActiveTab r) then
      match socketRef s with
      | Some _ =>
          (Ok (), set_hasRegisteredRef false (set_isConnected false (close_current s)))
      | None => (Ok (), s)
      end
    else (Ok (), s).

(** What the browser and React do to the component.  On a new render React
    first runs the cleanups of the effects whose dependencies changed, then
    the bodies of these effects, in the order of their declaration. *)
Inductive Event : Type :=
  | Rerender (r : Render)
  | Unmount
  | SockOpen (i : nat) (salt : string)
  | SockMessage (i : nat) (data : string) (salt : string)
  | SockFail (i : nat) (salt : string)     (* error event, then close event *)
  | SockClose (i : nat)                    (* close event *)
  | TimerFire (t : nat).

(** A handler runs to its end or to its first uncaught exception. *)
Definition run_handler (m : M unit) (s : State) : State :=
  match m s with
  | (Ok _, s') => s'
  | (Throw e, s') => emit (Uncaught e) s'
  end.

Definition set_socket_state (i : nat) (st : ReadyState) (s : State) : State :=
  set_sockets (alter (set_ready st) i (sockets s)) s.

Definition step (s : State) (ev : Event) : State :=
  match ev with
  | Rerender r' =>
      match rendered s with
      | None => s
      | Some r =>
          let s0 := set_rendered (Some r') s in
          if negb (Bool.eqb (isActiveTab r) (isActiveTab r')) then
            run_handler (effect_tab r')
              (run_handler (effect_connect r') (run_handler effect_cleanup s0))
          else if negb (Bool.eqb (enabled r) (enabled r')) then
            run_handler (effect_tab r') s0
          else s0
      end
  | Unmount =>
      match rendered s with
      | None => s
      | Some _ => set_rendered None (run_handler effect_cleanup s)
      end
  | SockOpen i salt =>
      match sockets s !! i with
      | Some k =>
          if ready_eqb (readyState k) CONNECTING
          then run_handler (onopen (owner k) salt) (set_socket_state i OPEN s)
          else s
      | None => s
      end
  | SockMessage i data salt =>
      match sockets s !! i with
      | Some k =>
          if ready_eqb (readyState k) OPEN
          then run_handler (onmessage (owner k) data salt) s
          else s
      | None => s
      end
  | SockFail i salt =>
      match sockets s !! i with
      | Some k =>
          if ready_eqb (readyState k) CLOSED then s
          else run_handler (onclose (owner k))
                 (run_handler (onerror (owner k) salt)
                    (set_socket_state i CLOSED s))
      | None => s
      end
  | SockClose i =>
      match sockets s !! i with
      | Some k =>
          if ready_eqb (readyState k) CLOSED then s
          else run_handler (onclose (owner k)) (set_socket_state i CLOSED s)
      | None => s
      end
  | TimerFire t =>
      match timers s !! t with
      | Some (Some tm) =>
          run_handler (connect (env tm)) (set_timers (<[t := None]> (timers s)) s)
      | _ => s
      end
  end.

Definition run (evs : list Event) (s : State) : State := foldl step s evs.

(** The component after its first render [r] and that render's effects;
    [blocked] and [maintenance] are the values the two [useState]
    initialisers read from the storage [store]. *)
Definition mount (r : Render) (blocked maintenance : jsval)
    (store : gmap string string) : State :=
  run_handler (effect_tab r)
    (run_handler (effect_connect r)
       (mkState false blocked maintenance None 0 None false false [] []
          store (Some r) [])).

(** [sendMessage(message)] of the context value, as the latest render
    defines it: [isConnected] is the current value of the state. *)
Definition sendMessage (message : jsval) : M unit :=
  λ s,
    if is_set (socketRef s) && isConnected s && current_is_open s
    then
      let data := match message with
                  | VStr text => text
                  | _ => JSON_stringify message
                  end in
      (Ok (), send_current data s)
    else (Ok (), s).

(** The initialisers of the two [useState] flags:
    [saved ? JSON.parse(saved).field : false], where [saved] is what
    [secureSessionStorage.getItem] returned. *)
Definition initial_flag (field : string) (saved : jsval) : result jsval :=
  if truthy saved then
    match JSON_parse (to_text saved) with
    | Some d => get_prop d field
    | None => Throw SyntaxError
    end
  else Ok (VBool false).

(** The first render of the component over the session storage [store],
    followed by its effects; an exception of an initialiser leaves the
    render. *)
Definition first_render (r : Render) (store : gmap string string) : result State :=
  let '(savedBlockedState, store1) := SecureStorage.getItem "accountBlocked" store in
  match initial_flag "isBlocked" savedBlockedState with
  | Throw e => Throw e
  | Ok blocked =>
      let '(savedMaintenanceState, store2) :=
        SecureStorage.getItem "maintenance" store1 in
      match initial_flag "status" savedMaintenanceState with
      | Throw e => Throw e
      | Ok maintenance => Ok (mount r blocked maintenance store2)
      end
  end.

(** *** The sockets and timers of a run

    The bindings of a [connect] that got as far as [new WebSocket(url)]. *)
Definition leading (r : Render) : Prop :=
  isActiveTab r = true ∧ enabled r = true ∧ url_ok r = true.

Definition idle (k : Socket Render) : Prop :=
  readyState k = CLOSING ∨ readyState k = CLOSED.

(** Nothing was sent on the socket, or, once it has opened, exactly the
    registration of the identity bound by its handlers. *)
Definition registered_at_most_once (k : Socket Render) : Prop :=
  sent k = []
  ∨ ∃ u, userId (owner k) = Some u ∧ str_truthy u = true
         ∧ readyState k ≠ CONNECTING
         ∧ sent k = [JSON_stringify (registrationMessage u)].

Record wired (s : State) : Prop := {
  wi_single : ∀ i k, sockets s !! i = Some k → socketRef s ≠ Some i → idle k;
  wi_sent : Forall registered_at_most_once (sockets s);
  wi_owner : Forall (λ k, leading (owner k)) (sockets s);
  wi_timers : Forall (λ t, ∀ tm, t = Some tm → delay tm = 1000 ∧ leading (env tm))
                (timers s);
  wi_count : reconnectCountRef s = 0;
  wi_timeout : reconnectTimeoutRef s = None
}.

(** The part of the state that [wired] reads. *)
Definition wiring (s : State)
    : option nat * list (Socket Render) * list (option (Timer Render)) * Z
      * option nat :=
  (socketRef s, sockets s, timers s, reconnectCountRef s, reconnectTimeoutRef s).

(** A handler that leaves the sockets, the timers and the retry refs alone,
    whether it returns or throws. *)
Definition keeps_wiring {A} (m : M A) : Prop :=
  ∀ s, wiring (m s).2 = wiring s.

(** A handler that leaves the part [f] of the state alone, whether it
    returns or throws. *)
Definition keeps {A B} (f : State → B) (m : M A) : Prop :=
  ∀ s, f (m s).2 = f s.

(** The registered flag and the latest render. *)
Definition standing (s : State) : bool * option Render :=
  (hasRegisteredRef s, rendered s).

End WithLibs.
End WebSocketWrapper.


(** ** The variant of the wrapper with a bounded retry policy

    The same component in the version that has no tab manager and no
    inbound dispatch, and whose [ws.onclose] counts reconnection attempts.
    The [log] holds the calls of the callbacks given by the caller; the
    [debug.*] calls of the handlers write to the console only, and only when
    [DEBUG_WEBSOCKET] is set, and are not part of the state. *)

Module BoundedRetry.
Import Browser.

(** The props bound by the only render whose effect runs (the effect has an
    empty dependency list). *)
Record Props : Type := mkProps {
  url_ok : bool;
  reconnectInterval : Z;
  reconnectAttempts : Z;
  enabled : bool;
  userId : option string
}.

Inductive ConnectionStatus : Type :=
  | connecting | connected | disconnected | error.

Inductive Effect : Type :=
  | OnConnect
  | OnDisconnect
  | OnError
  | OnMessage (data : string).

Record State : Type := mkState {
  isConnected : bool;
  lastMessage : option string;
  connectionStatus : ConnectionStatus;
  socketRef : option nat;
  reconnectCountRef : Z;
  reconnectTimeoutRef : option nat;
  isConnectingRef : bool;
  hasRegisteredRef : bool;
  sockets : list (Socket Props);
  timers : list (option (Timer Props));
  log : list Effect
}.

Definition current_is_open (s : State) : bool :=
  match socketRef s with
  | Some i =>
      match sockets s !! i with
      | Some k => ready_eqb (readyState k) OPEN
      | None => false
      end
  | None => false
  end.

(** [socketRef.current.close(); socketRef.current = null] under
    [if (socketRef.current)], on the socket list and the ref. *)
Definition close_current (s : State) : list (Socket Props) * option nat :=
  match socketRef s with
  | Some i => (alter close_socket i (sockets s), None)
  | None => (sockets s, None)
  end.

Section WithLibs.
Context `{L : Libs}.

Definition registrationMessage (userIdToRegister : string) : jsval :=
  VObj [("type", VStr "REGISTER_CHILD");
        ("userId", VStr (userIdToRegister +:+ "_studio"))].

Definition sendRegistration (userIdToRegister : string) (s : State) : State :=
  if current_is_open s && str_truthy userIdToRegister
     && negb (hasRegisteredRef s)
  then
    mkState (isConnected s) (lastMessage s) (connectionStatus s) (socketRef s)
      (reconnectCountRef s) (reconnectTimeoutRef s) (isConnectingRef s) true
      (match socketRef s with
       | Some i =>
           alter (push_frame (JSON_stringify (registrationMessage userIdToRegister)))
             i (sockets s)
       | None => sockets s
       end)
      (timers s) (log s)
  else s.

Definition connect (r : Props) (s : State) : State :=
  if negb (enabled r) || isConnectingRef s || current_is_open s then s
  else
    let '(socks, _) := close_current s in
    if url_ok r then
      mkState (isConnected s) (lastMessage s) connecting
        (Some (length socks)) (reconnectCountRef s) (reconnectTimeoutRef s)
        true (hasRegisteredRef s) (socks ++ [mkSocket CONNECTING r []])
        (timers s) (log s)
    else
      mkState (isConnected s) (lastMessage s) error None
        (reconnectCountRef s) (reconnectTimeoutRef s) false
        (hasRegisteredRef s) socks (timers s) (log s).

Definition onopen (r : Props) (s : State) : State :=
  let s1 := mkState true (lastMessage s) connected (socketRef s) 0
              (reconnectTimeoutRef s) false (hasRegisteredRef s) (sockets s)
              (timers s) (log s) in
  let s2 := match userId r with
            | Some u => if str_truthy u then sendRegistration u s1 else s1
            | None => s1
            end in
  mkState (isConnected s2) (lastMessage s2) (connectionStatus s2) (socketRef s2)
    (reconnectCountRef s2) (reconnectTimeoutRef s2) (isConnectingRef s2)
    (hasRegisteredRef s2) (sockets s2) (timers s2) (log s2 ++ [OnConnect]).

Definition onmessage (r : Props) (data : string) (s : State) : State :=
  mkState (isConnected s) (Some data) (connectionStatus s) (socketRef s)
    (reconnectCountRef s) (reconnectTimeoutRef s) (isConnectingRef s)
    (hasRegisteredRef s) (sockets s) (timers s) (log s ++ [OnMessage data]).

Definition onerror (r : Props) (s : State) : State :=
  mkState (isConnected s) (lastMessage s) error (socketRef s)
    (reconnectCountRef s) (reconnectTimeoutRef s) false
    (hasRegisteredRef s) (sockets s) (timers s) (log s ++ [OnError]).

(** [ws.onclose]: a reconnection is scheduled while the counter is below
    [reconnectAttempts].  The other branch,
    [else if (reconnectCountRef.current >= reconnectAttempts) debug.warn(..)],
    writes its warning to the debug console and changes nothing else. *)
Definition onclose (r : Props) (s : State) : State :=
  if enabled r && (reconnectCountRef s <? reconnectAttempts r) then
    mkState false (lastMessage s) disconnected (socketRef s)
      (reconnectCountRef s) (Some (length (timers s))) false false (sockets s)
      (timers s ++ [Some (mkTimer (reconnectInterval r) r)])
      (log s ++ [OnDisconnect])
  else
    mkState false (lastMessage s) disconnected (socketRef s)
      (reconnectCountRef s) (reconnectTimeoutRef s) false false (sockets s)
      (timers s) (log s ++ [OnDisconnect]).

(** The callback given to [setTimeout] by [ws.onclose]. *)
Definition reconnect (r : Props) (s : State) : State :=
  connect r
    (mkState (isConnected s) (lastMessage s) (connectionStatus s) (socketRef s)
       (reconnectCountRef s + 1) (reconnectTimeoutRef s) (isConnectingRef s)
       (hasRegisteredRef s) (sockets s) (timers s) (log s)).

(** The cleanup returned by the mount effect. *)
Definition cleanup (s : State) : State :=
  let tms := match reconnectTimeoutRef s with
             | Some t => <[t := None]> (timers s)
             | None => timers s
             end in
  let '(socks, ref) := close_current s in
  mkState (isConnected s) (lastMessage s) (connectionStatus s) ref 0 None
    false (hasRegisteredRef s) socks tms (log s).

Inductive Event : Type :=
  | Unmount
  | SockOpen (i : nat)
  | SockMessage (i : nat) (data : string)
  | SockFail (i : nat)      (* error event, then close event *)
  | SockClose (i : nat)     (* close event *)
  | TimerFire (t : nat).

Definition set_socket_state (i : nat) (st : ReadyState) (s : State) : State :=
  mkState (isConnected s) (lastMessage s) (connectionStatus s) (socketRef s)
    (reconnectCountRef s) (reconnectTimeoutRef s) (isConnectingRef s)
    (hasRegisteredRef s) (alter (set_ready st) i (sockets s)) (timers s) (log s).

Definition clear_timer (t : nat) (s : State) : State :=
  mkState (isConnected s) (lastMessage s) (connectionStatus s) (socketRef s)
    (reconnectCountRef s) (reconnectTimeoutRef s) (isConnectingRef s)
    (hasRegisteredRef s) (sockets s) (<[t := None]> (timers s)) (log s).

Definition step (s : State) (ev : Event) : State :=
  match ev with
  | Unmount => cleanup s
  | SockOpen i =>
      match sockets s !! i with
      | Some k =>
          if ready_eqb (readyState k) CONNECTING
          then onopen (owner k) (set_socket_state i OPEN s) else s
      | None => s
      end
  | SockMessage i data =>
      match sockets s !! i with
      | Some k =>
          if ready_eqb (readyState k) OPEN
          then onmessage (owner k) data s else s
      | None => s
      end
  | SockFail i =>
      match sockets s !! i with
      | Some k =>
          if ready_eqb (readyState k) CLOSED then s
          else onclose (owner k) (onerror (owner k) (set_socket_state i CLOSED s))
      | None => s
      end
  | SockClose i =>
      match sockets s !! i with
      | Some k =>
          if ready_eqb (readyState k) CLOSED then s
          else onclose (owner k) (set_socket_state i CLOSED s)
      | None => s
      end
  | TimerFire t =>
      match timers s !! t with
      | Some (Some tm) => reconnect (env tm) (clear_timer t s)
      | _ => s
      end
  end.

Definition run (evs : list Event) (s : State) : State := foldl step s evs.

(** The component after its mount effect: [if (enabled) connect()]. *)
Definition mount (r : Props) : State :=
  let s := mkState false None disconnected None 0 None false false [] [] [] in
  if enabled r then connect r s else s.

(** A failure of the connection and the firing of a reconnection timer:
    the events of a run in which no attempt succeeds. *)
Definition is_failure (ev : Event) : bool :=
  match ev with
  | SockFail _ | SockClose _ | TimerFire _ => true
  | _ => false
  end.

(** Reconnection attempts made so far: every socket but the first. *)
Definition attempts (s : State) : Z := Z.of_nat (length (sockets s)) - 1.

Definition pending_timers (s : State) : list (Timer Props) :=
  omap id (timers s).

End WithLibs.

Definition closed (k : Socket Props) : Prop := readyState k = CLOSED.

(** The shapes of the state in a run of failures under props [r]. *)
Inductive phase (r : Props) : State → Prop :=
  | phase_idle s :
      sockets s = [] → pending_timers s = [] → phase r s
  | phase_live s cs k :
      sockets s = cs ++ [k] → Forall closed cs → readyState k ≠ CLOSED →
      owner k = r → Forall (λ c, owner c = r) cs →
      pending_timers s = [] →
      reconnectCountRef s = Z.of_nat (length cs) →
      Z.of_nat (length cs) ≤ reconnectAttempts r →
      enabled r = true → url_ok r = true →
      phase r s
  | phase_waiting s :
      Forall closed (sockets s) → Forall (λ c, owner c = r) (sockets s) →
      pending_timers s = [mkTimer (reconnectInterval r) r] →
      reconnectCountRef s = Z.of_nat (length (sockets s)) - 1 →
      reconnectCountRef s < reconnectAttempts r →
      isConnectingRef s = false →
      enabled r = true → url_ok r = true →
      phase r s
  | phase_gave_up s :
      Forall closed (sockets s) → Forall (λ c, owner c = r) (sockets s) →
      pending_timers s = [] →
      Z.of_nat (length (sockets s)) - 1 = reconnectAttempts r →
      isConnected s = false → connectionStatus s = disconnected →
      phase r s.

(** In a run under any events: a pending timer is the one held by
    [reconnectTimeoutRef], no timer is pending while a socket is not closed,
    and at most one socket is not closed. *)
Record tracked (s : State) : Prop := {
  tr_timer : ∀ t tm, timers s !! t = Some (Some tm) → reconnectTimeoutRef s = Some t;
  tr_quiet : ∀ t tm i k, timers s !! t = Some (Some tm) →
                         sockets s !! i = Some k → closed k;
  tr_single : ∀ i j ki kj, sockets s !! i = Some ki → sockets s !! j = Some kj →
                           ¬ closed ki → ¬ closed kj → i = j
}.

Definition no_timer (s : State) : Prop :=
  ∀ t tm, timers s !! t ≠ Some (Some tm).

End BoundedRetry.


(** ** hooks/useDevToolsProtection.ts: the warning overlay *)

Module DevTools.

(** The nodes under [document.body]: elements with their tag, [id], inline
    style and children, and text nodes. *)
Inductive Node : Type :=
  | Element (tag id : string) (style : list (string * string))
      (children : list Node)
  | Text (data : string).

(** The first index and result of [f] along a list, counting from [k]. *)
Fixpoint find_first {A} (f : A → option (list nat)) (k : nat) (l : list A)
    : option (list nat) :=
  match l with
  | [] => None
  | x :: rest =>
      match f x with
      | Some p => Some (k :: p)
      | None => find_first f (S k) rest
      end
  end.

(** The path, below [n], of the first element in tree order whose [id] is
    [id]; the empty path is [n] itself. *)
Fixpoint find_in (id : string) (n : Node) : option (list nat) :=
  match n with
  | Text _ => None
  | Element _ i _ children =>
      if String.eqb i id then Some []
      else find_first (find_in id) 0 children
  end.

(** [document.getElementById(id)], over the children of the body (no
    element outside the body carries one of the identifiers looked up). *)
Definition getElementById (id : string) (body : list Node) : option (list nat) :=
  find_first (find_in id) 0 body.

Fixpoint node_at (p : list nat) (l : list Node) : option Node :=
  match p with
  | [] => None
  | k :: p' =>
      match l !! k with
      | Some n =>
          match p', n with
          | [], _ => Some n
          | _, Element _ _ _ children => node_at p' children
          | _, Text _ => None
          end
      | None => None
      end
  end.

(** The node at path [p] replaced by the nodes [f] makes of it. *)
Fixpoint splice (p : list nat) (f : Node → list Node) (l : list Node)
    : list Node :=
  match p with
  | [] => l
  | k :: p' =>
      match p' with
      | [] =>
          take k l ++ match l !! k with Some n => f n | None => [] end
            ++ drop (S k) l
      | _ =>
          alter (λ n, match n with
                      | Element t i s children =>
                          Element t i s (splice p' f children)
                      | Text d => Text d
                      end) k l
      end
  end.

Definition children_of (n : Node) : list Node :=
  match n with Element _ _ _ children => children | Text _ => [] end.

Definition without_children (n : Node) : list Node :=
  match n with
  | Element t i s _ => [Element t i s []]
  | Text d => [Text d]
  end.

Definition blur_style : list (string * string) :=
  [("filter", "blur(10px)"); ("pointer-events", "none"); ("position", "fixed");
   ("top", "0"); ("left", "0"); ("width", "100%"); ("height", "100%");
   ("z-index", "999998")].

Definition warning_style : list (string * string) :=
  [("position", "fixed"); ("top", "0"); ("left", "0"); ("width", "100%");
   ("height", "100%"); ("background", "rgba(0, 0, 0, 0.95)");
   ("display", "flex"); ("justify-content", "center"); ("align-items", "center");
   ("z-index", "999999"); ("color", "white"); ("font-size", "24px");
   ("font-weight", "bold"); ("text-align", "center");
   ("flex-direction", "column")].

(** The line break and indentation between the tags of the template
    literal given to [innerHTML]. *)
Fixpoint spaces (n : nat) : string :=
  match n with
  | O => EmptyString
  | S n' => String (Ascii.ascii_of_nat 32) (spaces n')
  end.

Definition indent (n : nat) : string :=
  String (Ascii.ascii_of_nat 10) (spaces n).

Definition warningDiv : Node :=
  Element "div" "devtools-warning" warning_style
    [Text (indent 12);
     Element "div" "" [] [Text "⚠️ Developer Tools Detected"];
     Text (indent 12);
     Element "div" "" [("font-size", "16px"); ("margin-top", "20px")]
       [Text "Please close Developer Tools and refresh the page to continue"];
     Text (indent 10)].

(** [detectDevTools], on the children of [document.body]. *)
Definition detectDevTools (outerWidth innerWidth outerHeight innerHeight : Z)
    (body : list Node) : list Node :=
  let threshold := 160 in
  let widthThreshold := outerWidth - innerWidth >? threshold in
  let heightThreshold := outerHeight - innerHeight >? threshold in
  if widthThreshold || heightThreshold then
    match getElementById "devtools-warning" body with
    | Some _ => body
    | None =>
        [Element "div" "devtools-blur-wrapper" blur_style body; warningDiv]
    end
  else
    let body1 :=
      match getElementById "devtools-blur-wrapper" body with
      | Some blurWrapper =>
          let moved :=
            splice blurWrapper without_children body
            ++ match node_at blurWrapper body with
               | Some n => children_of n
               | None => []
               end in
          splice blurWrapper (λ _, []) moved
      | None => body
      end in
    match getElementById "devtools-warning" body1 with
    | Some overlay => splice overlay (λ _, []) body1
    | None => body1
    end.

(** No element of the page carries one of the two identifiers. *)
Definition unmarked (body : list Node) : Prop :=
  getElementById "devtools-warning" body = None
  ∧ getElementById "devtools-blur-wrapper" body = None.

End DevTools.


(** ** App/index.tsx *)

Module App.
Section WithLibs.
Context `{L : Libs}.

(** [getUserEmailFromStorage]; [store] is [localStorage].  The [try]
    covers [JSON.parse]; [parsedUserData?.email] is [undefined] on [null]. *)
Definition getUserEmailFromStorage (store : gmap string string)
    : jsval * gmap string string :=
  let '(userData, store') := SecureStorage.getItem "userData" store in
  let parsedUserData :=
    if truthy userData then
      match JSON_parse (to_text userData) with
      | Some d => d
      | None => VNull
      end
    else VNull in
  let email :=
    match get_prop parsedUserData "email" with
    | Ok v => v
    | Throw _ => VUndef
    end in
  (if truthy email then email else VNull, store').

End WithLibs.
End App.


(** ** nlu/custom-pattern-entities.ts and the entity service *)

Module EntityService.

(** [sdk.NLU.EntityDefinition]; the optional fields are [None] when
    absent. *)
Record EntityDefinition : Type := mkEntity {
  e_id : string;
  e_name : string;
  e_type : string;
  e_occurrences : option (list (string * list string));
  e_sensitive : option bool;
  e_fuzzy : option Q;
  e_pattern : option string;
  e_matchCase : option bool;
  e_examples : option (list string)
}.

Definition pattern_entity (name pattern : string) (examples : list string)
    : EntityDefinition :=
  mkEntity name name "pattern" (Some []) (Some false) (Some (8 # 10)%Q)
    (Some pattern) (Some false) (Some examples).

Definition CUSTOM_PATTERN_ENTITIES : list EntityDefinition :=
  [ pattern_entity "custom.email"
      "^[a-zA-Z0-9._%+-]+@[a-zA-Z0-9.-]+\.[a-zA-Z]{2,}$"
      ["user@example.com"; "john.doe@company.co.uk"; "contact_123@domain.org"];
    pattern_entity "custom.phone"
      "^(?:\+?\d{1,3})?[-.\s]?\(?\d{1,4}\)?[-.\s]?\d{1,4}[-.\s]?\d{1,4}[-.\s]?\d{1,9}$"
      ["+1-234-567-8900"; "(123) 456-7890"; "123.456.7890"; "+44 20 7123 4567";
       "9876543210"];
    pattern_entity "custom.url"
      "^https?:\/\/(www\.)?[-a-zA-Z0-9@:%._\+~#=]{1,256}\.[a-zA-Z0-9()]{1,6}\b([-a-zA-Z0-9()@:%_\+.~#?&//=]*)$"
      ["https://www.example.com"; "http://example.org/path";
       "https://subdomain.example.com/path?query=1"];
    pattern_entity "custom.number" "^-?\d+(\.\d+)?$"
      ["123"; "-456"; "78.90"; "-12.34"];
    pattern_entity "custom.date"
      "^(?:\d{4}-\d{2}-\d{2}|\d{2}[/\-]\d{2}[/\-]\d{4})$"
      ["2025-12-22"; "22/12/2025"; "12-22-2025"];
    pattern_entity "custom.time"
      "^(?:[01]?\d|2[0-3]):[0-5]\d(?::[0-5]\d)?(?:\s?[AaPp][Mm])?$"
      ["14:30"; "09:15:30"; "3:45 PM"; "11:00 am"];
    pattern_entity "custom.zipcode" "^\d{5}(?:-\d{4})?$"
      ["12345"; "12345-6789"];
    pattern_entity "custom.percentage" "^-?\d+(\.\d+)?\s?%$"
      ["25%"; "99.9%"; "-5.5 %"] ].

(** [CUSTOM_PATTERN_ENTITIES.find(entity => entity.name === name)] *)
Definition getCustomPatternEntity (name : string) : option EntityDefinition :=
  List.find (λ entity, String.eqb (e_name entity) name) CUSTOM_PATTERN_ENTITIES.

Definition getCustomPatternEntityNames : list string :=
  e_name <$> CUSTOM_PATTERN_ENTITIES.

(** [self.findIndex(p)]: [None] stands for [-1]. *)
Fixpoint findIndex {A} (p : A → bool) (l : list A) : option nat :=
  match l with
  | [] => None
  | x :: rest => if p x then Some 0%nat else S <$> findIndex p rest
  end.

(** [l.filter((x, index) => p x index)], the indices starting at [i]. *)
Fixpoint filter_from {A} (p : A → nat → bool) (i : nat) (l : list A) : list A :=
  match l with
  | [] => []
  | x :: rest =>
      if p x i then x :: filter_from p (S i) rest else filter_from p (S i) rest
  end.

Section WithServices.
(** [getEntityId] and [sanitizeFileName] are imported from modules outside
    the sources at hand; [serialize] is [JSON.stringify(entity, undefined, 2)]
    and [readObject] what [readFileAsObject] makes of a file's content. *)
Variable getEntityId : string → string.
Variable sanitizeFileName : string → string.
Variable serialize : EntityDefinition → string.
Variable readObject : string → option EntityDefinition.

Definition getSystemEntities : list EntityDefinition :=
  [mkEntity (getEntityId "any") "any" "system" None None None None None None].

(** [listEntities], given what [getCustomEntities] resolved to. *)
Definition listEntities (customEntities : list EntityDefinition)
    : list EntityDefinition :=
  let allEntities := getSystemEntities ++ customEntities in
  filter_from
    (λ entity index,
       bool_decide (Some index
                    = findIndex (λ e, String.eqb (e_name e) (e_name entity))
                        allEntities))
    0 allEntities.

(** The bot's [./entities] directory in the ghost, [g] below, maps file
    names to contents: [upsertFile] writes, [deleteFile] removes,
    [fileExists] looks up. *)
Inductive CacheOp : Type := DeleteCache (entityName : string).

Definition file_of (entityName : string) : string := entityName +:+ ".json".

Definition entityExists (g : gmap string string) (entityName : string) : bool :=
  bool_decide (is_Some (g !! file_of entityName)).

Definition getEntity (g : gmap string string) (entityName : string) : result EntityDefinition :=
  let entityName := sanitizeFileName entityName in
  if negb (entityExists g entityName) then Throw (Error "Entity does not exist")
  else
    match g !! file_of entityName with
    | Some content =>
        match readObject content with
        | Some entity => Ok entity
        | None => Throw SyntaxError
        end
    | None => Throw (Error "Entity does not exist")
    end.

Definition deleteEntity (g : gmap string string) (entityName : string)
    : result (list CacheOp) * gmap string string :=
  let nameSanitized := sanitizeFileName entityName in
  if negb (entityExists g nameSanitized)
  then (Throw (Error "Entity does not exist"), g)
  else (Ok [DeleteCache entityName], delete (file_of nameSanitized) g).

Definition saveEntity (g : gmap string string) (entity : EntityDefinition) : gmap string string :=
  let nameSanitized := sanitizeFileName (e_name entity) in
  <[file_of nameSanitized := serialize entity]> g.

(** The loop of [initializeCustomPatternEntities]; the existence test uses
    the entity's name as it is, the write its sanitized name. *)
Definition initializeCustomPatternEntities (g : gmap string string) : gmap string string :=
  foldl (λ g entity, if entityExists g (e_name entity) then g
                     else saveEntity g entity)
    g CUSTOM_PATTERN_ENTITIES.

End WithServices.

(** The entities of [l] whose name is neither in [seen] nor carried by an
    earlier entity of [l]. *)
Fixpoint first_of_each_name (seen : list string) (l : list EntityDefinition)
    : list EntityDefinition :=
  match l with
  | [] => []
  | x :: rest =>
      if decide (e_name x ∈ seen) then first_of_each_name (seen ++ [e_name x]) rest
      else x :: first_of_each_name (seen ++ [e_name x]) rest
  end.
End EntityService.

(** ** The training status button *)

Module TrainingStatus.

(** [NLU.TrainingSession] *)
Record TrainingSession : Type := mkSession {
  language : string;
  progress : Q;
  status : string;
  key : string
}.

Inductive Action : Type :=
  | setAllTrainSessions (data : gmap string TrainingSession)
  | setTrainSession (trainSession : TrainingSession)
  | other_action.

(** [trainStatusReducer]; [None] is the [undefined] that the function
    returns for any other action. *)
Definition trainStatusReducer (state : gmap string TrainingSession)
    (action : Action) : option (gmap string TrainingSession) :=
  match action with
  | setAllTrainSessions data => Some data
  | setTrainSession trainSession =>
      Some (<[language trainSession := trainSession]> state)
  | other_action => None
  end.

Definition makeErrorTrainSession (language : string) : TrainingSession :=
  mkSession language 0 "errored" "no-key".

(** [fetchTrainingSessionForLang]; [response lang] is the body of the
    reply, [None] when the request fails. *)
Definition fetchTrainingSessionForLang (response : string → option TrainingSession)
    (language : string) : TrainingSession :=
  match response language with
  | Some data => data
  | None => makeErrorTrainSession language
  end.

(** The batch built by the effect on [languages], and the state after its
    dispatch. *)
Definition trainSessionBatchUpdate (sessions : list TrainingSession)
    : gmap string TrainingSession :=
  foldl (λ batch session, <[language session := session]> batch) ∅ sessions.

Definition load (response : string → option TrainingSession)
    (languages : list string) (state : gmap string TrainingSession)
    : option (gmap string TrainingSession) :=
  trainStatusReducer state
    (setAllTrainSessions
       (trainSessionBatchUpdate
          (fetchTrainingSessionForLang response <$> languages))).

(** [getTrainingStatus]; [languages] is [None] when the prop is missing. *)
Definition getTrainingStatus (languages : option (list string))
    (trainSessionsState : gmap string TrainingSession) : option string :=
  match languages with
  | None | Some [] => None
  | Some languages =>
      let sessions := omap (λ lang, trainSessionsState !! lang) languages in
      if (length sessions =? 0)%nat then None
      else
        let hasTraining :=
          existsb (λ session, String.eqb (status session) "training") sessions in
        let needsTraining :=
          existsb (λ session, String.eqb (status session) "needs-training")
            sessions in
        if hasTraining then Some "training"
        else if needsTraining then Some "needs-training"
        else Some "done"
  end.

End TrainingStatus.


(** ** The page: the wrapper under [App], driven by its tab manager

    [App] renders the wrapper once ([shouldComponentUpdate] returns
    [false]), so the props of the wrapper are those of that render for the
    life of the page, [userId] included.  The wrapper renders again only
    when [useTabManager] sets its state: the hook starts with
    [useState(false)], creates the tab manager in an effect and copies
    [tabManager.isActiveTab()] into the state, at once and then every
    250 ms. *)

Module Session.
Import Browser.

(** The callbacks of the tab manager.  In the runs below any of them may
    run at any time, which includes the runs of a real page. *)
Inductive Election : Type :=
  | ChannelMessage (now : Z) (m : TabManager.Message)
  | DecisionTimer (now : Z)
  | HeartbeatTimer (now : Z)
  | RecheckTimer (now : Z)
  | StorageEvent (now : Z) (key : string) (newValue : option TabManager.Stored)
  | VisibilityChange (hidden : bool) (now : Z)
  | BeforeUnload.

(** The manager and the leader record of [localStorage] after a callback;
    a storage event tells of a write of another tab, and an exception of
    the re-check timer leaves both as they are. *)
Definition elect (op : Election) (t : TabManager.Tab)
    (ls : option TabManager.Stored) : TabManager.Tab * option TabManager.Stored :=
  match op with
  | ChannelMessage now m => ((TabManager.onmessage now t m).1, ls)
  | DecisionTimer now => (TabManager.ping_timeout now t ls).1
  | HeartbeatTimer now => (t, (TabManager.heartbeat_tick now t ls).1)
  | RecheckTimer now =>
      match TabManager.recheck now t ls with
      | Ok r => r.1
      | Throw _ => (t, ls)
      end
  | StorageEvent now key newValue =>
      ((TabManager.handleStorageEvent now t key newValue).1,
       if String.eqb key TabManager.TAB_ID_KEY then newValue else ls)
  | VisibilityChange hidden now =>
      (t, (TabManager.handleVisibilityChange hidden now t ls).1)
  | BeforeUnload => (TabManager.cleanup t ls).1
  end.

Record Page : Type := mkPage {
  manager : TabManager.Tab;
  leaderRecord : option TabManager.Stored;
  wrapper : WebSocketWrapper.State
}.

Inductive Event : Type :=
  | Elect (op : Election)
  | CheckStatus          (* checkStatus(): setActiveTab(tabManager.isActiveTab()) *)
  | Unmount              (* the cleanups of the hook and of the wrapper *)
  | SockOpen (i : nat) (salt : string)
  | SockMessage (i : nat) (data : string) (salt : string)
  | SockFail (i : nat) (salt : string)
  | SockClose (i : nat)
  | TimerFire (t : nat).

(** The render of the wrapper with the props [props] of [App] in which
    [useTabManager()] returns [active]. *)
Definition render (props : WebSocketWrapper.Render) (active : bool)
    : WebSocketWrapper.Render :=
  WebSocketWrapper.mkRender (WebSocketWrapper.url_ok props)
    (WebSocketWrapper.reconnectInterval props)
    (WebSocketWrapper.reconnectAttempts props) (WebSocketWrapper.enabled props)
    (WebSocketWrapper.userId props) active.

(** The props that [App] passes; [url_ok] tells whether the configured URL
    is accepted, [userId] is what [getUserEmailFromStorage] returned. *)
Definition app_props (url_ok : bool) (userId : option string)
    : WebSocketWrapper.Render :=
  WebSocketWrapper.mkRender url_ok 3000 5 true userId false.

(** The frames that the wrapper owes to an open connection: the
    registration of the identity when there is one. *)
Definition registration `{L : Libs} (props : WebSocketWrapper.Render)
    : list string :=
  match WebSocketWrapper.userId props with
  | Some u =>
      if str_truthy u
      then [JSON_stringify (WebSocketWrapper.registrationMessage u)]
      else []
  | None => []
  end.

Section WithLibs.
Context `{L : Libs}.

Definition on_wrapper (ev : WebSocketWrapper.Event) (p : Page) : Page :=
  mkPage (manager p) (leaderRecord p) (WebSocketWrapper.step (wrapper p) ev).

Definition step (props : WebSocketWrapper.Render) (p : Page) (ev : Event) : Page :=
  match ev with
  | Elect op =>
      let '(t, ls) := elect op (manager p) (leaderRecord p) in
      mkPage t ls (wrapper p)
  | CheckStatus =>
      on_wrapper
        (WebSocketWrapper.Rerender
           (render props (TabManager.isActive (manager p)))) p
  | Unmount =>
      let '(t, ls) := elect BeforeUnload (manager p) (leaderRecord p) in
      mkPage t ls (WebSocketWrapper.step (wrapper p) WebSocketWrapper.Unmount)
  | SockOpen i salt => on_wrapper (WebSocketWrapper.SockOpen i salt) p
  | SockMessage i data salt => on_wrapper (WebSocketWrapper.SockMessage i data salt) p
  | SockFail i salt => on_wrapper (WebSocketWrapper.SockFail i salt) p
  | SockClose i => on_wrapper (WebSocketWrapper.SockClose i) p
  | TimerFire t => on_wrapper (WebSocketWrapper.TimerFire t) p
  end.

Definition run (props : WebSocketWrapper.Render) (evs : list Event) (p : Page)
    : Page :=
  foldl (step props) p evs.

(** The page after the first render of the wrapper and its effects: the
    hook has created the tab manager, whose constructor ran [initialize],
    and the wrapper has run its own effects with [isActiveTab] false. *)
Definition start (props : WebSocketWrapper.Render) (bc_defined ctor_ok : bool)
    (now : Z) (id : TabManager.TabId) (ls : option TabManager.Stored)
    (blocked maintenance : jsval) (store : gmap string string) : Page :=
  let '(t, ls', _, _) :=
    TabManager.initialize bc_defined ctor_ok now (TabManager.new_tab id) ls in
  mkPage t ls'
    (WebSocketWrapper.mount (render props false) blocked maintenance store).

End WithLibs.

(** Nothing was ever connected or scheduled. *)
Definition quiet (s : WebSocketWrapper.State) : Prop :=
  WebSocketWrapper.sockets s = [] ∧ WebSocketWrapper.timers s = []
  ∧ WebSocketWrapper.socketRef s = None
  ∧ WebSocketWrapper.reconnectTimeoutRef s = None
  ∧ WebSocketWrapper.hasRegisteredRef s = false
  ∧ WebSocketWrapper.isConnectingRef s = false.

(** The wrapper follows the manager: a render with [isActiveTab] true was
    made while the manager was active, and as long as the manager is not
    active, or no such render was made, the wrapper is quiet. *)
Record led (props : WebSocketWrapper.Render) (p : Page) : Prop := {
  le_render : ∀ r, WebSocketWrapper.rendered (wrapper p) = Some r →
                ∃ b, r = render props b
                     ∧ (b = true → TabManager.isActive (manager p) = true);
  le_quiet : TabManager.isActive (manager p) = false
             ∨ WebSocketWrapper.rendered (wrapper p) = Some (render props false) →
             quiet (wrapper p)
}.

(** Connections come one after the other: at most one socket is not
    closed, a reconnection timer is pending only while all are closed, and
    the registered flag is set only while a socket that has opened has not
    yet seen its close event. *)
Record serial `{L : Libs} (props : WebSocketWrapper.Render)
    (s : WebSocketWrapper.State) : Prop := {
  sr_owner : ∀ i k, WebSocketWrapper.sockets s !! i = Some k →
               owner k = render props true;
  sr_env : ∀ t tm, WebSocketWrapper.timers s !! t = Some (Some tm) →
             env tm = render props true;
  sr_quiet : ∀ t tm i k, WebSocketWrapper.timers s !! t = Some (Some tm) →
               WebSocketWrapper.sockets s !! i = Some k → readyState k = CLOSED;
  sr_single : ∀ i j ki kj, WebSocketWrapper.sockets s !! i = Some ki →
                WebSocketWrapper.sockets s !! j = Some kj →
                readyState ki ≠ CLOSED → readyState kj ≠ CLOSED → i = j;
  sr_timer : ∀ t t' tm tm', WebSocketWrapper.timers s !! t = Some (Some tm) →
               WebSocketWrapper.timers s !! t' = Some (Some tm') → t = t';
  sr_flag : WebSocketWrapper.hasRegisteredRef s = true →
              ∃ i k, WebSocketWrapper.sockets s !! i = Some k
                     ∧ (readyState k = OPEN ∨ readyState k = CLOSING);
  sr_sent : ∀ i k, WebSocketWrapper.sockets s !! i = Some k →
              readyState k = OPEN → sent k = registration props;
  sr_open : ∀ i k, WebSocketWrapper.sockets s !! i = Some k →
              readyState k = OPEN →
              WebSocketWrapper.hasRegisteredRef s
              = bool_decide (registration props ≠ [])
}.

End Session.


(** ** Concrete scenarios

    The renders of a tab as the App component mounts the wrapper
    ([reconnectAttempts = 5], [reconnectInterval = 3000]): [useTabManager()]
    is [false] in the first render and becomes [true] once the tab manager
    has activated the tab. *)

Module Scenario.
Import Browser WebSocketWrapper.

Definition follower : Render := mkRender true 3000 5 true (Some "alice") false.
Definition leader : Render := mkRender true 3000 5 true (Some "alice") true.
Definition follower_anonymous : Render := mkRender true 3000 5 true None false.
Definition leader_anonymous : Render := mkRender true 3000 5 true None true.

Definition mounted : State := mount follower (VBool false) (VBool false) ∅.
Definition mounted_anonymous : State :=
  mount follower_anonymous (VBool false) (VBool false) ∅.

(** The tab became the active one, connected and registered. *)
Definition open_session : State :=
  run (L := Toy.libs) [Rerender leader; SockOpen 0 "salt"] mounted.

(** [n] rounds of: the current socket fails, its reconnection timer
    fires. *)
Definition fail_cycles (n : nat) : list Event :=
  flat_map (λ i, [SockFail i "salt"; TimerFire i]) (seq 0 n).

(** Props of the bounded variant with a ceiling of two attempts. *)
Definition two_attempts : BoundedRetry.Props :=
  BoundedRetry.mkProps true 3000 2 true (Some "alice").

End Scenario.

(** * Properties *)

(** ** The toy libraries satisfy the laws *)

Lemma toy_drop_last_quote (v : string) : Toy.drop_last (v +:+ Toy.quote) = v.
Proof.
  induction v as [|c v IH]; [reflexivity|].
  change (String c v +:+ Toy.quote) with (String c (v +:+ Toy.quote)).
  cbn [Toy.drop_last]. rewrite IH.
  destruct v; reflexivity.
Qed.

Lemma toy_laws : LibsLaws Toy.libs.
Proof.
  split.
  - intros v. cbn [JSON_parse JSON_stringify Toy.libs]. unfold Toy.parse.
    change (Toy.stringify (VStr v))
      with (String (Ascii.ascii_of_nat 34) (v +:+ Toy.quote)).
    cbv beta iota. rewrite Ascii.eqb_refl. by rewrite toy_drop_last_quote.
  - intros v. cbn. discriminate.
  - intros salt plain key. by eexists.
  - intros salt plain key c [= <-]. discriminate.
  - intros salt plain key c [= <-]. cbn. unfold Toy.decrypt.
    by rewrite Ascii.eqb_refl.
Qed.

(** ** Encrypted storage *)

Section SecureStorageFacts.
Context `{L : Libs}.

Lemma str_truthy_ne (s : string) : s ≠ "" → str_truthy s = true.
Proof.
  intros H. unfold str_truthy. destruct (String.eqb_spec s ""); [done|reflexivity].
Qed.

(** With lawful libraries [setItem] stores a cipher text that decrypts to
    the value. *)
Lemma setItem_stores (HL : LibsLaws L) (salt key value : string)
    (store : gmap string string) :
  ∃ c, SecureStorage.setItem salt key value store = (Ok (), <[key := c]> store)
       ∧ str_truthy c = true
       ∧ SecureStorage.decryptData c None = Ok (VStr value).
Proof.
  unfold SecureStorage.setItem, SecureStorage.encryptData.
  destruct (aes_encrypt_total salt (JSON_stringify (VStr value))
              (SecureStorage.pick_key None)) as [c Hc].
  rewrite Hc. exists c.
  assert (Hne : str_truthy c = true)
    by (apply str_truthy_ne; eapply aes_cipher_nonempty; eauto).
  rewrite Hne. split; [done|]. split; [done|].
  unfold SecureStorage.decryptData. rewrite Hne. cbn [negb].
  rewrite (aes_roundtrip _ _ _ _ Hc).
  rewrite (str_truthy_ne _ (json_string_nonempty value)). cbn [negb].
  by rewrite json_string_roundtrip.
Qed.

Lemma getItem_after_setItem (HL : LibsLaws L) (salt key value : string)
    (store : gmap string string) :
  let store' := (SecureStorage.setItem salt key value store).2 in
  (SecureStorage.setItem salt key value store).1 = Ok ()
  ∧ SecureStorage.getItem key store' = (VStr value, store').
Proof.
  destruct (setItem_stores HL salt key value store) as (c & -> & Hc & Hd).
  cbn. split; [done|].
  unfold SecureStorage.getItem. rewrite lookup_insert_eq, Hc. cbn [negb].
  by rewrite Hd.
Qed.

Lemma getItem_purges (key c : string) (e : exn) (store : gmap string string) :
  store !! key = Some c →
  SecureStorage.decryptData c None = Throw e →
  SecureStorage.getItem key store = (VNull, delete key store).
Proof.
  intros Hk Hd. unfold SecureStorage.getItem. rewrite Hk.
  destruct (str_truthy c) eqn:Hc; cbn [negb].
  - by rewrite Hd.
  - unfold SecureStorage.decryptData in Hd. rewrite Hc in Hd. discriminate.
Qed.

End SecureStorageFacts.

(** C9.  Writing a string [v] under a key [k] with [setItem] and reading the
    key back with [getItem] gives [v] (the libraries being lawful: the
    cipher and [JSON] round-trip); and for an entry on which decryption
    fails, [getItem] gives [null] and removes the entry, and no error
    reaches the caller. *)
Theorem secure_storage_roundtrip_and_purge `{L : Libs} (HL : LibsLaws L)
    (salt k v : string) (store : gmap string string) :
  ((SecureStorage.setItem salt k v store).1 = Ok ()
   ∧ SecureStorage.getItem k (SecureStorage.setItem salt k v store).2
     = (VStr v, (SecureStorage.setItem salt k v store).2))
  ∧ (∀ k' c e, store !! k' = Some c →
       SecureStorage.decryptData c None = Throw e →
       SecureStorage.getItem k' store = (VNull, delete k' store)).
Proof.
  split.
  - apply (getItem_after_setItem HL).
  - intros k' c e. apply getItem_purges.
Qed.

Lemma secure_storage_roundtrip_and_purge_witness :
  ((SecureStorage.setItem (L := Toy.libs) "salt" "accountBlocked"
      "{isBlocked:true}" {["maintenance" := "corrupted"]}).1 = Ok ()
   ∧ (SecureStorage.getItem (L := Toy.libs) "accountBlocked"
        (SecureStorage.setItem (L := Toy.libs) "salt" "accountBlocked"
           "{isBlocked:true}" {["maintenance" := "corrupted"]}).2).1
     = VStr "{isBlocked:true}")
  ∧ SecureStorage.getItem (L := Toy.libs) "maintenance"
      {["maintenance" := "corrupted"]}
    = (VNull, delete "maintenance" {["maintenance" := "corrupted"]}).
Proof.
  destruct (secure_storage_roundtrip_and_purge (L := Toy.libs) toy_laws
              "salt" "accountBlocked" "{isBlocked:true}"
              {["maintenance" := "corrupted"]}) as [[H1 H2] H3].
  split; [split|].
  - exact H1.
  - rewrite H2. reflexivity.
  - apply (H3 "maintenance" "corrupted"
             (Error "Failed to decrypt data - data may be corrupted")).
    + reflexivity.
    + reflexivity.
Defined.

(** ** Inbound frames and local connection events of the wrapper *)

Section WrapperFacts.
Import Browser WebSocketWrapper.
Context `{L : Libs}.

Lemma onmessage_unknown_type (r : Render) (data salt : string) (s : State)
    (d ty : jsval) :
  JSON_parse data = Some d →
  get_prop d "type" = Ok ty →
  recognized ty = false →
  onmessage r data salt s
  = (Ok (), emit Logout (emit (Alert (UnknownTypeNotice ty)) s)).
Proof.
  intros Hp Ht Hr. unfold recognized in Hr.
  repeat (apply orb_false_elim in Hr as [Hr ?]).
  unfold onmessage, mbind, M_bind, mret, M_ret, lift, modify, onLogout.
  rewrite Hp, Ht. by repeat match goal with H : is_str _ _ = false |- _ =>
                                    rewrite H; clear H end.
Qed.

Lemma onmessage_parse_failure (r : Render) (data salt : string) (s : State) :
  JSON_parse data = None →
  onmessage r data salt s = (Throw SyntaxError, s).
Proof.
  intros Hp. unfold onmessage, mbind, M_bind, throw. by rewrite Hp.
Qed.

(** The [connect] of a render in which the tab is not the active one does
    nothing. *)
Lemma connect_of_follower_render (r : Render) (s : State) :
  isActiveTab r = false → connect r s = (Ok (), s).
Proof. intros Hr. unfold connect. by rewrite Hr. Qed.

(** Once the flag is set, [sendRegistration] sends nothing. *)
Lemma sendRegistration_guarded (u : string) (s : State) :
  hasRegisteredRef s = true → sendRegistration u s = (Ok (), s).
Proof.
  intros Hr. unfold sendRegistration. rewrite Hr.
  by rewrite andb_false_r.
Qed.

Lemma onMaintenanceUpdate_ok (HL : LibsLaws L) (salt : string) (status : jsval)
    (s : State) :
  ∃ c, onMaintenanceUpdate salt status s
       = (Ok (), set_sessionStorage (<["maintenance" := c]> (sessionStorage s))
                   (set_showMaintenanceScreen status s))
       ∧ str_truthy c = true
       ∧ SecureStorage.decryptData c None
         = Ok (VStr (JSON_stringify (VObj [("status", status)]))).
Proof.
  destruct (setItem_stores HL salt "maintenance"
              (JSON_stringify (VObj [("status", status)])) (sessionStorage s))
    as (c & Hset & Hc & Hd).
  exists c. split; [|done].
  unfold onMaintenanceUpdate, mbind, M_bind, modify, storage_setItem.
  cbn [sessionStorage set_showMaintenanceScreen]. by rewrite Hset.
Qed.

Lemma getItem_inserted (key c : string) (v : jsval) (store : gmap string string) :
  str_truthy c = true →
  SecureStorage.decryptData c None = Ok v →
  (SecureStorage.getItem key (<[key := c]> store)).1 = v.
Proof.
  intros Hc Hd. unfold SecureStorage.getItem.
  rewrite lookup_insert_eq, Hc. cbn [negb]. by rewrite Hd.
Qed.

Lemma run_onerror (HL : LibsLaws L) (r : Render) (salt : string) (s : State) :
  ∃ c, run_handler (onerror r salt) s
       = set_sessionStorage (<["maintenance" := c]> (sessionStorage s))
           (set_showMaintenanceScreen (VBool true) (set_isConnectingRef false s))
       ∧ str_truthy c = true
       ∧ SecureStorage.decryptData c None
         = Ok (VStr (JSON_stringify (VObj [("status", VBool true)]))).
Proof.
  destruct (onMaintenanceUpdate_ok HL salt (VBool true)
              (set_isConnectingRef false s)) as (c & Hm & Hc & Hd).
  exists c. split; [|done].
  unfold run_handler, onerror, mbind, M_bind, modify. by rewrite Hm.
Qed.

Lemma run_onclose (r : Render) (s : State) :
  run_handler (onclose r) s
  = set_timeout 1000 r
      (set_hasRegisteredRef false
         (set_isConnectingRef false (set_isConnected false s))).
Proof. reflexivity. Qed.

Lemma onopen_rest_keeps_flag (r : Render) (s : State) :
  (onopen_rest r s).1 = Ok ()
  ∧ showMaintenanceScreen (onopen_rest r s).2 = showMaintenanceScreen s
  ∧ sessionStorage (onopen_rest r s).2 = sessionStorage s.
Proof.
  unfold onopen_rest, mbind, M_bind, modify, when, sendRegistration, mret, M_ret.
  destruct (userId r) as [u|]; [destruct (str_truthy u)|]; cbn;
    repeat match goal with
           | |- context [if ?b then _ else _] => destruct b; cbn
           end; try done.
  unfold send_current. cbn. by destruct (socketRef s).
Qed.

Lemma run_onopen (HL : LibsLaws L) (r : Render) (salt : string) (s : State) :
  ∃ c, showMaintenanceScreen (run_handler (onopen r salt) s) = VBool false
       ∧ sessionStorage (run_handler (onopen r salt) s)
         = <["maintenance" := c]> (sessionStorage s)
       ∧ str_truthy c = true
       ∧ SecureStorage.decryptData c None
         = Ok (VStr (JSON_stringify (VObj [("status", VBool false)]))).
Proof.
  destruct (onMaintenanceUpdate_ok HL salt (VBool false) s) as (c & Hm & Hc & Hd).
  exists c.
  assert (Hrun : run_handler (onopen r salt) s
                 = (onopen_rest r
                      (set_sessionStorage (<["maintenance" := c]> (sessionStorage s))
                         (set_showMaintenanceScreen (VBool false) s))).2).
  { unfold run_handler, onopen. unfold mbind at 1, M_bind at 1. rewrite Hm.
    fold (onopen_rest r).
    destruct (onopen_rest_keeps_flag r
                (set_sessionStorage (<["maintenance" := c]> (sessionStorage s))
                   (set_showMaintenanceScreen (VBool false) s))) as (H1 & _).
    destruct (onopen_rest r _) as [[[]|e] s']; [done|discriminate]. }
  rewrite Hrun.
  destruct (onopen_rest_keeps_flag r
              (set_sessionStorage (<["maintenance" := c]> (sessionStorage s))
                 (set_showMaintenanceScreen (VBool false) s))) as (_ & H2 & H3).
  rewrite H2, H3. done.
Qed.

End WrapperFacts.

Section WrapperClaims.
Import Browser WebSocketWrapper.
Context `{L : Libs}.

(** The default branch of the dispatch.  A frame that arrives on the open
    socket, parses to a value whose [type] can be read, and whose [type] is
    none of the six recognised values makes the handler surface a notice
    and call the logout action: the log grows by exactly the alert and the
    logout, and nothing else changes. *)
Lemma unknown_type_alerts_and_logs_out (s : State) (i : nat)
    (k : Socket Render) (data salt : string) (d ty : jsval) :
  sockets s !! i = Some k →
  readyState k = OPEN →
  JSON_parse data = Some d →
  get_prop d "type" = Ok ty →
  recognized ty = false →
  log (step s (SockMessage i data salt))
  = log s ++ [Alert (UnknownTypeNotice ty); Logout]
  ∧ step s (SockMessage i data salt)
    = mkState (isConnected s) (showBlockedScreen s) (showMaintenanceScreen s)
        (socketRef s) (reconnectCountRef s) (reconnectTimeoutRef s)
        (isConnectingRef s) (hasRegisteredRef s) (sockets s) (timers s)
        (sessionStorage s) (rendered s)
        (log s ++ [Alert (UnknownTypeNotice ty); Logout]).
Proof.
  intros Hk Hopen Hp Ht Hr. cbn [step]. rewrite Hk, Hopen. cbn [ready_eqb].
  unfold run_handler.
  rewrite (onmessage_unknown_type _ _ _ _ d ty Hp Ht Hr).
  unfold emit. cbn. by rewrite <- app_assoc.
Qed.

(** The frame [null] is valid JSON, and reading its [type] throws: the
    [TypeError] leaves the handler before the dispatch is reached. *)
Lemma onmessage_null_frame (r : Render) (data salt : string) (s : State) :
  JSON_parse data = Some VNull →
  onmessage r data salt s = (Throw TypeError, s).
Proof.
  intros Hp. unfold onmessage, mbind, M_bind, mret, M_ret, lift.
  by rewrite Hp.
Qed.

(** What holds of malformed input: a storage-change notification whose
    value does not parse is logged and dropped by the election handler, the
    tab being unchanged; at start-up in fallback mode an unparsable record
    is logged and then treated as an absent one; a connection frame that
    does not parse changes no state, but the [SyntaxError] leaves
    [ws.onmessage]. *)
Lemma malformed_messages_change_no_state :
  (∀ now t,
     TabManager.handleStorageEvent now t TabManager.TAB_ID_KEY
       (Some TabManager.Unparsable)
     = (t, [TabManager.ConsoleError "Error handling storage event:"]))
  ∧ (∀ now t,
       TabManager.isActive
         (TabManager.initializeLocalStorage now t
            (Some TabManager.Unparsable)).1.1 = true
       ∧ (TabManager.initializeLocalStorage now t
            (Some TabManager.Unparsable)).2
         = TabManager.ConsoleError "Error parsing tab data:"
           :: (TabManager.initializeLocalStorage now t None).2)
  ∧ (∀ r data salt s,
       JSON_parse data = None →
       onmessage r data salt s = (Throw SyntaxError, s))
  ∧ (∀ s i k data salt,
       sockets s !! i = Some k → readyState k = OPEN →
       JSON_parse data = None →
       step s (SockMessage i data salt) = emit (Uncaught SyntaxError) s).
Proof.
  split; [|split; [|split]].
  - intros now t. reflexivity.
  - intros now t.
    unfold TabManager.initializeLocalStorage, TabManager.activateTab,
      TabManager.updateHeartbeat.
    cbn [TabManager.useLocalStorage TabManager.channel TabManager.isActive].
    by destruct (TabManager.useLocalStorage t), (TabManager.channel t).
  - intros r data salt s. apply onmessage_parse_failure.
  - intros s i k data salt Hk Hopen Hp. cbn [step]. rewrite Hk, Hopen.
    cbn [ready_eqb]. unfold run_handler. by rewrite onmessage_parse_failure.
Qed.

(** C10.  Without any inbound frame, the error event of a socket sets the
    maintenance flag to [true] and the open event resets it to [false], on
    screen and in the encrypted session storage (the libraries being
    lawful). *)
Theorem maintenance_flag_follows_connection_events (HL : LibsLaws L)
    (s : State) (i : nat) (k : Socket Render) (salt : string) :
  sockets s !! i = Some k →
  (readyState k ≠ CLOSED →
   showMaintenanceScreen (step s (SockFail i salt)) = VBool true
   ∧ (SecureStorage.getItem "maintenance"
        (sessionStorage (step s (SockFail i salt)))).1
     = VStr (JSON_stringify (VObj [("status", VBool true)])))
  ∧ (readyState k = CONNECTING →
     showMaintenanceScreen (step s (SockOpen i salt)) = VBool false
     ∧ (SecureStorage.getItem "maintenance"
          (sessionStorage (step s (SockOpen i salt)))).1
       = VStr (JSON_stringify (VObj [("status", VBool false)]))).
Proof.
  intros Hk. split.
  - intros Hst. cbn [step]. rewrite Hk.
    replace (ready_eqb (readyState k) CLOSED) with false
      by (by destruct (readyState k)).
    destruct (run_onerror HL (owner k) salt (set_socket_state i CLOSED s))
      as (c & -> & Hc & Hd).
    rewrite run_onclose. split; [reflexivity|].
    cbn [sessionStorage set_sessionStorage set_timeout set_timers
         set_hasRegisteredRef set_isConnectingRef set_isConnected].
    by apply getItem_inserted.
  - intros Hst. cbn [step]. rewrite Hk, Hst. cbn [ready_eqb].
    destruct (run_onopen HL (owner k) salt (set_socket_state i OPEN s))
      as (c & -> & -> & Hc & Hd).
    split; [reflexivity|]. by apply getItem_inserted.
Qed.

End WrapperClaims.

(** C7.  The frame [null] has none of the six recognised types, and it
    is dropped without a notice and without the logout: on the open socket
    of a registered session the handler ends in a [TypeError] that leaves
    it, the log grows by that uncaught exception alone, and the rest of the
    state is as before.  A frame of the unknown type [PING] on the same
    session takes the default branch: a notice, then the logout.  The
    exception does not depend on the session or on the library: whenever
    [JSON.parse] returns [null], the handler throws and changes nothing. *)
Theorem null_frame_escapes_dispatch :
  let s := Scenario.open_session in
  let s' := WebSocketWrapper.step (L := Toy.libs) s
              (WebSocketWrapper.SockMessage 0 "null" "salt") in
  JSON_parse (Libs := Toy.libs) "null" = Some VNull
  ∧ get_prop VNull "type" = Throw TypeError
  ∧ WebSocketWrapper.log s = [WebSocketWrapper.OnConnect]
  ∧ WebSocketWrapper.log s'
    = [WebSocketWrapper.OnConnect; WebSocketWrapper.Uncaught TypeError]
  ∧ s' = WebSocketWrapper.mkState
           (WebSocketWrapper.isConnected s) (WebSocketWrapper.showBlockedScreen s)
           (WebSocketWrapper.showMaintenanceScreen s) (WebSocketWrapper.socketRef s)
           (WebSocketWrapper.reconnectCountRef s)
           (WebSocketWrapper.reconnectTimeoutRef s)
           (WebSocketWrapper.isConnectingRef s) (WebSocketWrapper.hasRegisteredRef s)
           (WebSocketWrapper.sockets s) (WebSocketWrapper.timers s)
           (WebSocketWrapper.sessionStorage s) (WebSocketWrapper.rendered s)
           [WebSocketWrapper.OnConnect; WebSocketWrapper.Uncaught TypeError]
  ∧ WebSocketWrapper.log
      (WebSocketWrapper.step (L := Toy.libs) s
         (WebSocketWrapper.SockMessage 0 "{type:PING}" "salt"))
    = [WebSocketWrapper.OnConnect;
       WebSocketWrapper.Alert (WebSocketWrapper.UnknownTypeNotice (VStr "PING"));
       WebSocketWrapper.Logout]
  ∧ (∀ (L : Libs) (r : WebSocketWrapper.Render) (data salt : string)
       (s0 : WebSocketWrapper.State),
       JSON_parse data = Some VNull →
       WebSocketWrapper.onmessage r data salt s0 = (Throw TypeError, s0)).
Proof.
  cbn zeta. do 6 (split; [vm_compute; reflexivity|]).
  intros L r data salt s0. apply onmessage_null_frame.
Qed.

(** C8.  On a frame that is not JSON, [ws.onmessage] ends in a
    [SyntaxError] that leaves the handler and nothing is logged by it; the
    state is unchanged.  The same happens in the election's fallback mode
    when the timer that re-reads the leader record finds text that does not
    parse: the [try] around [setTimeout] does not cover its callback. *)
Theorem malformed_frame_exception_escapes :
  JSON_parse (Libs := Toy.libs) "not json" = None
  ∧ WebSocketWrapper.onmessage (L := Toy.libs) Scenario.leader "not json"
      "salt" Scenario.open_session
    = (Throw SyntaxError, Scenario.open_session)
  ∧ WebSocketWrapper.log
      (WebSocketWrapper.step (L := Toy.libs) Scenario.open_session
         (WebSocketWrapper.SockMessage 0 "not json" "salt"))
    = WebSocketWrapper.log Scenario.open_session
      ++ [WebSocketWrapper.Uncaught SyntaxError]
  ∧ TabManager.recheck 7300
      (TabManager.mkTab (TabManager.mkTabId 7000 "k3x") false false false true
         false [])
      (Some TabManager.Unparsable)
    = Throw SyntaxError.
Proof. split; [|split; [|split]]; reflexivity. Qed.

(** The election handler of storage events on the same kind of input. *)
Lemma malformed_storage_event_is_dropped :
  TabManager.handleStorageEvent 7000
    (TabManager.mkTab (TabManager.mkTabId 1000 "k3x") false true true true
       false [])
    TabManager.TAB_ID_KEY (Some TabManager.Unparsable)
  = (TabManager.mkTab (TabManager.mkTabId 1000 "k3x") false true true true
       false [],
     [TabManager.ConsoleError "Error handling storage event:"]).
Proof. reflexivity. Qed.

Lemma maintenance_flag_follows_connection_events_witness :
  WebSocketWrapper.showMaintenanceScreen
    (WebSocketWrapper.step (L := Toy.libs) Scenario.open_session
       (WebSocketWrapper.SockFail 0 "salt")) = VBool true
  ∧ (SecureStorage.getItem (L := Toy.libs) "maintenance"
       (WebSocketWrapper.sessionStorage
          (WebSocketWrapper.step (L := Toy.libs) Scenario.open_session
             (WebSocketWrapper.SockFail 0 "salt")))).1
    = VStr "{status:true}".
Proof.
  eapply (maintenance_flag_follows_connection_events (L := Toy.libs) toy_laws
            Scenario.open_session 0%nat _ "salt").
  - reflexivity.
  - discriminate.
Defined.

(** ** Duplicate tabs *)

Section TabManagerFacts.
Import TabManager.

(** C1 as stated fails: an active tab that hears the heartbeat or the claim
    of another, older tab stays active and does nothing. *)
Lemma active_tab_does_not_yield :
  let me := mkTab (mkTabId 2000 "new") true true true false false [] in
  let other := mkTabId 1000 "old" in
  isActive me = true
  ∧ onmessage 2500 me (mkMessage heartbeat (Some other) (Some 2400)) = (me, [])
  ∧ onmessage 2500 me (mkMessage claim (Some other) (Some 1000)) = (me, []).
Proof. repeat split. Qed.

(** C1, as amended.  In broadcast mode a tab whose [isActive] flag is [true]
    does not yield: a heartbeat or a claim from another tab leaves it as it
    is, and nothing is done.  A tab that is not active yields to another
    tab's heartbeat, and to the claim of a strictly older tab: it asks the
    existing tab to take the focus, shows the notice and schedules its own
    closing; its flag stays [false]. *)
Theorem only_inactive_tabs_yield (now : Z) (t : Tab) (m : Message) :
  m_type m = heartbeat ∨ m_type m = claim →
  (isActive t = true → onmessage now t m = (t, []))
  ∧ (isActive t = false →
     differs (m_tabId m) (tabId t) = true →
     (m_type m = heartbeat
      ∨ ∃ ts, m_timestamp m = Some ts ∧ ts ≠ 0 ∧ ts < tab_timestamp (tabId t)) →
     onmessage now t m
     = (t, requestFocusOnExistingTab t
             ++ [ShowDuplicateTabMessage; SetTimeoutCloseTab 2000])).
Proof.
  intros Hty. split.
  - intros Hact. unfold onmessage, handleDuplicateTab.
    destruct Hty as [-> | ->]; rewrite Hact.
    + by rewrite andb_false_r.
    + by destruct (_ && _).
  - intros Hact Hdiff Hcase. unfold onmessage, handleDuplicateTab.
    destruct Hcase as [Hhb | (ts & Hts & Hnz & Hlt)].
    + rewrite Hhb, Hdiff, Hact. reflexivity.
    + destruct Hty as [Hty | Hty]; rewrite Hty, Hdiff, Hact; [reflexivity|].
      rewrite Hts. unfold ts_and.
      replace (ts =? 0) with false by (symmetry; by apply Z.eqb_neq).
      replace (tab_timestamp (tabId t) >? ts) with true
        by (symmetry; apply Z.gtb_lt; lia).
      reflexivity.
Qed.

End TabManagerFacts.

Lemma only_inactive_tabs_yield_witness :
  TabManager.onmessage 2500
    (TabManager.mkTab (TabManager.mkTabId 2000 "new") true false false false
       false [])
    (TabManager.mkMessage TabManager.claim
       (Some (TabManager.mkTabId 1000 "old")) (Some 1000))
  = (TabManager.mkTab (TabManager.mkTabId 2000 "new") true false false false
       false [],
     [TabManager.PostMessage
        (TabManager.mkMessage TabManager.focus_request None None);
      TabManager.ShowDuplicateTabMessage; TabManager.SetTimeoutCloseTab 2000]).
Proof.
  apply (only_inactive_tabs_yield 2500
           (TabManager.mkTab (TabManager.mkTabId 2000 "new") true false false
              false false [])
           (TabManager.mkMessage TabManager.claim
              (Some (TabManager.mkTabId 1000 "old")) (Some 1000))).
  - right. reflexivity.
  - reflexivity.
  - reflexivity.
  - right. exists 1000. split; [reflexivity|]. split; [discriminate|reflexivity].
Defined.


(** ** Registration, leadership and cancellation in the wrapper *)

Section WrapperTraces.
Import Browser WebSocketWrapper Scenario.
#[local] Existing Instance Toy.libs.

(** When the identity is known as [connect] is called, the frame is sent as
    the connection opens, and later renders do not send it again. *)
Lemma known_identity_is_registered_once :
  let s := run [Rerender leader; SockOpen 0 "salt"; Rerender leader] mounted in
  sockets s = [mkSocket OPEN leader ["{type:REGISTER_CHILD}"]]
  ∧ hasRegisteredRef s = true.
Proof. vm_compute. split; reflexivity. Qed.

(** The cleanup is idempotent. *)
Lemma effect_cleanup_idempotent (s : State) :
  effect_cleanup (effect_cleanup s).2 = (Ok (), (effect_cleanup s).2).
Proof.
  destruct s as [? ? ? sref ? tref ? ? ? ? ? ? ?].
  unfold effect_cleanup, close_current.
  destruct tref, sref; reflexivity.
Qed.

(** After the cleanup the socket held by [socketRef] is closing or closed and
    the ref is empty. *)
Lemma effect_cleanup_closes (s : State) (i : nat) (k : Socket Render) :
  socketRef s = Some i →
  sockets s !! i = Some k →
  socketRef (effect_cleanup s).2 = None
  ∧ sockets (effect_cleanup s).2 !! i = Some (close_socket k).
Proof.
  intros Hi Hk. unfold effect_cleanup, close_current.
  destruct (reconnectTimeoutRef s); cbn; rewrite Hi; cbn;
    (split; [done|]); rewrite list_lookup_alter_eq, Hk; done.
Qed.

(** C6.  The connection fails, so that [ws.onclose] schedules a
    reconnection, and the component is then unmounted: the cleanup leaves
    that timer pending, and when it fires a new socket is opened. *)
Theorem cleanup_leaves_reconnect_timer_pending :
  let s := run [Rerender leader; SockFail 0 "salt"; Unmount] mounted in
  rendered s = None
  ∧ reconnectTimeoutRef s = None
  ∧ timers s = [Some (mkTimer 1000 leader)]
  ∧ readyState <$> sockets s = [CLOSED]
  ∧ readyState <$> sockets (step s (TimerFire 0)) = [CLOSED; CONNECTING].
Proof. vm_compute. do 4 (split; [reflexivity|]). reflexivity. Qed.

End WrapperTraces.

(** ** The retry ceiling *)

Section RetryCeiling.
Import Browser BoundedRetry.
Context `{L : Libs}.

Lemma pending_none_lookup {A} (l : list (option A)) (t : nat) (x : A) :
  omap id l = [] → l !! t ≠ Some (Some x).
Proof.
  revert t. induction l as [|o l IH]; intros t Hnil Ht; [by destruct t|].
  destruct o as [y|]; [discriminate|].
  destruct t as [|t]; [discriminate|]. by apply (IH t).
Qed.

Lemma pending_single_clear {A} (l : list (option A)) (t : nat) (x y : A) :
  omap id l = [y] → l !! t = Some (Some x) →
  x = y ∧ omap id (<[t := None]> l) = [].
Proof.
  revert t. induction l as [|o l IH]; intros t Hone Ht; [by destruct t|].
  destruct t as [|t]; cbn in Ht.
  - injection Ht as ->. cbn in Hone. injection Hone as -> Hnil. by split.
  - destruct o as [z|]; cbn in Hone.
    + injection Hone as -> Hnil. by destruct (pending_none_lookup l t x Hnil).
    + cbn. by apply IH.
Qed.

Lemma alter_close_closed (i : nat) (l : list (Socket Props)) :
  Forall closed l → alter close_socket i l = l.
Proof.
  intros Hl. revert i. induction Hl as [|k l Hk _ IH]; intros i; [done|].
  destruct i as [|i]; cbn.
  - unfold close_socket. rewrite Hk. done.
  - by rewrite IH.
Qed.

Lemma closed_not_open (s : State) :
  Forall closed (sockets s) → current_is_open s = false.
Proof.
  intros Hl. unfold current_is_open.
  destruct (socketRef s) as [i|]; [|done].
  destruct (sockets s !! i) as [k|] eqn:Hk; [|done].
  rewrite (Forall_lookup_1 _ _ _ _ Hl Hk). done.
Qed.

Lemma phase_mount (r : Props) : 0 ≤ reconnectAttempts r → phase r (mount r).
Proof.
  intros HK. unfold mount.
  destruct (enabled r) eqn:He; [|by apply phase_idle].
  unfold connect. rewrite He. cbn.
  destruct (url_ok r) eqn:Hu; [|by apply phase_idle].
  eapply (phase_live r _ [] (mkSocket CONNECTING r [])); cbn; try done.
Qed.

Lemma close_event_phase (r : Props) (s : State) (cs : list (Socket Props))
    (k : Socket Props) (s1 : State) :
  sockets s = cs ++ [k] → Forall closed cs → 
  owner k = r → Forall (λ c, owner c = r) cs →
  pending_timers s = [] →
  reconnectCountRef s = Z.of_nat (length cs) →
  Z.of_nat (length cs) ≤ reconnectAttempts r →
  enabled r = true → url_ok r = true →
  sockets s1 = cs ++ [set_ready CLOSED k] →
  timers s1 = timers s → reconnectCountRef s1 = reconnectCountRef s →
  phase r (onclose r s1).
Proof.
  intros Hs Hcs Hk Hown Hp Hc HK He Hu Hs1 Ht1 Hc1.
  assert (Hall : Forall closed (cs ++ [set_ready CLOSED k])).
  { apply Forall_app. split; [done|]. by repeat constructor. }
  assert (Hown' : Forall (λ c, owner c = r) (cs ++ [set_ready CLOSED k])).
  { apply Forall_app. split; [done|]. by repeat constructor. }
  unfold onclose. rewrite He. cbn [andb].
  destruct (reconnectCountRef s1 <? reconnectAttempts r) eqn:Hlt.
  - apply Z.ltb_lt in Hlt. apply phase_waiting; cbn; try done.
    + by rewrite Hs1.
    + by rewrite Hs1.
    + unfold pending_timers. cbn. rewrite omap_app, Ht1.
      unfold pending_timers in Hp. by rewrite Hp.
    + rewrite Hs1, length_app. cbn. lia.
  - apply Z.ltb_ge in Hlt.
    apply phase_gave_up; cbn; try done.
    + by rewrite Hs1.
    + by rewrite Hs1.
    + unfold pending_timers. cbn. by rewrite Ht1.
    + rewrite Hs1, length_app. cbn. lia.
Qed.

Lemma phase_step (r : Props) (s : State) (ev : Event) :
  is_failure ev = true → phase r s → phase r (step s ev).
Proof.
  intros Hev Hph. destruct Hph as
    [s Hs Hp | s cs k Hs Hcs Hk Ho Hown Hp Hc HK He Hu
     | s Hcs Hown Hp Hc HK Hi He Hu | s Hcs Hown Hp HK Hw Hst].
  - (* nothing exists yet: every event is ignored *)
    assert (step s ev = s) as ->; [|by apply phase_idle].
    destruct ev as [|i|i d|i|i|t]; try done; cbn.
    + by rewrite Hs.
    + by rewrite Hs.
    + destruct (timers s !! t) as [[tm|]|] eqn:Ht; try done.
      by destruct (pending_none_lookup _ _ _ Hp Ht).
  - (* one live socket *)
    destruct ev as [|i|i d|i|i|t]; try done; cbn.
    + (* error and close *)
      destruct (sockets s !! i) as [c|] eqn:Hci; [|by eapply phase_live].
      rewrite Hs in Hci. destruct (decide (i = length cs)) as [->|Hne].
      * rewrite list_lookup_middle in Hci by done. injection Hci as <-.
        replace (ready_eqb (readyState k) CLOSED) with false
          by (by destruct (readyState k)).
        rewrite Ho.
        eapply (close_event_phase r s cs k); try done; cbn.
        rewrite Hs.
        by rewrite <- (Nat.add_0_r (length cs)), alter_app_r.
      * assert (Hlt : (i < length cs)%nat).
        { apply lookup_lt_Some in Hci. rewrite length_app in Hci. cbn in Hci. lia. }
        rewrite lookup_app_l in Hci by done.
        rewrite (Forall_lookup_1 _ _ _ _ Hcs Hci). cbn.
        by eapply phase_live.
    + (* close *)
      destruct (sockets s !! i) as [c|] eqn:Hci; [|by eapply phase_live].
      rewrite Hs in Hci. destruct (decide (i = length cs)) as [->|Hne].
      * rewrite list_lookup_middle in Hci by done. injection Hci as <-.
        replace (ready_eqb (readyState k) CLOSED) with false
          by (by destruct (readyState k)).
        rewrite Ho.
        eapply (close_event_phase r s cs k); try done; cbn.
        rewrite Hs.
        by rewrite <- (Nat.add_0_r (length cs)), alter_app_r.
      * assert (Hlt : (i < length cs)%nat).
        { apply lookup_lt_Some in Hci. rewrite length_app in Hci. cbn in Hci. lia. }
        rewrite lookup_app_l in Hci by done.
        rewrite (Forall_lookup_1 _ _ _ _ Hcs Hci). cbn.
        by eapply phase_live.
    + (* no timer is pending *)
      destruct (timers s !! t) as [[tm|]|] eqn:Ht; try (by eapply phase_live).
      by destruct (pending_none_lookup _ _ _ Hp Ht).
  - (* waiting for the timer *)
    destruct ev as [|i|i d|i|i|t]; try done; cbn.
    + destruct (sockets s !! i) as [c|] eqn:Hci; [|by apply phase_waiting].
      rewrite (Forall_lookup_1 _ _ _ _ Hcs Hci). cbn. by apply phase_waiting.
    + destruct (sockets s !! i) as [c|] eqn:Hci; [|by apply phase_waiting].
      rewrite (Forall_lookup_1 _ _ _ _ Hcs Hci). cbn. by apply phase_waiting.
    + destruct (timers s !! t) as [[tm|]|] eqn:Ht; try (by apply phase_waiting).
      destruct (pending_single_clear _ _ _ _ Hp Ht) as [-> Hclear].
      cbn [env]. unfold reconnect, connect, clear_timer.
      cbn [isConnectingRef socketRef sockets]. rewrite He, Hi. cbn [negb orb].
      match goal with |- context [current_is_open ?x] =>
        rewrite (closed_not_open x) by done end.
      unfold close_current. cbn [socketRef sockets].
      assert (Hsocks : (match socketRef s with
                        | Some i => (alter close_socket i (sockets s), None)
                        | None => (sockets s, @None nat)
                        end) = (sockets s, None)).
      { destruct (socketRef s); [|done]. by rewrite alter_close_closed. }
      rewrite Hsocks, Hu.
      eapply (phase_live r _ (sockets s) (mkSocket CONNECTING r [])); cbn; try done.
      all: lia.
  - (* gave up: every event is ignored *)
    assert (step s ev = s) as ->; [|by apply phase_gave_up].
    destruct ev as [|i|i d|i|i|t]; try done; cbn.
    + destruct (sockets s !! i) as [c|] eqn:Hci; [|done].
      by rewrite (Forall_lookup_1 _ _ _ _ Hcs Hci).
    + destruct (sockets s !! i) as [c|] eqn:Hci; [|done].
      by rewrite (Forall_lookup_1 _ _ _ _ Hcs Hci).
    + destruct (timers s !! t) as [[tm|]|] eqn:Ht; try done.
      by destruct (pending_none_lookup _ _ _ Hp Ht).
Qed.

Lemma phase_run (r : Props) (evs : list Event) (s : State) :
  Forall (λ ev, is_failure ev = true) evs → phase r s → phase r (run evs s).
Proof.
  intros Hevs. revert s. induction Hevs as [|ev evs Hev _ IH]; intros s Hs; [done|].
  cbn. apply IH. by apply phase_step.
Qed.


Lemma gave_up_is_final (r : Props) (s : State) (ev : Event) :
  Forall closed (sockets s) → pending_timers s = [] →
  is_failure ev = true → step s ev = s.
Proof.
  intros Hcs Hp Hev. destruct ev as [|i|i d|i|i|t]; try done; cbn.
  - destruct (sockets s !! i) as [c|] eqn:Hci; [|done].
    by rewrite (Forall_lookup_1 _ _ _ _ Hcs Hci).
  - destruct (sockets s !! i) as [c|] eqn:Hci; [|done].
    by rewrite (Forall_lookup_1 _ _ _ _ Hcs Hci).
  - destruct (timers s !! t) as [[tm|]|] eqn:Ht; try done.
    by destruct (pending_none_lookup _ _ _ Hp Ht).
Qed.

(** The close event of the socket that is not closed: below the ceiling
    it arms one timer with the configured delay, at the ceiling none. *)
Lemma close_event_schedules (r : Props) (s : State) (i : nat) (k : Socket Props) :
  phase r s → sockets s !! i = Some k → readyState k ≠ CLOSED →
  pending_timers (step s (SockClose i))
  = if attempts s <? reconnectAttempts r
    then [mkTimer (reconnectInterval r) r] else [].
Proof.
  intros Hph Hi Hlive. destruct Hph as
    [s Hs Hp | s cs k0 Hs Hcs Hk Ho Hown Hp Hc HK He Hu
     | s Hcs Hown Hp Hc HK Hc' He Hu | s Hcs Hown Hp HK Hw Hst].
  - by rewrite Hs in Hi.
  - assert (i = length cs ∧ k = k0) as [-> ->].
    { rewrite Hs in Hi. apply lookup_app_Some in Hi as [Hi | [Hge Hi]].
      - by destruct Hlive; apply (Forall_lookup_1 _ _ _ _ Hcs Hi).
      - apply list_lookup_singleton_Some in Hi as [Hi <-]. split; [lia|done]. }
    cbn [step]. rewrite Hi.
    replace (ready_eqb (readyState k0) CLOSED) with false
      by (by destruct (readyState k0)).
    unfold onclose, attempts. rewrite Ho, He, Hs, length_app. cbn [andb length].
    cbn [reconnectCountRef set_socket_state]. rewrite Hc.
    replace (Z.of_nat (length cs + 1) - 1) with (Z.of_nat (length cs)) by lia.
    unfold pending_timers in *.
    destruct (Z.of_nat (length cs) <? reconnectAttempts r); cbn [timers].
    + rewrite omap_app. cbn [set_socket_state timers]. by rewrite Hp.
    + done.
  - by destruct Hlive; apply (Forall_lookup_1 _ _ _ _ Hcs Hi).
  - by destruct Hlive; apply (Forall_lookup_1 _ _ _ _ Hcs Hi).
Qed.

(** C5, as amended.  In the variant that counts its attempts, configured with
    a ceiling [reconnectAttempts = K >= 0] and a delay
    [reconnectInterval = D]: in every run of failures at most [K]
    reconnections are attempted and every pending reconnection timer has
    delay [D]; the close event of a socket arms one such timer while fewer
    than [K] reconnections were attempted, and none once there were [K];
    once the [K]-th attempt has failed no timer is pending, every further
    failure event leaves the state as it is, and what the component shows is
    what it shows after any close ([isConnected] false, status
    [disconnected]).  The wrapper of [index.tsx] does not read these two
    props: its [ws.onclose] schedules a reconnection after 1000 ms each
    time. *)
Theorem bounded_retry_respects_ceiling (r : Props) (evs : list Event) :
  0 ≤ reconnectAttempts r →
  Forall (λ ev, is_failure ev = true) evs →
  (attempts (run evs (mount r)) ≤ reconnectAttempts r
   ∧ Forall (λ tm, delay tm = reconnectInterval r)
       (pending_timers (run evs (mount r)))
   ∧ (attempts (run evs (mount r)) = reconnectAttempts r →
      Forall closed (sockets (run evs (mount r))) →
      pending_timers (run evs (mount r)) = []
      ∧ (∀ ev, is_failure ev = true →
           step (run evs (mount r)) ev = run evs (mount r))
      ∧ isConnected (run evs (mount r)) = false
      ∧ connectionStatus (run evs (mount r)) = disconnected)
   ∧ (∀ i k, sockets (run evs (mount r)) !! i = Some k →
             readyState k ≠ CLOSED →
             pending_timers (step (run evs (mount r)) (SockClose i))
             = if attempts (run evs (mount r)) <? reconnectAttempts r
               then [mkTimer (reconnectInterval r) r] else []))
  ∧ (∀ (r' : WebSocketWrapper.Render) (s' : WebSocketWrapper.State),
       WebSocketWrapper.timers
         (WebSocketWrapper.run_handler (WebSocketWrapper.onclose r') s')
       = WebSocketWrapper.timers s' ++ [Some (mkTimer 1000 r')]).
Proof.
  intros HK Hevs. split; [|reflexivity].
  pose proof (phase_run r evs (mount r) Hevs (phase_mount r HK)) as Hph.
  cut (attempts (run evs (mount r)) ≤ reconnectAttempts r
       ∧ Forall (λ tm, delay tm = reconnectInterval r)
           (pending_timers (run evs (mount r)))
       ∧ (attempts (run evs (mount r)) = reconnectAttempts r →
          Forall closed (sockets (run evs (mount r))) →
          pending_timers (run evs (mount r)) = []
          ∧ (∀ ev, is_failure ev = true →
               step (run evs (mount r)) ev = run evs (mount r))
          ∧ isConnected (run evs (mount r)) = false
          ∧ connectionStatus (run evs (mount r)) = disconnected)).
  { intros (H1 & H2 & H3). split; [done|]. split; [done|]. split; [done|].
    intros i k. by apply close_event_schedules. }
  unfold attempts.
  destruct Hph as
    [s Hs Hp | s cs k Hs Hcs Hk Ho Hown Hp Hc HK' He Hu
     | s Hcs Hown Hp Hc HK' Hi He Hu | s Hcs Hown Hp HK' Hw Hst].
  - rewrite Hs, Hp. cbn. split; [lia|]. split; [done|]. intros; lia.
  - rewrite Hs, Hp, length_app. cbn. split; [lia|]. split; [done|].
    intros _ Hall. apply Forall_app in Hall as [_ Hall].
    rewrite Forall_singleton in Hall. exfalso. apply Hk. exact Hall.
  - rewrite Hp. split; [lia|]. split; [by repeat constructor|]. intros; lia.
  - rewrite Hp. split; [lia|]. split; [done|]. intros _ _.
    split; [done|]. split; [|done].
    intros ev Hev. by apply gave_up_is_final.
Qed.

End RetryCeiling.

(** C5 as stated fails twice.  The wrapper of [index.tsx], configured with
    five attempts and 3000 ms, makes a sixth reconnection attempt and
    schedules a seventh, each time after 1000 ms, and calls back nothing.
    The variant that counts, with a ceiling of two, stops after the second
    reconnection, but the caller hears of the last failure what it heard of
    the first ([onError], then [onDisconnect]) and the status reads
    [disconnected] as after the first: nothing signals that it gave up. *)
Lemma unbounded_retry_exceeds_ceiling :
  let s := WebSocketWrapper.run (L := Toy.libs)
             (WebSocketWrapper.Rerender Scenario.leader :: Scenario.fail_cycles 6)
             Scenario.mounted in
  let b1 := BoundedRetry.run (L := Toy.libs) [BoundedRetry.SockFail 0]
              (BoundedRetry.mount Scenario.two_attempts) in
  let b3 := BoundedRetry.run (L := Toy.libs)
              [BoundedRetry.TimerFire 0; BoundedRetry.SockFail 1;
               BoundedRetry.TimerFire 1; BoundedRetry.SockFail 2] b1 in
  (WebSocketWrapper.reconnectAttempts Scenario.leader = 5
   ∧ WebSocketWrapper.reconnectInterval Scenario.leader = 3000
   ∧ length (WebSocketWrapper.sockets s) = 7%nat
   ∧ WebSocketWrapper.timers
       (WebSocketWrapper.step (L := Toy.libs) s
          (WebSocketWrapper.SockFail 6 "salt")) !! 6%nat
     = Some (Some (Browser.mkTimer 1000 Scenario.leader))
   ∧ WebSocketWrapper.log
       (WebSocketWrapper.step (L := Toy.libs) s
          (WebSocketWrapper.SockFail 6 "salt")) = [])
  ∧ (BoundedRetry.reconnectAttempts Scenario.two_attempts = 2
     ∧ BoundedRetry.attempts b3 = 2
     ∧ BoundedRetry.pending_timers b3 = []
     ∧ BoundedRetry.log b1 = [BoundedRetry.OnError; BoundedRetry.OnDisconnect]
     ∧ BoundedRetry.log b3
       = BoundedRetry.log b1
         ++ [BoundedRetry.OnError; BoundedRetry.OnDisconnect;
             BoundedRetry.OnError; BoundedRetry.OnDisconnect]
     ∧ BoundedRetry.connectionStatus b3 = BoundedRetry.connectionStatus b1
     ∧ BoundedRetry.isConnected b3 = BoundedRetry.isConnected b1).
Proof.
  vm_compute. split.
  - do 4 (split; [reflexivity|]). reflexivity.
  - do 6 (split; [reflexivity|]). reflexivity.
Qed.

(** With a ceiling of two, the run in which every attempt fails makes two
    reconnection attempts and then stops. *)
Lemma bounded_retry_reaches_ceiling :
  let s := BoundedRetry.run (L := Toy.libs)
             [BoundedRetry.SockFail 0; BoundedRetry.TimerFire 0;
              BoundedRetry.SockFail 1; BoundedRetry.TimerFire 1;
              BoundedRetry.SockFail 2]
             (BoundedRetry.mount Scenario.two_attempts) in
  BoundedRetry.attempts s = 2
  ∧ Browser.readyState <$> BoundedRetry.sockets s
    = [Browser.CLOSED; Browser.CLOSED; Browser.CLOSED].
Proof. vm_compute. split; reflexivity. Qed.

Lemma bounded_retry_respects_ceiling_witness :
  let s := BoundedRetry.run (L := Toy.libs)
             [BoundedRetry.SockFail 0; BoundedRetry.TimerFire 0;
              BoundedRetry.SockFail 1; BoundedRetry.TimerFire 1;
              BoundedRetry.SockFail 2]
             (BoundedRetry.mount Scenario.two_attempts) in
  let s1 := BoundedRetry.run (L := Toy.libs)
              [BoundedRetry.SockFail 0; BoundedRetry.TimerFire 0]
              (BoundedRetry.mount Scenario.two_attempts) in
  BoundedRetry.attempts s ≤ 2
  ∧ BoundedRetry.pending_timers s = []
  ∧ BoundedRetry.step (L := Toy.libs) s (BoundedRetry.TimerFire 1) = s
  ∧ BoundedRetry.connectionStatus s = BoundedRetry.disconnected
  ∧ BoundedRetry.pending_timers
      (BoundedRetry.step (L := Toy.libs) s1 (BoundedRetry.SockClose 1))
    = [Browser.mkTimer 3000 Scenario.two_attempts].
Proof.
  cbn zeta.
  destruct (bounded_retry_respects_ceiling (L := Toy.libs)
              Scenario.two_attempts
              [BoundedRetry.SockFail 0; BoundedRetry.TimerFire 0;
               BoundedRetry.SockFail 1; BoundedRetry.TimerFire 1;
               BoundedRetry.SockFail 2])
    as [(H1 & _ & H3 & _) _].
  - vm_compute. discriminate.
  - repeat constructor.
  - destruct H3 as (H3 & H4 & _ & H5).
    + reflexivity.
    + repeat constructor.
    + split; [exact H1|]. split; [exact H3|]. split; [by apply H4|].
      split; [exact H5|].
      destruct (bounded_retry_respects_ceiling (L := Toy.libs)
                  Scenario.two_attempts
                  [BoundedRetry.SockFail 0; BoundedRetry.TimerFire 0])
        as [(_ & _ & _ & H6) _].
      * vm_compute. discriminate.
      * repeat constructor.
      * rewrite (H6 1%nat (Browser.mkSocket Browser.CONNECTING
                             Scenario.two_attempts []));
          [reflexivity | reflexivity | discriminate].
Defined.

(** ** Two tabs racing for activation *)

Section TwoTabs.
Import TabManager.
Variables id0 id1 : TabId.
Hypothesis Hpos0 : 0 < created id0.
Hypothesis Hpos1 : 0 < created id1.
Hypothesis Hne : id0 ≠ id1.

#[local] Abbreviation exchanging := (exchanging id0 id1).
#[local] Abbreviation deciding := (deciding id0 id1).
#[local] Abbreviation tied := (tied id0 id1).

Lemma differs_01 : differs (Some id0) id1 = true.
Proof. cbn. by rewrite bool_decide_eq_false_2. Qed.
Lemma differs_10 : differs (Some id1) id0 = true.
Proof. cbn. by rewrite bool_decide_eq_false_2. Qed.

Lemma nonzero (z : Z) : 0 < z → (z =? 0) = false.
Proof. intros. apply Z.eqb_neq. lia. Qed.

Lemma late_message_keeps_tab (now : Z) (t : Tab) (other : TabId) (m : Message) :
  differs (Some other) (tabId t) = true →
  late_from other m →
  ∃ es, onmessage now t m = (t, es) ∧ Forall (λ m', m' = focus_req) (posted es).
Proof.
  intros Hd [-> | [Hid [Hty|Hty]]]; unfold onmessage.
  - cbn. destruct (isActive t); eexists; (split; [reflexivity|]); constructor.
  - rewrite Hty, Hid, Hd. unfold handleDuplicateTab, requestFocusOnExistingTab.
    destruct (isActive t), (channel t); cbn;
      eexists; (split; [reflexivity|]); repeat constructor.
  - rewrite Hty. eexists; (split; [reflexivity|]); constructor.
Qed.

Lemma focus_requests_are_late (other : TabId) (ms : list Message) :
  Forall (λ m, m = focus_req) ms → Forall (late_from other) ms.
Proof. intros H. eapply Forall_impl; [exact H|]. intros m ->. by left. Qed.

Lemma tabId_tab0 (h : bool) (n : Net) : deciding h n → tabId (tab0 n) = id0.
Proof. intros [-> _ _ _]. by destruct (pending0 n). Qed.

Lemma tabId_tab1 (h : bool) (n : Net) : deciding h n → tabId (tab1 n) = id1.
Proof.
  intros [_ H1 _ _]. destruct h.
  - destruct H1 as [resp ->]. done.
  - rewrite H1. by destruct (pending1 n).
Qed.

Lemma deciding_step (h : bool) (n : Net) (ev : Event) :
  deciding h n → deciding h (step n ev).
Proof.
  intros Hde. pose proof Hde as [H0 H1 Hto0 Hto1].
  destruct ev as [[|] now | [|] now | [|] now]; cbn [step].
  - (* a message reaches tab 0 *)
    destruct (to0 n) as [|m rest] eqn:Hq; [exact Hde|].
    apply Forall_cons in Hto0 as [Hm Hrest].
    destruct (late_message_keeps_tab now (tab0 n) id1 m) as (es & -> & Hes);
      [by rewrite (tabId_tab0 h n Hde); apply differs_10 | done |].
    split; cbn; try done.
    apply Forall_app. split; [done|]. by apply focus_requests_are_late.
  - (* a message reaches tab 1 *)
    destruct (to1 n) as [|m rest] eqn:Hq; [exact Hde|].
    apply Forall_cons in Hto1 as [Hm Hrest].
    destruct (late_message_keeps_tab now (tab1 n) id0 m) as (es & -> & Hes);
      [by rewrite (tabId_tab1 h n Hde); apply differs_01 | done |].
    split; cbn; try done.
    apply Forall_app. split; [done|]. by apply focus_requests_are_late.
  - (* the timer of tab 0 *)
    destruct (pending0 n) eqn:Hp; [|exact Hde].
    rewrite H0. cbn. split; cbn; try done.
    apply Forall_app. split; [done|].
    constructor; [right; auto|]. constructor; [right; auto|]. constructor.
  - (* the timer of tab 1 *)
    destruct (pending1 n) eqn:Hp; [|exact Hde].
    destruct h.
    + destruct H1 as [resp H1]. rewrite H1. cbn. split; cbn; try done.
      * by exists resp.
      * apply Forall_app. split; [done|]. constructor; [by left|constructor].
    + rewrite H1. cbn. split; cbn; try done.
      apply Forall_app. split; [done|].
      constructor; [right; auto|]. constructor; [right; auto|]. constructor.
  - (* the heartbeat of tab 0 *)
    rewrite H0. destruct (pending0 n) eqn:Hp; cbn; [exact Hde|].
    split; cbn; rewrite ?Hp, ?app_nil_r; try done.
    apply Forall_app. split; [done|]. constructor; [right; auto|constructor].
  - (* the heartbeat of tab 1 *)
    destruct h.
    + destruct H1 as [resp H1]. rewrite H1. cbn. exact Hde.
    + rewrite H1. destruct (pending1 n) eqn:Hp; cbn; [exact Hde|].
      split; cbn; rewrite ?Hp, ?app_nil_r; try done.
      apply Forall_app. split; [done|]. constructor; [right; auto|constructor].
Qed.

Lemma deciding_run (h : bool) (evs : list Event) (n : Net) :
  deciding h n → deciding h (run evs n).
Proof.
  revert n. induction evs as [|ev evs IH]; intros n Hn; [done|].
  cbn. apply IH. by apply deciding_step.
Qed.

Lemma deciding_outcome (h : bool) (n : Net) :
  deciding h n → pending0 n = false → pending1 n = false →
  isActive (tab0 n) = true ∧ isActive (tab1 n) = negb h.
Proof.
  intros [H0 H1 _ _] Hp0 Hp1. rewrite Hp0 in H0. rewrite H0. split; [done|].
  destruct h.
  - by destruct H1 as [resp ->].
  - by rewrite H1, Hp1.
Qed.

(** *** The older tab wins *)
Section Older.
Hypothesis Hlt : created id0 < created id1.

Lemma older_hears_ping (now : Z) (rp : bool) (resp : list (option TabId)) :
  onmessage now (mkTab id0 true false false false rp resp) (ping_of id1)
  = (mkTab id0 true false false false rp resp,
     [PostMessage (mkMessage pong (Some id0) (Some now))]).
Proof.
  unfold onmessage, ping_of, ts_and, tab_timestamp. cbn.
  rewrite (nonzero _ Hpos1).
  by replace (created id0 <? created id1) with true
    by (symmetry; by apply Z.ltb_lt).
Qed.

Lemma older_hears_claim (now : Z) (rp : bool) (resp : list (option TabId)) :
  onmessage now (mkTab id0 true false false false rp resp) (claim_of id1)
  = (mkTab id0 true false false false rp resp, []).
Proof.
  unfold onmessage, claim_of, ts_and, tab_timestamp.
  cbn [m_type m_tabId m_timestamp tabId]. rewrite differs_10, (nonzero _ Hpos1).
  by replace (created id0 >? created id1) with false
    by (symmetry; rewrite Z.gtb_ltb; apply Z.ltb_ge; lia).
Qed.

Lemma younger_hears_ping (now : Z) (rp : bool) (resp : list (option TabId)) :
  onmessage now (mkTab id1 true false false false rp resp) (ping_of id0)
  = (mkTab id1 true false false false rp resp, []).
Proof.
  unfold onmessage, ping_of, ts_and, tab_timestamp. cbn.
  rewrite (nonzero _ Hpos0).
  by replace (created id1 <? created id0) with false
    by (symmetry; apply Z.ltb_ge; lia).
Qed.

Lemma younger_hears_claim (now : Z) (rp : bool) (resp : list (option TabId)) :
  onmessage now (mkTab id1 true false false false rp resp) (claim_of id0)
  = (mkTab id1 true false false false rp resp,
     [PostMessage focus_req; ShowDuplicateTabMessage; SetTimeoutCloseTab 2000]).
Proof.
  unfold onmessage, claim_of, ts_and, tab_timestamp.
  cbn [m_type m_tabId m_timestamp tabId]. rewrite differs_01, (nonzero _ Hpos0).
  by replace (created id1 >? created id0) with true
    by (symmetry; apply Z.gtb_lt; lia).
Qed.

Lemma exchanging_init : exchanging (init_net id0 id1).
Proof.
  split; cbn.
  - reflexivity.
  - by exists false, [].
  - done.
  - constructor; [by left | constructor; [by right; left | constructor]].
  - constructor; [by left | constructor; [by right; left | constructor]].
  - right. right. left.
Qed.

Lemma exchanging_step (n : Net) (ev : Event) :
  is_timeout ev = false → exchanging n → exchanging (step n ev).
Proof.
  intros Hev Hex.
  pose proof Hex as [H0 (rp & resp & H1) [Hp0 Hp1] Hto0 Hto1 Hprog].
  destruct ev as [[|] now | who now | [|] now]; try done; cbn [step].
  - (* a message reaches tab 0 *)
    destruct (to0 n) as [|m rest] eqn:Hq; [exact Hex|].
    apply Forall_cons in Hto0 as [Hm Hrest].
    rewrite H0. unfold waiting_tab. destruct Hm as [-> | [-> | ->]].
    + (* its ping: answered by a pong *)
      rewrite older_hears_ping. split; cbn; try done.
      * by exists rp, resp.
      * apply Forall_app. split; [done|]. constructor; [|constructor].
        right. right. eauto.
      * right. left. exists now. apply elem_of_app. right.
        by apply list_elem_of_singleton.
    + (* its claim: tab 0 is older *)
      rewrite older_hears_claim. split; cbn; rewrite ?app_nil_r; try done.
      * by exists rp, resp.
      * destruct Hprog as [?|[?|Hin]]; auto.
        right. right. apply elem_of_cons in Hin as [Hin|Hin]; [discriminate|done].
    + (* a focus request: tab 0 is not active *)
      split; cbn; rewrite ?app_nil_r; try done.
      * by exists rp, resp.
      * destruct Hprog as [?|[?|Hin]]; auto.
        right. right. apply elem_of_cons in Hin as [Hin|Hin]; [discriminate|done].
  - (* a message reaches tab 1 *)
    destruct (to1 n) as [|m rest] eqn:Hq; [exact Hex|].
    apply Forall_cons in Hto1 as [Hm Hrest].
    rewrite H1 in Hprog |- *. cbn [receivedPong] in Hprog.
    destruct Hm as [-> | [-> | [now' ->]]].
    + (* the ping of tab 0: tab 1 is younger and stays silent *)
      rewrite younger_hears_ping. split; cbn; rewrite ?app_nil_r; try done.
      * by exists rp, resp.
      * destruct Hprog as [?|[[t Hin]|Hin]]; auto.
        right. left. exists t.
        apply elem_of_cons in Hin as [Hin|Hin]; [discriminate|done].
    + (* the claim of tab 0: tab 1 yields *)
      rewrite younger_hears_claim. split; cbn; try done.
      * by exists rp, resp.
      * apply Forall_app. split; [done|]. constructor; [|constructor]. auto.
      * destruct Hprog as [?|[[t Hin]|Hin]]; auto.
        -- right. left. exists t.
           apply elem_of_cons in Hin as [Hin|Hin]; [discriminate|done].
        -- right. right. apply elem_of_app. by left.
    + (* the pong of tab 0 *)
      unfold onmessage. cbn [m_type m_tabId tabId]. rewrite differs_01.
      cbn. split; cbn; try done.
      * by eexists _, _.
      * apply Forall_app. split; [done|]. constructor; [|constructor]. auto.
      * by left.
  - (* no heartbeat timer runs yet *)
    rewrite H0. exact Hex.
  - rewrite H1. exact Hex.
Qed.

Lemma exchanging_run (evs : list Event) (n : Net) :
  Forall (λ ev, is_timeout ev = false) evs → exchanging n → exchanging (run evs n).
Proof.
  intros Hevs. revert n. induction Hevs as [|ev evs Hev _ IH]; intros n Hn; [done|].
  cbn. apply IH. by apply exchanging_step.
Qed.

Lemma exchanged_then_deciding (n : Net) :
  exchanging n → to0 n = [] → to1 n = [] → deciding true n.
Proof.
  intros [H0 (rp & resp & H1) [Hp0 Hp1] _ _ Hprog] Hq0 Hq1.
  rewrite Hq0, Hq1, H1 in Hprog. cbn in Hprog.
  destruct Hprog as [-> | [[t Hin] | Hin]];
    [|by apply not_elem_of_nil in Hin..].
  split.
  - by rewrite Hp0.
  - by exists resp.
  - rewrite Hq0. constructor.
  - rewrite Hq1. constructor.
Qed.

Lemma older_tab_wins (pre post : list Event) :
  Forall (λ ev, is_timeout ev = false) pre →
  to0 (run pre (init_net id0 id1)) = [] →
  to1 (run pre (init_net id0 id1)) = [] →
  pending0 (run post (run pre (init_net id0 id1))) = false →
  pending1 (run post (run pre (init_net id0 id1))) = false →
  isActive (tab0 (run post (run pre (init_net id0 id1)))) = true
  ∧ isActive (tab1 (run post (run pre (init_net id0 id1)))) = false.
Proof.
  intros Hpre Hq0 Hq1 Hp0 Hp1.
  apply (deciding_outcome true); [|done..].
  apply deciding_run, exchanged_then_deciding; [|done..].
  by apply exchanging_run, exchanging_init.
Qed.

(** *** The older tab wins once the younger one has heard its pong *)

#[local] Abbreviation settling := (settling id0 id1).

Lemma older_active_hears_ping (now : Z) :
  onmessage now (active_tab id0) (ping_of id1)
  = (active_tab id0, [PostMessage (mkMessage pong (Some id0) (Some now))]).
Proof. reflexivity. Qed.

Lemma older_active_hears_claim (now : Z) :
  onmessage now (active_tab id0) (claim_of id1) = (active_tab id0, []).
Proof.
  unfold onmessage, claim_of, ts_and, tab_timestamp.
  cbn [m_type m_tabId m_timestamp tabId active_tab].
  rewrite differs_10, (nonzero _ Hpos1).
  by replace (created id0 >? created id1) with false
    by (symmetry; rewrite Z.gtb_ltb; apply Z.ltb_ge; lia).
Qed.

Lemma younger_hears_older (now : Z) (rp : bool) (resp : list (option TabId))
    (m : Message) :
  from_older id0 m →
  ∃ rp' resp' es,
    onmessage now (mkTab id1 true false false false rp resp) m
    = (mkTab id1 true false false false rp' resp', es)
    ∧ (rp = true → rp' = true)
    ∧ (m_type m = pong → rp' = true)
    ∧ Forall (λ m', m' = focus_req) (posted es).
Proof.
  intros [Hid [Hty | [Hty | Hty]]]; unfold onmessage; rewrite Hty.
  - rewrite Hid. cbn [tabId]. rewrite differs_01. cbn.
    eexists true, _, _. split; [reflexivity|]. split; [done|]. split; [done|].
    repeat constructor.
  - rewrite Hid. cbn [tabId isActive]. rewrite differs_01. cbn.
    eexists rp, resp, _. split; [reflexivity|]. split; [done|].
    split; [done|]. repeat constructor.
  - eexists rp, resp, _. split; [reflexivity|]. split; [done|].
    split; [done|]. constructor.
Qed.

Lemma settling_init : settling (init_net id0 id1).
Proof.
  split; cbn.
  - reflexivity.
  - by exists false, [].
  - constructor; [by left | constructor; [by right; left | constructor]].
  - constructor; [by left | constructor; [by right; left | constructor]].
Qed.

Lemma settling_step (n : Net) (ev : Event) :
  (younger_timer ev = true → receivedPong (tab1 n) = true) →
  settling n →
  settling (step n ev)
  ∧ (receivedPong (tab1 n) = true → receivedPong (tab1 (step n ev)) = true).
Proof.
  intros Hev Hse. pose proof Hse as [H0 (rp & resp & H1) Hto0 Hto1].
  destruct ev as [[|] now | [|] now | [|] now]; cbn [step].
  - (* a message reaches tab 0 *)
    destruct (to0 n) as [|m rest] eqn:Hq; [done|].
    apply Forall_cons in Hto0 as [Hm Hrest].
    rewrite H0. destruct (pending0 n) eqn:Hp; destruct Hm as [-> | [-> | ->]].
    + unfold waiting_tab. rewrite older_hears_ping.
      split; [|done]. split; cbn; rewrite ?Hp; try done.
      * by exists rp, resp.
      * apply Forall_app. split; [done|]. constructor; [|constructor].
        right. right. split; [done|]. by left.
    + unfold waiting_tab. rewrite older_hears_claim.
      split; [|done]. split; cbn; rewrite ?Hp, ?app_nil_r; try done.
      by exists rp, resp.
    + split; [|done]. split; cbn; rewrite ?Hp, ?app_nil_r; try done.
      by exists rp, resp.
    + rewrite older_active_hears_ping.
      split; [|done]. split; cbn; rewrite ?Hp; try done.
      * by exists rp, resp.
      * apply Forall_app. split; [done|]. constructor; [|constructor].
        right. right. split; [done|]. by left.
    + rewrite older_active_hears_claim.
      split; [|done]. split; cbn; rewrite ?Hp, ?app_nil_r; try done.
      by exists rp, resp.
    + split; [|done]. split; cbn; rewrite ?Hp, ?app_nil_r; try done.
      by exists rp, resp.
  - (* a message reaches tab 1 *)
    destruct (to1 n) as [|m rest] eqn:Hq; [done|].
    apply Forall_cons in Hto1 as [Hm Hrest].
    rewrite H1. cbn [receivedPong]. destruct Hm as [-> | [-> | Hm]].
    + rewrite younger_hears_ping.
      split; [|done]. split; cbn; rewrite ?app_nil_r; try done.
      by exists rp, resp.
    + rewrite younger_hears_claim.
      split; [|done]. split; cbn; try done.
      * by exists rp, resp.
      * apply Forall_app. split; [done|]. constructor; [|constructor]. auto.
    + destruct (younger_hears_older now rp resp m Hm)
        as (rp' & resp' & es & -> & Hrp & _ & Hes).
      split; [|done]. split; cbn; try done.
      * by exists rp', resp'.
      * apply Forall_app. split; [done|].
        eapply Forall_impl; [exact Hes|]. intros m' ->. auto.
  - (* the timer of tab 0 *)
    destruct (pending0 n) eqn:Hp; [|done].
    rewrite H0. cbn. split; [|done]. split; cbn; try done.
    + by exists rp, resp.
    + apply Forall_app. split; [done|].
      constructor; [right; right; split; [done|]; right; by left|].
      constructor; [right; right; split; [done|]; right; by right|].
      constructor.
  - (* the timer of tab 1: it has heard a pong *)
    destruct (pending1 n) eqn:Hp; [|done].
    rewrite H1 in Hev |- *. cbn [receivedPong] in Hev. rewrite (Hev eq_refl).
    cbn. split; [|done]. split; cbn; try done.
    + by exists true, resp.
    + apply Forall_app. split; [done|]. constructor; [|constructor]. auto.
  - (* the heartbeat of tab 0 *)
    rewrite H0. destruct (pending0 n) eqn:Hp; cbn; [done|].
    split; [|done]. split; cbn; rewrite ?Hp, ?app_nil_r; try done.
    + by exists rp, resp.
    + apply Forall_app. split; [done|]. constructor; [|constructor].
      right. right. split; [done|]. right. by left.
  - (* tab 1 has no heartbeat *)
    assert (heartbeatInterval (tab1 n) = false) as -> by (by rewrite H1). done.
Qed.

Lemma settling_run_before (evs : list Event) (n : Net) :
  Forall (λ ev, younger_timer ev = false) evs → settling n → settling (run evs n).
Proof.
  intros Hevs. revert n. induction Hevs as [|ev evs Hev _ IH]; intros n Hn; [done|].
  cbn. apply IH. apply settling_step; [|done]. by rewrite Hev.
Qed.

Lemma settling_run_heard (evs : list Event) (n : Net) :
  settling n → receivedPong (tab1 n) = true →
  settling (run evs n) ∧ receivedPong (tab1 (run evs n)) = true.
Proof.
  revert n. induction evs as [|ev evs IH]; intros n Hn Hrp; [done|].
  cbn. destruct (settling_step n ev (λ _, Hrp) Hn) as [Hn' Hrp'].
  apply IH; [done|]. by apply Hrp'.
Qed.

Lemma older_tab_wins_once_heard (pre post : list Event) :
  Forall (λ ev, younger_timer ev = false) pre →
  receivedPong (tab1 (run pre (init_net id0 id1))) = true →
  pending0 (run post (run pre (init_net id0 id1))) = false →
  isActive (tab0 (run post (run pre (init_net id0 id1)))) = true
  ∧ isActive (tab1 (run post (run pre (init_net id0 id1)))) = false.
Proof.
  intros Hpre Hrp Hp0.
  destruct (settling_run_heard post (run pre (init_net id0 id1)))
    as [[H0 (rp & resp & H1) _ _] _]; [|done|].
  { by apply settling_run_before, settling_init. }
  rewrite H0, Hp0, H1. done.
Qed.

End Older.

(** *** Equal creation times *)
Section Tie.
Hypothesis Heq : created id0 = created id1.

Lemma tie_hears_first (now : Z) (me other : TabId) (m : Message) :
  created me = created other → me ≠ other →
  m = ping_of other ∨ m = claim_of other →
  onmessage now (waiting_tab me) m = (waiting_tab me, []).
Proof.
  intros Hc Hd [-> | ->]; unfold onmessage, ping_of, claim_of, ts_and, tab_timestamp;
    cbn [m_type m_tabId m_timestamp tabId isActive waiting_tab orb].
  - rewrite <- Hc. by rewrite Z.ltb_irrefl, andb_false_r.
  - rewrite <- Hc. rewrite Z.gtb_ltb, Z.ltb_irrefl. by rewrite !andb_false_r.
Qed.

Lemma tied_init : tied (init_net id0 id1).
Proof.
  split; cbn; try done.
  - constructor; [by left | constructor; [by right | constructor]].
  - constructor; [by left | constructor; [by right | constructor]].
Qed.

Lemma tied_step (n : Net) (ev : Event) :
  is_timeout ev = false → tied n → tied (step n ev).
Proof.
  intros Hev Hti. pose proof Hti as [H0 H1 [Hp0 Hp1] Hto0 Hto1].
  destruct ev as [[|] now | who now | [|] now]; try done; cbn [step].
  - destruct (to0 n) as [|m rest] eqn:Hq; [exact Hti|].
    apply Forall_cons in Hto0 as [Hm Hrest].
    rewrite H0, (tie_hears_first now id0 id1 m) by done.
    split; cbn; rewrite ?app_nil_r; done.
  - destruct (to1 n) as [|m rest] eqn:Hq; [exact Hti|].
    apply Forall_cons in Hto1 as [Hm Hrest].
    rewrite H1, (tie_hears_first now id1 id0 m) by done.
    split; cbn; rewrite ?app_nil_r; done.
  - rewrite H0. exact Hti.
  - rewrite H1. exact Hti.
Qed.

Lemma tied_run (evs : list Event) (n : Net) :
  Forall (λ ev, is_timeout ev = false) evs → tied n → tied (run evs n).
Proof.
  intros Hevs. revert n. induction Hevs as [|ev evs Hev _ IH]; intros n Hn; [done|].
  cbn. apply IH. by apply tied_step.
Qed.

Lemma tied_then_deciding (n : Net) :
  tied n → to0 n = [] → to1 n = [] → deciding false n.
Proof.
  intros [H0 H1 [Hp0 Hp1] _ _] Hq0 Hq1. split.
  - by rewrite Hp0.
  - by rewrite Hp1.
  - rewrite Hq0. constructor.
  - rewrite Hq1. constructor.
Qed.

Lemma tie_elects_both (pre post : list Event) :
  Forall (λ ev, is_timeout ev = false) pre →
  to0 (run pre (init_net id0 id1)) = [] →
  to1 (run pre (init_net id0 id1)) = [] →
  pending0 (run post (run pre (init_net id0 id1))) = false →
  pending1 (run post (run pre (init_net id0 id1))) = false →
  isActive (tab0 (run post (run pre (init_net id0 id1)))) = true
  ∧ isActive (tab1 (run post (run pre (init_net id0 id1)))) = true.
Proof.
  intros Hpre Hq0 Hq1 Hp0 Hp1.
  apply (deciding_outcome false); [|done..].
  apply deciding_run, tied_then_deciding; [|done..].
  by apply tied_run, tied_init.
Qed.

End Tie.
End TwoTabs.




(** With equal creation times neither tab answers the ping of the other or
    yields to its claim before the timers, and both are activated: for
    every order of delivery of that exchange. *)
Lemma equal_timestamps_elect_both (id0 id1 : TabManager.TabId)
    (pre post : list TabManager.Event) :
  id0 ≠ id1 →
  TabManager.created id0 = TabManager.created id1 →
  Forall (λ ev, TabManager.is_timeout ev = false) pre →
  TabManager.to0 (TabManager.run pre (TabManager.init_net id0 id1)) = [] →
  TabManager.to1 (TabManager.run pre (TabManager.init_net id0 id1)) = [] →
  TabManager.pending0
    (TabManager.run post (TabManager.run pre (TabManager.init_net id0 id1)))
  = false →
  TabManager.pending1
    (TabManager.run post (TabManager.run pre (TabManager.init_net id0 id1)))
  = false →
  TabManager.isActive
    (TabManager.tab0
       (TabManager.run post (TabManager.run pre (TabManager.init_net id0 id1))))
  = true
  ∧ TabManager.isActive
      (TabManager.tab1
         (TabManager.run post (TabManager.run pre (TabManager.init_net id0 id1))))
    = true.
Proof. intros. by apply tie_elects_both. Qed.


(** ** More on the tab manager *)

Section TabManagerHandlers.
Import TabManager.

Lemma handleDuplicateTab_keeps_tab (t : Tab) : (handleDuplicateTab t).1 = t.
Proof. unfold handleDuplicateTab. by destruct (isActive t). Qed.

Lemma activateTab_tab (now : Z) (t : Tab) (ls : option Stored) :
  (activateTab now t ls).1.1
  = mkTab (tabId t) (channel t) true true (useLocalStorage t) (receivedPong t)
      (pingResponses t).
Proof.
  unfold activateTab, updateHeartbeat. cbn.
  by destruct (useLocalStorage t), (channel t).
Qed.

(** X1.  No operation of the tab manager turns an active tab into an
    inactive one: the channel handler, the decision timer, the storage
    handler, the re-check timer, the start in fallback mode and the cleanup
    all leave [isActive] set once it is. *)
Theorem tab_manager_never_deactivates (now : Z) (t : Tab) (m : Message)
    (key : string) (newValue ls : option Stored) :
  isActive t = true →
  isActive (onmessage now t m).1 = true
  ∧ isActive (ping_timeout now t ls).1.1 = true
  ∧ isActive (handleStorageEvent now t key newValue).1 = true
  ∧ (∀ r, recheck now t ls = Ok r → isActive r.1.1 = true)
  ∧ isActive (initializeLocalStorage now t ls).1.1 = true
  ∧ isActive (cleanup t ls).1.1 = true.
Proof.
  intros Hact. repeat apply conj.
  - unfold onmessage, handleDuplicateTab.
    destruct (m_type m); cbn; rewrite ?Hact, ?andb_false_r; cbn; try done.
    + by destruct (differs _ _).
    + by destruct (_ && _).
  - unfold ping_timeout.
    destruct (negb (receivedPong t) && _); [by rewrite activateTab_tab|].
    destruct (receivedPong t); [|done]. by rewrite Hact.
  - unfold handleStorageEvent, handleDuplicateTab.
    destruct (String.eqb key TAB_ID_KEY); [|done].
    destruct newValue as [[|tid ts]|]; try done.
    rewrite Hact. by destruct (differs tid (tabId t) && true), (fresh now ts).
  - intros r. unfold recheck, handleDuplicateTab.
    destruct ls as [[|tid ts]|]; try done.
    + rewrite Hact. destruct (fresh now ts && differs tid (tabId t)).
      * by intros [= <-].
      * intros [= <-]. by rewrite activateTab_tab.
    + intros [= <-]. by rewrite activateTab_tab.
  - unfold initializeLocalStorage.
    destruct ls as [[|tid ts]|].
    + pose proof (activateTab_tab now t (Some Unparsable)) as H.
      destruct (activateTab now t (Some Unparsable)) as [[t' ls'] es].
      cbn in *. by rewrite H.
    + destruct (fresh now ts); [done|].
      pose proof (activateTab_tab now t (Some (TabData tid ts))) as H.
      destruct (activateTab now t _) as [[t' ls'] es]. cbn in *. by rewrite H.
    + pose proof (activateTab_tab now t None) as H.
      destruct (activateTab now t None) as [[t' ls'] es]. cbn in *. by rewrite H.
  - unfold cleanup. rewrite Hact. cbn [andb].
    destruct (useLocalStorage t); [|done].
    destruct ls as [[|tid ts]|]; try done. by destruct (bool_decide _).
Qed.

(** X2.  A message on the channel changes nothing of a tab but
    [receivedPong] and [pingResponses], and these only when it is a pong from
    another tab; a pong, heartbeat or claim that carries the tab's own
    identifier has no effect at all. *)
Theorem onmessage_changes_only_pong_fields (now : Z) (t : Tab) (m : Message) :
  let t' := (onmessage now t m).1 in
  (tabId t' = tabId t ∧ channel t' = channel t
   ∧ heartbeatInterval t' = heartbeatInterval t ∧ isActive t' = isActive t
   ∧ useLocalStorage t' = useLocalStorage t)
  ∧ (t' ≠ t → m_type m = pong ∧ m_tabId m ≠ Some (tabId t))
  ∧ (m_tabId m = Some (tabId t) →
     m_type m = pong ∨ m_type m = heartbeat ∨ m_type m = claim →
     onmessage now t m = (t, [])).
Proof.
  assert (Hself : differs (Some (tabId t)) (tabId t) = false).
  { cbn. by rewrite bool_decide_eq_true_2. }
  cbn zeta. split; [|split].
  - unfold onmessage.
    destruct (m_type m); cbn;
      repeat match goal with
             | |- context [if ?b then _ else _] => destruct b eqn:?; cbn
             end; rewrite ?handleDuplicateTab_keeps_tab; repeat split; congruence.
  - unfold onmessage.
    destruct (m_type m) eqn:Hty; cbn;
      repeat match goal with
             | |- context [if ?b then _ else _] => destruct b eqn:?; cbn
             end; rewrite ?handleDuplicateTab_keeps_tab; try done.
    all: intros _; split; [done|]; intros Heq; rewrite Heq, Hself in *; done.
  - intros Hid Hty. unfold onmessage.
    destruct Hty as [-> | [-> | ->]]; rewrite Hid, Hself; done.
Qed.

(** X3.  The storage handler never changes the tab and never starts the
    duplicate-tab handling: all it can do is log a value that does not
    parse. *)
Theorem storage_event_has_no_effect (now : Z) (t : Tab) (key : string)
    (newValue : option Stored) :
  (handleStorageEvent now t key newValue).1 = t
  ∧ ((handleStorageEvent now t key newValue).2 = []
     ∨ (newValue = Some Unparsable
        ∧ (handleStorageEvent now t key newValue).2
          = [ConsoleError "Error handling storage event:"])).
Proof.
  unfold handleStorageEvent, handleDuplicateTab.
  destruct (String.eqb key TAB_ID_KEY); [|by split; [|left]].
  destruct newValue as [[|tid ts]|]; cbn.
  - split; [done|]. by right.
  - destruct (differs tid (tabId t)), (isActive t) eqn:Ha, (fresh now ts);
      cbn; rewrite ?Ha; split; try done; by left.
  - split; [done|]. by left.
Qed.


(** X4.  Start without a usable channel ([BroadcastChannel] undefined, or
    its constructor throwing): when the shared record is absent, does not
    parse, or is not fresh, the tab takes over: it is active, it has written
    the record with its own identifier and the current time, the heartbeat
    timer runs and the storage listener is installed. *)
Theorem fallback_start_takes_over (bc_defined ctor_ok : bool) (now : Z)
    (t : Tab) (ls : option Stored) :
  bc_defined && ctor_ok = false →
  (ls = None ∨ ls = Some Unparsable
   ∨ ∃ tid ts, ls = Some (TabData tid ts) ∧ fresh now ts = false) →
  let r := initialize bc_defined ctor_ok now t ls in
  isActive r.1.1.1 = true
  ∧ useLocalStorage r.1.1.1 = true
  ∧ heartbeatInterval r.1.1.1 = true
  ∧ tabId r.1.1.1 = tabId t
  ∧ r.1.1.2 = Some (TabData (Some (tabId t)) (Some now))
  ∧ AddStorageListener ∈ r.1.2.
Proof.
  intros Hbc Hls. cbn zeta.
  assert (Hinit : ∃ pre,
    initialize bc_defined ctor_ok now t ls
    = (let t1 := mkTab (tabId t) (channel t) (heartbeatInterval t) (isActive t)
                   true (receivedPong t) (pingResponses t) in
       let '(t2, ls2, es) := initializeLocalStorage now t1 ls in
       (t2, ls2, pre ++ es, [VisibilityChange; BeforeUnload]))).
  { unfold initialize. destruct bc_defined, ctor_ok; try done; eauto. }
  destruct Hinit as [pre ->]. cbn zeta.
  assert (Hact : ∀ pre',
    (let '(t', ls', e) :=
       activateTab now
         (mkTab (tabId t) (channel t) (heartbeatInterval t) (isActive t) true
            (receivedPong t) (pingResponses t)) ls in
     (t', ls', pre' ++ e ++ [AddStorageListener]))
    = (mkTab (tabId t) (channel t) true true true (receivedPong t)
         (pingResponses t),
       Some (TabData (Some (tabId t)) (Some now)),
       pre' ++ ((if channel t
                 then [PostMessage (mkMessage activated (Some (tabId t)) (Some now))]
                 else []) ++ [SetIntervalHeartbeat HEARTBEAT_INTERVAL])
         ++ [AddStorageListener])).
  { intros pre'. unfold activateTab, updateHeartbeat. cbn. by destruct (channel t). }
  unfold initializeLocalStorage.
  destruct Hls as [-> | [-> | (tid & ts & -> & Hfresh)]]; rewrite ?Hfresh, Hact;
    cbn [fst snd]; repeat split;
    repeat first [ by apply list_elem_of_singleton | apply elem_of_app; right ].
Qed.

(** X5.  A tab that starts in fallback mode while a leader heartbeats on
    schedule never activates.  The record last written by the leader is at
    most one heartbeat interval old when the tab starts and again when its
    re-check timer fires: at start the tab only arms the re-check and
    installs no storage listener, and at the re-check it handles itself as
    a duplicate. *)
Theorem newcomer_yields_to_heartbeating_leader (bc_defined ctor_ok : bool)
    (leader t : Tab) (hb0 hb1 now1 now2 : Z) (ls0 ls1 : option Stored) :
  bc_defined && ctor_ok = false →
  useLocalStorage leader = true →
  tabId leader ≠ tabId t →
  isActive t = false →
  now1 - hb0 ≤ HEARTBEAT_INTERVAL →
  now2 - hb1 ≤ HEARTBEAT_INTERVAL →
  let rec0 := (heartbeat_tick hb0 leader ls0).1 in
  let rec1 := (heartbeat_tick hb1 leader ls1).1 in
  let started := initialize bc_defined ctor_ok now1 t rec0 in
  isActive started.1.1.1 = false
  ∧ started.1.1.2 = rec0
  ∧ SetTimeoutRecheck 300 ∈ started.1.2
  ∧ (AddStorageListener ∉ started.1.2)
  ∧ recheck now2 started.1.1.1 rec1
    = Ok (started.1.1.1, rec1,
          requestFocusOnExistingTab started.1.1.1
            ++ [ShowDuplicateTabMessage; SetTimeoutCloseTab 2000]).
Proof.
  intros Hbc Hl Hne Hinact H0 H1. cbn zeta.
  unfold heartbeat_tick, updateHeartbeat. rewrite Hl. cbn [fst].
  assert (Hf0 : fresh now1 (Some hb0) = true).
  { cbn. apply Z.ltb_lt. unfold HEARTBEAT_INTERVAL, TAB_TIMEOUT in *. lia. }
  assert (Hf1 : fresh now2 (Some hb1) = true).
  { cbn. apply Z.ltb_lt. unfold HEARTBEAT_INTERVAL, TAB_TIMEOUT in *. lia. }
  assert (Hd : differs (Some (tabId leader)) (tabId t) = true).
  { cbn. by rewrite bool_decide_eq_false_2. }
  assert (Hinit : ∃ pre, (pre = [] ∨ pre = [ConsoleError "BroadcastChannel failed:"])
    ∧ initialize bc_defined ctor_ok now1 t
        (Some (TabData (Some (tabId leader)) (Some hb0)))
      = (mkTab (tabId t) (channel t) (heartbeatInterval t) (isActive t) true
           (receivedPong t) (pingResponses t),
         Some (TabData (Some (tabId leader)) (Some hb0)),
         pre ++ [SetTimeoutRecheck 300], [VisibilityChange; BeforeUnload])).
  { unfold initialize, initializeLocalStorage. rewrite Hf0.
    destruct bc_defined, ctor_ok; try done; eexists; (split; [|reflexivity]); auto. }
  destruct Hinit as (pre & Hpre & ->). cbn [fst snd].
  split; [done|]. split; [done|]. split.
  { apply elem_of_app. right. by apply list_elem_of_singleton. }
  split.
  { destruct Hpre as [-> | ->]; cbn; intros Hin;
      repeat (apply elem_of_cons in Hin as [Hin|Hin]; [discriminate|]);
      by apply not_elem_of_nil in Hin. }
  unfold recheck. rewrite Hf1. cbn [tabId]. rewrite Hd. cbn [andb].
  unfold handleDuplicateTab. cbn [isActive]. by rewrite Hinact.
Qed.

(** X6.  The cleanup releases the channel and the heartbeat timer, can be
    run again without changing the tab or the record, removes the record of
    a tab that activated in fallback mode, and never removes the record of
    another tab. *)
Theorem cleanup_releases_and_is_idempotent (now : Z) (t : Tab)
    (ls : option Stored) :
  (channel (cleanup t ls).1.1 = false
   ∧ heartbeatInterval (cleanup t ls).1.1 = false)
  ∧ (cleanup (cleanup t ls).1.1 (cleanup t ls).1.2).1 = (cleanup t ls).1
  ∧ (useLocalStorage t = true →
     (cleanup (activateTab now t ls).1.1 (activateTab now t ls).1.2).1.2 = None)
  ∧ (∀ tid ts, ls = Some (TabData tid ts) → tid ≠ Some (tabId t) →
     (cleanup t ls).1.2 = ls).
Proof.
  split; [|split; [|split]].
  - unfold cleanup. destruct (isActive t && useLocalStorage t); [|done].
    destruct ls as [[|tid ts]|]; try done. by destruct (bool_decide _).
  - unfold cleanup. destruct (isActive t) eqn:Ha, (useLocalStorage t) eqn:Hu;
      cbn; rewrite ?Ha, ?Hu; cbn; try done.
    destruct ls as [[|tid ts]|]; cbn; rewrite ?Ha, ?Hu; cbn; try done.
    destruct (bool_decide (tid = Some (tabId t))) eqn:Hb; cbn;
      rewrite ?Ha, ?Hu, ?Hb; done.
  - intros Hu. unfold activateTab, updateHeartbeat, cleanup. rewrite Hu. cbn.
    rewrite ?Hu. cbn. by rewrite bool_decide_eq_true_2.
  - intros tid ts -> Hne. unfold cleanup.
    destruct (isActive t && useLocalStorage t); [|done].
    by rewrite bool_decide_eq_false_2.
Qed.

End TabManagerHandlers.

Lemma tab_manager_never_deactivates_witness :
  let t := TabManager.mkTab (TabManager.mkTabId 2000 "new") true true true
             false false [] in
  TabManager.isActive
    (TabManager.onmessage 2500 t
       (TabManager.mkMessage TabManager.claim
          (Some (TabManager.mkTabId 1000 "old")) (Some 1000))).1 = true
  ∧ TabManager.isActive (TabManager.cleanup t None).1.1 = true.
Proof.
  cbn zeta.
  destruct (tab_manager_never_deactivates 2500
              (TabManager.mkTab (TabManager.mkTabId 2000 "new") true true true
                 false false [])
              (TabManager.mkMessage TabManager.claim
                 (Some (TabManager.mkTabId 1000 "old")) (Some 1000))
              "" None None eq_refl) as (H1 & _ & _ & _ & _ & H6).
  split; [exact H1 | exact H6].
Defined.

Lemma onmessage_changes_only_pong_fields_witness :
  let t := TabManager.mkTab (TabManager.mkTabId 2000 "new") true false false
             false false [] in
  TabManager.onmessage 2500 t
    (TabManager.mkMessage TabManager.heartbeat
       (Some (TabManager.mkTabId 2000 "new")) (Some 2400)) = (t, []).
Proof.
  cbn zeta.
  destruct (onmessage_changes_only_pong_fields 2500
              (TabManager.mkTab (TabManager.mkTabId 2000 "new") true false
                 false false false [])
              (TabManager.mkMessage TabManager.heartbeat
                 (Some (TabManager.mkTabId 2000 "new")) (Some 2400)))
    as (_ & _ & H).
  apply H.
  - reflexivity.
  - right. left. reflexivity.
Defined.

Lemma fallback_start_takes_over_witness :
  let t := TabManager.new_tab (TabManager.mkTabId 9000 "k3x") in
  let r := TabManager.initialize false true 9000 t
             (Some (TabManager.TabData (Some (TabManager.mkTabId 1000 "old"))
                      (Some 3000))) in
  TabManager.isActive r.1.1.1 = true
  ∧ r.1.1.2 = Some (TabManager.TabData (Some (TabManager.mkTabId 9000 "k3x"))
                      (Some 9000)).
Proof.
  cbn zeta.
  destruct (fallback_start_takes_over false true 9000
              (TabManager.new_tab (TabManager.mkTabId 9000 "k3x"))
              (Some (TabManager.TabData (Some (TabManager.mkTabId 1000 "old"))
                       (Some 3000))))
    as (H1 & _ & _ & _ & H5 & _).
  - reflexivity.
  - right. right. exists (Some (TabManager.mkTabId 1000 "old")), (Some 3000).
    split; reflexivity.
  - split; [exact H1 | exact H5].
Defined.

Lemma newcomer_yields_to_heartbeating_leader_witness :
  let leader := TabManager.mkTab (TabManager.mkTabId 1000 "old") false true
                  true true false [] in
  let t := TabManager.new_tab (TabManager.mkTabId 9000 "k3x") in
  let started := TabManager.initialize false true 9000 t
                   (TabManager.heartbeat_tick 8000 leader None).1 in
  TabManager.isActive started.1.1.1 = false
  ∧ TabManager.recheck 9300 started.1.1.1
      (TabManager.heartbeat_tick 9200 leader None).1
    = Ok (started.1.1.1, (TabManager.heartbeat_tick 9200 leader None).1,
          [TabManager.ShowDuplicateTabMessage;
           TabManager.SetTimeoutCloseTab 2000]).
Proof.
  cbn zeta.
  destruct (newcomer_yields_to_heartbeating_leader false true
              (TabManager.mkTab (TabManager.mkTabId 1000 "old") false true
                 true true false [])
              (TabManager.new_tab (TabManager.mkTabId 9000 "k3x"))
              8000 9200 9000 9300 None None)
    as (H1 & _ & _ & _ & H5).
  - reflexivity.
  - reflexivity.
  - discriminate.
  - reflexivity.
  - vm_compute. discriminate.
  - vm_compute. discriminate.
  - split; [exact H1 | exact H5].
Defined.

Lemma cleanup_releases_and_is_idempotent_witness :
  let t := TabManager.mkTab (TabManager.mkTabId 9000 "k3x") false false true
             true false [] in
  (TabManager.cleanup (TabManager.activateTab 9000 t None).1.1
     (TabManager.activateTab 9000 t None).1.2).1.2 = None
  ∧ (TabManager.cleanup t
       (Some (TabManager.TabData (Some (TabManager.mkTabId 1000 "old"))
                (Some 8000)))).1.2
    = Some (TabManager.TabData (Some (TabManager.mkTabId 1000 "old"))
              (Some 8000)).
Proof.
  cbn zeta. split.
  - destruct (cleanup_releases_and_is_idempotent 9000
                (TabManager.mkTab (TabManager.mkTabId 9000 "k3x") false false
                   true true false []) None) as (_ & _ & H3 & _).
    apply H3. reflexivity.
  - destruct (cleanup_releases_and_is_idempotent 9000
                (TabManager.mkTab (TabManager.mkTabId 9000 "k3x") false false
                   true true false [])
                (Some (TabManager.TabData (Some (TabManager.mkTabId 1000 "old"))
                         (Some 8000)))) as (_ & _ & _ & H4).
    apply (H4 (Some (TabManager.mkTabId 1000 "old")) (Some 8000)).
    + reflexivity.
    + discriminate.
Defined.

Section QuietFollowers.
Import TabManager.

(** X7.  A tab that is not active never announces itself: whatever it
    hears, it posts nothing on the channel but pongs and focus requests,
    and when the page becomes visible or hidden it writes nothing and posts
    nothing. *)
Theorem inactive_tab_stays_silent (hidden : bool) (now : Z) (t : Tab)
    (m : Message) (ls : option Stored) :
  isActive t = false →
  Forall (λ m', m_type m' = pong ∨ m_type m' = focus_request)
    (posted (onmessage now t m).2)
  ∧ handleVisibilityChange hidden now t ls = (ls, []).
Proof.
  intros Hact. split.
  - unfold onmessage, handleDuplicateTab, requestFocusOnExistingTab.
    destruct (m_type m); cbn; rewrite ?Hact; cbn;
      repeat match goal with
             | |- context [if ?b then _ else _] => destruct b; cbn
             end; rewrite ?Hact; cbn;
      repeat match goal with
             | |- context [if ?b then _ else _] => destruct b; cbn
             end;
      repeat first [ apply Forall_nil_2 | apply Forall_cons; split; [auto|] ].
  - unfold handleVisibilityChange. rewrite Hact. by destruct hidden.
Qed.

End QuietFollowers.

Lemma inactive_tab_stays_silent_witness :
  TabManager.handleVisibilityChange false 2500
    (TabManager.mkTab (TabManager.mkTabId 2000 "new") false false false true
       false [])
    (Some (TabManager.TabData (Some (TabManager.mkTabId 1000 "old")) (Some 2400)))
  = (Some (TabManager.TabData (Some (TabManager.mkTabId 1000 "old")) (Some 2400)),
     []).
Proof.
  apply (inactive_tab_stays_silent false 2500
           (TabManager.mkTab (TabManager.mkTabId 2000 "new") false false false
              true false [])
           (TabManager.mkMessage TabManager.ping None None)).
  reflexivity.
Defined.

(** ** A late tab and the active one *)

Section LateTab.
Import TabManager.
Variables id0 id1 : TabId.
Hypothesis Hne : id0 ≠ id1.

Lemma joining_init (now0 : Z) : joining id0 id1 (join_net id0 id1 now0).
Proof.
  split; cbn; try done.
  - by exists false, [].
  - constructor; [by left | constructor; [by right; left | constructor]].
Qed.

Lemma joining_step (n : Net) (ev : Event) :
  joining id0 id1 n →
  is_timeout ev = false ∨ receivedPong (tab1 n) = true →
  joining id0 id1 (step n ev)
  ∧ (receivedPong (tab1 n) = true → receivedPong (tab1 (step n ev)) = true).
Proof.
  intros Hjo Hev.
  pose proof Hjo as [H0 Hp0 (rp & resp & H1) Hto0 Hto1].
  assert (Hd : differs (Some id0) id1 = true)
    by (cbn; by rewrite bool_decide_eq_false_2).
  destruct ev as [[|] now | [|] now | [|] now]; cbn [step].
  - (* a message reaches the active tab *)
    destruct (to0 n) as [|m rest] eqn:Hq; [done|].
    apply Forall_cons in Hto0 as [Hm Hrest].
    rewrite H0. destruct Hm as [-> | [-> | ->]].
    + cbn. split; [|done]. split; cbn; try done; [by exists rp, resp|].
      apply Forall_app. split; [done|]. constructor; [|constructor].
      split; [done|by left].
    + unfold onmessage, handleDuplicateTab. cbn.
      destruct (_ && _); cbn; (split; [|done]);
        (split; cbn; rewrite ?app_nil_r; try done; by exists rp, resp).
    + cbn. split; [|done].
      split; cbn; rewrite ?app_nil_r; try done. by exists rp, resp.
  - (* a message reaches the late tab *)
    destruct (to1 n) as [|m rest] eqn:Hq; [done|].
    apply Forall_cons in Hto1 as [[Hid Hty] Hrest].
    rewrite H1. unfold onmessage.
    destruct Hty as [Hty | Hty]; rewrite Hty, Hid; cbn [tabId]; rewrite Hd.
    + cbn. split; [|done]. split; cbn; try done; [by eexists _, _|].
      apply Forall_app. split; [done|]. constructor; [auto|constructor].
    + cbn. split; [|done]. split; cbn; try done; [by exists rp, resp|].
      apply Forall_app. split; [done|]. constructor; [auto|constructor].
  - (* the timer of the active tab has fired already *)
    by rewrite Hp0.
  - (* the timer of the late tab *)
    destruct Hev as [? | Hrp]; [done|].
    destruct (pending1 n); [|done].
    rewrite H1 in Hrp |- *. cbn in Hrp. subst rp. cbn.
    split; [|done]. split; cbn; try done; [by exists true, resp|].
    apply Forall_app. split; [done|]. constructor; [auto|constructor].
  - (* the heartbeat of the active tab *)
    rewrite H0. cbn. split; [|done]. split; cbn; try done; [by exists rp, resp|].
    apply Forall_app. split; [done|]. constructor; [|constructor].
    split; [done|by right].
  - (* the late tab has no heartbeat timer *)
    rewrite H1. cbn. by rewrite H1.
Qed.

Lemma joining_run_early (evs : list Event) (n : Net) :
  Forall (λ ev, is_timeout ev = false) evs →
  joining id0 id1 n → joining id0 id1 (run evs n).
Proof.
  intros Hevs. revert n. induction Hevs as [|ev evs Hev _ IH]; intros n Hn; [done|].
  cbn. apply IH. apply joining_step; auto.
Qed.

Lemma joining_run_heard (evs : list Event) (n : Net) :
  joining id0 id1 n → receivedPong (tab1 n) = true →
  joining id0 id1 (run evs n) ∧ receivedPong (tab1 (run evs n)) = true.
Proof.
  revert n. induction evs as [|ev evs IH]; intros n Hn Hrp; [done|].
  cbn. destruct (joining_step n ev Hn (or_intror Hrp)) as [Hn' Hrp'].
  apply IH; auto.
Qed.

End LateTab.

(** X8.  A tab that is already active keeps the leadership against a tab
    that starts later, whichever of the two was created first: if the late
    tab hears a pong before its decision timer fires, then after any
    further deliveries, heartbeats and timers the first tab is active and
    the late one is not. *)
Theorem active_tab_keeps_leadership (id0 id1 : TabManager.TabId) (now0 : Z)
    (pre post : list TabManager.Event) :
  id0 ≠ id1 →
  Forall (λ ev, TabManager.is_timeout ev = false) pre →
  TabManager.receivedPong
    (TabManager.tab1 (TabManager.run pre (TabManager.join_net id0 id1 now0)))
  = true →
  TabManager.isActive
    (TabManager.tab0
       (TabManager.run post
          (TabManager.run pre (TabManager.join_net id0 id1 now0)))) = true
  ∧ TabManager.isActive
      (TabManager.tab1
         (TabManager.run post
            (TabManager.run pre (TabManager.join_net id0 id1 now0)))) = false.
Proof.
  intros Hne Hpre Hrp.
  destruct (joining_run_heard id0 id1 Hne post
              (TabManager.run pre (TabManager.join_net id0 id1 now0)))
    as [[H0 _ (rp & resp & H1) _ _] _]; [|done|].
  - apply joining_run_early; [done..|]. apply joining_init.
  - by rewrite H0, H1.
Qed.

Lemma active_tab_keeps_leadership_witness :
  let n := TabManager.run
             [TabManager.Deliver TabManager.T0 6002;
              TabManager.PingTimeout TabManager.T1 7000;
              TabManager.HeartbeatTick TabManager.T0 7500;
              TabManager.Deliver TabManager.T1 7501]
             (TabManager.run
                [TabManager.Deliver TabManager.T0 6000;
                 TabManager.Deliver TabManager.T1 6001]
                (TabManager.join_net (TabManager.mkTabId 5000 "k3x")
                   (TabManager.mkTabId 1000 "p7q") 5500)) in
  TabManager.isActive (TabManager.tab0 n) = true
  ∧ TabManager.isActive (TabManager.tab1 n) = false.
Proof.
  apply (active_tab_keeps_leadership
           (TabManager.mkTabId 5000 "k3x") (TabManager.mkTabId 1000 "p7q") 5500
           [TabManager.Deliver TabManager.T0 6000;
            TabManager.Deliver TabManager.T1 6001]
           [TabManager.Deliver TabManager.T0 6002;
            TabManager.PingTimeout TabManager.T1 7000;
            TabManager.HeartbeatTick TabManager.T0 7500;
            TabManager.Deliver TabManager.T1 7501]).
  - discriminate.
  - repeat constructor.
  - reflexivity.
Defined.

(** ** More on the encrypted storage *)

Section SecureStorageMore.
Context `{L : Libs}.

Lemma setItem_store (salt k v : string) (st : gmap string string) :
  (SecureStorage.setItem salt k v st).2 = st
  ∨ ∃ c, (SecureStorage.setItem salt k v st).1 = Ok ()
         ∧ (SecureStorage.setItem salt k v st).2 = <[k := c]> st.
Proof.
  unfold SecureStorage.setItem.
  destruct (SecureStorage.encryptData salt (VStr v) None) as [[c|]|e]; auto.
  destruct (str_truthy c); eauto.
Qed.

Lemma getItem_store (k : string) (st : gmap string string) :
  (SecureStorage.getItem k st).2 = st
  ∨ (SecureStorage.getItem k st = (VNull, delete k st)).
Proof.
  unfold SecureStorage.getItem.
  destruct (st !! k) as [c|]; auto.
  destruct (negb (str_truthy c)); auto.
  destruct (SecureStorage.decryptData c None); auto.
Qed.

Lemma getItem_depends_on_entry (k : string) (st st' : gmap string string) :
  st !! k = st' !! k →
  (SecureStorage.getItem k st).1 = (SecureStorage.getItem k st').1.
Proof.
  intros H. unfold SecureStorage.getItem. rewrite H.
  destruct (st' !! k) as [c|]; [|done].
  destruct (negb (str_truthy c)); [done|].
  by destruct (SecureStorage.decryptData c None).
Qed.

(** X9.  Writing, reading or removing one key never changes what another
    key holds or reads as; and a write whose encryption fails changes
    nothing at all. *)
Theorem storage_keys_are_independent (salt k k' v : string)
    (st : gmap string string) :
  k ≠ k' →
  ((SecureStorage.setItem salt k v st).2 !! k' = st !! k'
   ∧ (SecureStorage.getItem k st).2 !! k' = st !! k'
   ∧ SecureStorage.removeItem k st !! k' = st !! k')
  ∧ ((SecureStorage.getItem k' (SecureStorage.setItem salt k v st).2).1
     = (SecureStorage.getItem k' st).1
     ∧ (SecureStorage.getItem k' (SecureStorage.getItem k st).2).1
       = (SecureStorage.getItem k' st).1
     ∧ (SecureStorage.getItem k' (SecureStorage.removeItem k st)).1
       = (SecureStorage.getItem k' st).1)
  ∧ (∀ e, (SecureStorage.setItem salt k v st).1 = Throw e →
          (SecureStorage.setItem salt k v st).2 = st).
Proof.
  intros Hne.
  assert (H1 : (SecureStorage.setItem salt k v st).2 !! k' = st !! k').
  { destruct (setItem_store salt k v st) as [-> | (c & _ & ->)]; [done|].
    by rewrite lookup_insert_ne. }
  assert (H2 : (SecureStorage.getItem k st).2 !! k' = st !! k').
  { destruct (getItem_store k st) as [-> | ->]; [done|].
    cbn. by rewrite lookup_delete_ne. }
  assert (H3 : SecureStorage.removeItem k st !! k' = st !! k').
  { unfold SecureStorage.removeItem. by rewrite lookup_delete_ne. }
  split; [done|]. split.
  - split; [|split]; by apply getItem_depends_on_entry.
  - intros e He. destruct (setItem_store salt k v st) as [-> | (c & Hok & _)]; [done|].
    rewrite Hok in He. discriminate.
Qed.

(** X10.  Reading is repeatable: a second [getItem] gives the same value and
    changes nothing; and a key that was removed, or any key after [clear],
    reads as [null] and is reported absent. *)
Theorem storage_reads_are_repeatable (k : string) (st : gmap string string) :
  SecureStorage.getItem k (SecureStorage.getItem k st).2
  = ((SecureStorage.getItem k st).1, (SecureStorage.getItem k st).2)
  ∧ SecureStorage.getItem k (SecureStorage.removeItem k st)
    = (VNull, SecureStorage.removeItem k st)
  ∧ SecureStorage.hasItem k (SecureStorage.removeItem k st) = false
  ∧ SecureStorage.getItem k (SecureStorage.clear st) = (VNull, ∅)
  ∧ SecureStorage.hasItem k (SecureStorage.clear st) = false
  ∧ SecureStorage.length (SecureStorage.clear st) = 0%nat.
Proof.
  split; [|repeat split].
  - unfold SecureStorage.getItem at 2 3 4.
    destruct (st !! k) as [c|] eqn:Hk.
    + destruct (negb (str_truthy c)) eqn:Hc.
      * cbn. unfold SecureStorage.getItem. by rewrite Hk, Hc.
      * destruct (SecureStorage.decryptData c None) eqn:Hd; cbn.
        -- unfold SecureStorage.getItem. by rewrite Hk, Hc, Hd.
        -- unfold SecureStorage.getItem. by rewrite lookup_delete_eq.
    + cbn. unfold SecureStorage.getItem. by rewrite Hk.
  - unfold SecureStorage.getItem, SecureStorage.removeItem.
    by rewrite lookup_delete_eq.
  - unfold SecureStorage.hasItem, SecureStorage.removeItem.
    by rewrite lookup_delete_eq.
Qed.

(** X11.  [hasItem] looks at the raw entry: an entry that does not decrypt
    is reported present until the first [getItem], which removes it; an
    empty entry reads as [null], is never removed and stays reported
    present. *)
Theorem hasItem_reports_raw_presence (k c : string) (st : gmap string string) :
  st !! k = Some c →
  SecureStorage.hasItem k st = true
  ∧ (c = "" →
     SecureStorage.getItem k st = (VNull, st))
  ∧ (∀ e, SecureStorage.decryptData c None = Throw e →
     (SecureStorage.getItem k st).1 = VNull
     ∧ SecureStorage.hasItem k (SecureStorage.getItem k st).2 = false).
Proof.
  intros Hk. split; [|split].
  - unfold SecureStorage.hasItem. by rewrite Hk.
  - intros ->. unfold SecureStorage.getItem. by rewrite Hk.
  - intros e Hd. rewrite (getItem_purges k c e st Hk Hd). cbn.
    unfold SecureStorage.hasItem. by rewrite lookup_delete_eq.
Qed.

(** X12.  With lawful libraries, a string encrypted with a custom key is
    recovered by decrypting with the same key; an empty custom key stands
    for the session key, so that such a text is also read by
    [decryptData] without a key. *)
Theorem custom_key_roundtrip (HL : LibsLaws L) (salt v key : string) :
  ∃ c, SecureStorage.encryptWithKey salt (VStr v) key = Ok (Some c)
       ∧ SecureStorage.decryptWithKey c key = Ok (VStr v)
       ∧ (key = "" → SecureStorage.decryptData c None = Ok (VStr v)).
Proof.
  unfold SecureStorage.encryptWithKey, SecureStorage.decryptWithKey,
    SecureStorage.encryptData.
  destruct (aes_encrypt_total salt (JSON_stringify (VStr v))
              (SecureStorage.pick_key (Some key))) as [c Hc].
  rewrite Hc. exists c. split; [done|].
  assert (Hne : str_truthy c = true)
    by (apply str_truthy_ne; eapply aes_cipher_nonempty; eauto).
  assert (Hdec : ∀ ck, SecureStorage.pick_key ck = SecureStorage.pick_key (Some key) →
                       SecureStorage.decryptData c ck = Ok (VStr v)).
  { intros ck Hck. unfold SecureStorage.decryptData. rewrite Hne. cbn [negb].
    rewrite Hck, (aes_roundtrip _ _ _ _ Hc).
    rewrite (str_truthy_ne _ (json_string_nonempty v)). cbn [negb].
    by rewrite json_string_roundtrip. }
  split; [by apply Hdec|]. intros ->. by apply Hdec.
Qed.

End SecureStorageMore.

Lemma storage_keys_are_independent_witness :
  (SecureStorage.getItem (L := Toy.libs) "maintenance"
     (SecureStorage.setItem (L := Toy.libs) "salt" "accountBlocked"
        "{isBlocked:true}" {["maintenance" := "corrupted"]}).2).1
  = (SecureStorage.getItem (L := Toy.libs) "maintenance"
       {["maintenance" := "corrupted"]}).1.
Proof.
  destruct (storage_keys_are_independent (L := Toy.libs) "salt"
              "accountBlocked" "maintenance" "{isBlocked:true}"
              {["maintenance" := "corrupted"]}) as (_ & (H & _) & _).
  - discriminate.
  - exact H.
Defined.

Lemma hasItem_reports_raw_presence_witness :
  SecureStorage.hasItem "maintenance" {["maintenance" := "corrupted"]} = true
  ∧ SecureStorage.hasItem "maintenance"
      (SecureStorage.getItem (L := Toy.libs) "maintenance"
         {["maintenance" := "corrupted"]}).2 = false.
Proof.
  destruct (hasItem_reports_raw_presence (L := Toy.libs) "maintenance"
              "corrupted" {["maintenance" := "corrupted"]}) as (H1 & _ & H3).
  - reflexivity.
  - split; [exact H1|].
    apply (H3 (Error "Failed to decrypt data - data may be corrupted")).
    reflexivity.
Defined.

Lemma custom_key_roundtrip_witness :
  ∃ c, SecureStorage.encryptWithKey (L := Toy.libs) "salt" (VStr "alice")
         "export-key" = Ok (Some c)
       ∧ SecureStorage.decryptWithKey (L := Toy.libs) c "export-key"
         = Ok (VStr "alice").
Proof.
  destruct (custom_key_roundtrip (L := Toy.libs) toy_laws "salt" "alice"
              "export-key") as (c & H1 & H2 & _).
  exists c. split; [exact H1 | exact H2].
Defined.

(** ** The sockets and timers of the wrapper in every run *)

Section WrapperInvariant.
Import Browser WebSocketWrapper.
Context `{L : Libs}.

Lemma wired_ext (s s' : State) : wiring s' = wiring s → wired s → wired s'.
Proof.
  unfold wiring. intros [= Hr Hs Ht Hc Hto] [H1 H2 H3 H4 H5 H6].
  split; rewrite ?Hr, ?Hs, ?Ht, ?Hc, ?Hto; done.
Qed.

Lemma keeps_ret {A} (a : A) : keeps_wiring (mret a).
Proof. done. Qed.

Lemma keeps_throw {A} (e : exn) : keeps_wiring (throw (A := A) e).
Proof. done. Qed.

Lemma keeps_lift {A} (r : result A) : keeps_wiring (lift r).
Proof. done. Qed.

Lemma keeps_bind {A B} (m : M A) (f : A → M B) :
  keeps_wiring m → (∀ a, keeps_wiring (f a)) → keeps_wiring (m ≫= f).
Proof.
  intros Hm Hf s. unfold mbind, M_bind. specialize (Hm s).
  destruct (m s) as [[a|e] s1]; cbn in *; [|done].
  by rewrite Hf.
Qed.

Lemma keeps_modify (f : State → State) :
  (∀ s, wiring (f s) = wiring s) → keeps_wiring (modify f).
Proof. intros Hf s. apply Hf. Qed.

Lemma keeps_when (b : bool) (m : M unit) :
  keeps_wiring m → keeps_wiring (when b m).
Proof. intros Hm. by destruct b. Qed.

Lemma keeps_storage_setItem (salt key value : string) :
  keeps_wiring (storage_setItem salt key value).
Proof.
  intros s. unfold storage_setItem.
  by destruct (SecureStorage.setItem salt key value (sessionStorage s)).
Qed.

Lemma keeps_onMaintenanceUpdate (salt : string) (status : jsval) :
  keeps_wiring (onMaintenanceUpdate salt status).
Proof.
  apply keeps_bind; [by apply keeps_modify|]. intros _.
  apply keeps_storage_setItem.
Qed.

Lemma keeps_onBlockStatus (salt : string) (status : jsval) :
  keeps_wiring (onBlockStatus salt status).
Proof.
  apply keeps_bind; [by apply keeps_modify|]. intros _.
  apply keeps_storage_setItem.
Qed.

Lemma keeps_onLogout : keeps_wiring onLogout.
Proof. by apply keeps_modify. Qed.

Lemma keeps_onmessage (r : Render) (data salt : string) :
  keeps_wiring (onmessage r data salt).
Proof.
  unfold onmessage.
  apply keeps_bind; [destruct (JSON_parse data); [apply keeps_ret|apply keeps_throw]|].
  intros d. apply keeps_bind; [apply keeps_lift|]. intros ty.
  repeat match goal with
         | |- keeps_wiring (if ?b then _ else _) => destruct b
         | |- keeps_wiring (_ ≫= _) => apply keeps_bind; [|intros ?]
         | |- keeps_wiring (lift _) => apply keeps_lift
         | |- keeps_wiring (mret _) => apply keeps_ret
         | |- keeps_wiring (when _ _) => apply keeps_when
         | |- keeps_wiring (modify _) => by apply keeps_modify
         | |- keeps_wiring onLogout => apply keeps_onLogout
         | |- keeps_wiring (onBlockStatus _ _) => apply keeps_onBlockStatus
         | |- keeps_wiring (onMaintenanceUpdate _ _) => apply keeps_onMaintenanceUpdate
         end.
Qed.

Lemma keeps_onerror (r : Render) (salt : string) : keeps_wiring (onerror r salt).
Proof.
  apply keeps_bind; [by apply keeps_modify|]. intros _.
  apply keeps_onMaintenanceUpdate.
Qed.

Lemma wiring_run_handler (m : M unit) (s : State) :
  wiring (run_handler m s) = wiring (m s).2.
Proof. unfold run_handler. by destruct (m s) as [[[]|e] s']. Qed.

Lemma wired_keeps (m : M unit) (s : State) :
  keeps_wiring m → wired s → wired (run_handler m s).
Proof.
  intros Hm. apply wired_ext. by rewrite wiring_run_handler.
Qed.

(** *** Closing and opening sockets *)

Lemma idle_close_socket (k : Socket Render) : idle (close_socket k).
Proof. unfold idle, close_socket. destruct (readyState k) eqn:H; cbn; auto. Qed.

Lemma registered_close_socket (k : Socket Render) :
  registered_at_most_once k → registered_at_most_once (close_socket k).
Proof.
  intros [H | (u & Hu & Ht & Hr & Hs)]; unfold close_socket.
  - left. by destruct (readyState k).
  - right. exists u.
    destruct (readyState k) eqn:Hk; cbn; repeat split; try done; congruence.
Qed.

Lemma registered_set_ready (st : ReadyState) (k : Socket Render) :
  st ≠ CONNECTING →
  registered_at_most_once k → registered_at_most_once (set_ready st k).
Proof.
  intros Hst [H | (u & Hu & Ht & Hr & Hs)]; [by left|].
  right. by exists u.
Qed.

Lemma close_current_wired (s : State) :
  wired s →
  wired (close_current s)
  ∧ socketRef (close_current s) = None
  ∧ Forall idle (sockets (close_current s)).
Proof.
  intros Hs. pose proof Hs as [H1 H2 H3 H4 H5 H6]. unfold close_current.
  destruct (socketRef s) as [c|] eqn:Hc; cbn.
  - assert (Hidle : ∀ i k, alter close_socket c (sockets s) !! i = Some k → idle k).
    { intros i k. destruct (decide (i = c)) as [->|Hne].
      - rewrite list_lookup_alter_eq. destruct (sockets s !! c); [|done].
        intros [= <-]. apply idle_close_socket.
      - rewrite list_lookup_alter_ne by done. intros Hk.
        apply (H1 i k Hk). congruence. }
    split; [split; cbn; try done|split; [done|]].
    + intros i k Hk _. by apply (Hidle i k).
    + apply Forall_alter; [done|]. intros k _. apply registered_close_socket.
    + apply Forall_alter; [done|]. intros k _. unfold close_socket.
      by destruct (readyState k).
    + apply Forall_lookup. intros i k. apply Hidle.
  - split; [done|]. split; [done|].
    apply Forall_lookup. intros i k Hk. by apply (H1 i k Hk).
Qed.

Lemma wired_set_isConnectingRef (b : bool) (s : State) :
  wired s → wired (set_isConnectingRef b s).
Proof. by apply wired_ext. Qed.

Lemma connect_ok (r : Render) (s : State) : (connect r s).1 = Ok ().
Proof.
  unfold connect.
  destruct (negb (isActiveTab r)); [done|].
  destruct (negb (enabled r) || isConnectingRef s || current_is_open s); [done|].
  by destruct (url_ok r).
Qed.

Lemma connect_wired (r : Render) (s : State) :
  wired s → wired (connect r s).2.
Proof.
  intros Hs. unfold connect.
  destruct (isActiveTab r) eqn:Ha; cbn [negb]; [|done].
  destruct (enabled r) eqn:He; cbn [negb orb]; [|done].
  destruct (isConnectingRef s || current_is_open s); [done|].
  destruct (close_current_wired s Hs) as ([H1 H2 H3 H4 H5 H6] & Hnone & Hidle).
  destruct (url_ok r) eqn:Hu; cbn [snd].
  - split; cbn; try done.
    + intros i k Hk Hne.
      apply lookup_app_Some in Hk as [Hk | [Hlen Hk]].
      * eapply Forall_lookup_1; eauto.
      * apply list_lookup_singleton_Some in Hk as [Hi _].
        exfalso. apply Hne. f_equal. lia.
    + apply Forall_app. split; [done|]. constructor; [by left|constructor].
    + apply Forall_app. split; [done|]. constructor; [done|constructor].
  - by split.
Qed.

Lemma run_connect (r : Render) (s : State) :
  run_handler (connect r) s = (connect r s).2.
Proof.
  unfold run_handler. pose proof (connect_ok r s) as H.
  by destruct (connect r s) as [[[]|e] s'].
Qed.

Lemma effect_connect_wired (r : Render) (s : State) :
  wired s → wired (run_handler (effect_connect r) s).
Proof.
  intros Hs. unfold effect_connect, when.
  destruct (enabled r); [|done]. rewrite run_connect. by apply connect_wired.
Qed.

Lemma effect_cleanup_wired (s : State) :
  wired s → wired (run_handler effect_cleanup s).
Proof.
  intros Hs. unfold run_handler, effect_cleanup. rewrite (wi_timeout s Hs).
  destruct (close_current_wired s Hs) as (Hc & _ & _). cbn.
  apply (wired_ext (close_current s)); [|done].
  unfold wiring. cbn. by rewrite (wi_count _ Hc).
Qed.

Lemma effect_tab_wired (r : Render) (s : State) :
  wired s → wired (run_handler (effect_tab r) s).
Proof.
  intros Hs. unfold run_handler, effect_tab.
  destruct (isActiveTab r && enabled r).
  - destruct (negb (is_set (socketRef s)) || negb (current_is_open s)); [|done].
    pose proof (connect_ok r s) as Hok. pose proof (connect_wired r s Hs) as Hw.
    by destruct (connect r s) as [[[]|e] s'].
  - destruct (negb (isActiveTab r)); [|done].
    destruct (socketRef s) eqn:Hc; [|done].
    destruct (close_current_wired s Hs) as (Hc' & _ & _).
    by apply (wired_ext (close_current s)).
Qed.

(** *** The socket events *)

Lemma current_of_live_socket (s : State) (i : nat) (k : Socket Render) :
  wired s → sockets s !! i = Some k → ¬ idle k → socketRef s = Some i.
Proof.
  intros Hs Hk Hlive. destruct (decide (socketRef s = Some i)) as [|Hne]; [done|].
  exfalso. apply Hlive. by apply (wi_single s Hs i k).
Qed.

Lemma set_socket_state_wired (s : State) (i : nat) (k : Socket Render)
    (st : ReadyState) :
  wired s → sockets s !! i = Some k →
  st = CLOSED ∨ (st = OPEN ∧ readyState k = CONNECTING) →
  wired (set_socket_state i st s).
Proof.
  intros Hs Hk Hst. pose proof Hs as [H1 H2 H3 H4 H5 H6].
  split; cbn; try done.
  - intros j kj. destruct (decide (j = i)) as [->|Hne].
    + rewrite list_lookup_alter_eq, Hk. intros [= <-] Hcur.
      destruct Hst as [-> | [-> Hcon]]; [by right|].
      exfalso. apply Hcur. apply (current_of_live_socket s i k); [done..|].
      unfold idle. rewrite Hcon. by intros [|].
    + rewrite list_lookup_alter_ne by done. apply H1.
  - apply Forall_alter; [done|]. intros k' _. apply registered_set_ready.
    by destruct Hst as [-> | [-> _]].
  - apply Forall_alter; [done|]. by intros k' _.
Qed.

Lemma onclose_wired (r : Render) (s : State) :
  leading r → wired s → wired (run_handler (onclose r) s).
Proof.
  intros Hr [H1 H2 H3 H4 H5 H6]. rewrite run_onclose.
  split; cbn; try done.
  apply Forall_app. split; [done|]. constructor; [|constructor].
  by intros tm [= <-].
Qed.

(** What [ws.onopen] does to the sockets: nothing, or one registration
    frame on the socket held by [socketRef]. *)
Lemma onopen_rest_wiring (r : Render) (s : State) :
  (onopen_rest r s).1 = Ok ()
  ∧ socketRef (onopen_rest r s).2 = socketRef s
  ∧ timers (onopen_rest r s).2 = timers s
  ∧ reconnectTimeoutRef (onopen_rest r s).2 = reconnectTimeoutRef s
  ∧ reconnectCountRef (onopen_rest r s).2 = 0
  ∧ (sockets (onopen_rest r s).2 = sockets s
     ∨ ∃ u c, userId r = Some u ∧ str_truthy u = true ∧ socketRef s = Some c
              ∧ sockets (onopen_rest r s).2
                = alter (push_frame (JSON_stringify (registrationMessage u))) c
                    (sockets s)).
Proof.
  unfold onopen_rest, mbind, M_bind, modify, when, sendRegistration, mret, M_ret.
  destruct (userId r) as [u|] eqn:Hu; [|cbn; by repeat split; auto].
  destruct (str_truthy u) eqn:Ht; [|cbn; by repeat split; auto].
  cbn.
  match goal with
  | |- context [if ?b then _ else _] => destruct b eqn:Hb; cbn
  end; [|by repeat split; auto].
  unfold send_current. cbn.
  destruct (socketRef s) as [c|] eqn:Hc; cbn; [|by repeat split; auto].
  repeat split; try done. right. by exists u, c.
Qed.

Lemma onopen_wired (s : State) (i : nat) (k : Socket Render) (salt : string) :
  wired s → sockets s !! i = Some k → readyState k = CONNECTING →
  wired (run_handler (onopen (owner k) salt) (set_socket_state i OPEN s)).
Proof.
  intros Hs Hk Hcon.
  assert (Hcur : socketRef s = Some i).
  { apply (current_of_live_socket s i k); [done..|]. unfold idle. rewrite Hcon. by intros [|]. }
  assert (Hsent : sent k = []).
  { pose proof (Forall_lookup_1 _ _ _ _ (wi_sent s Hs) Hk) as [H|(u & _ & _ & H & _)];
      [done|by rewrite Hcon in H]. }
  pose proof (set_socket_state_wired s i k OPEN Hs Hk (or_intror (conj eq_refl Hcon)))
    as Hs1.
  set (s1 := set_socket_state i OPEN s) in *.
  unfold run_handler, onopen. unfold mbind at 1, M_bind at 1.
  pose proof (keeps_onMaintenanceUpdate salt (VBool false) s1) as Hm.
  destruct (onMaintenanceUpdate salt (VBool false) s1) as [[[]|e] s2]; cbn in Hm;
    [|by apply (wired_ext s1)].
  fold (onopen_rest (owner k)).
  destruct (onopen_rest_wiring (owner k) s2) as (Hok & Hr & Ht & Hto & Hc & Hsock).
  destruct (onopen_rest (owner k) s2) as [[[]|e] s3]; [|discriminate]. cbn in *.
  unfold wiring in Hm. injection Hm as Hm1 Hm2 Hm3 Hm4 Hm5.
  destruct Hs1 as [H1 H2 H3 H4 H5 H6].
  destruct Hsock as [Hsock | (u & c & Hu & Htr & Hc2 & Hsock)].
  - split; rewrite ?Hr, ?Ht, ?Hto, ?Hc, ?Hsock, ?Hm1, ?Hm2, ?Hm3, ?Hm5; done.
  - assert (c = i) as -> by (subst s1; cbn in *; congruence).
    split; rewrite ?Hr, ?Ht, ?Hto, ?Hc, ?Hsock, ?Hm1, ?Hm2, ?Hm3, ?Hm5; try done.
    + intros j kj. destruct (decide (j = i)) as [->|Hne].
      * intros _ Hcur'. exfalso. apply Hcur'. subst s1. cbn in *. done.
      * rewrite list_lookup_alter_ne by done. apply H1.
    + apply Forall_alter; [done|]. intros k' Hk' _.
      subst s1. cbn in Hk'. rewrite list_lookup_alter_eq, Hk in Hk'.
      injection Hk' as <-. right. exists u. cbn. by rewrite Hsent.
    + apply Forall_alter; [done|]. by intros k' _.
Qed.

Lemma owner_leading (s : State) (i : nat) (k : Socket Render) :
  wired s → sockets s !! i = Some k → leading (owner k).
Proof. intros Hs Hk. apply (Forall_lookup_1 _ _ _ _ (wi_owner s Hs) Hk). Qed.

Lemma wired_step (s : State) (ev : Event) : wired s → wired (step s ev).
Proof.
  intros Hs. destruct ev as [r'| |i salt|i data salt|i salt|i|t]; cbn [step].
  - destruct (rendered s) as [r|]; [|done].
    assert (H0 : wired (set_rendered (Some r') s)) by by apply (wired_ext s).
    destruct (negb (Bool.eqb (isActiveTab r) (isActiveTab r'))).
    + by apply effect_tab_wired, effect_connect_wired, effect_cleanup_wired.
    + destruct (negb (Bool.eqb (enabled r) (enabled r'))); [|done].
      by apply effect_tab_wired.
  - destruct (rendered s) as [r|]; [|done].
    apply (wired_ext (run_handler effect_cleanup s)); [done|].
    by apply effect_cleanup_wired.
  - destruct (sockets s !! i) as [k|] eqn:Hk; [|done].
    destruct (readyState k) eqn:Hst; cbn; try done.
    by apply onopen_wired.
  - destruct (sockets s !! i) as [k|] eqn:Hk; [|done].
    destruct (ready_eqb (readyState k) OPEN); [|done].
    apply wired_keeps; [apply keeps_onmessage|done].
  - destruct (sockets s !! i) as [k|] eqn:Hk; [|done].
    destruct (ready_eqb (readyState k) CLOSED); [done|].
    apply onclose_wired; [by apply (owner_leading s i)|].
    apply wired_keeps; [apply keeps_onerror|].
    apply (set_socket_state_wired s i k); auto.
  - destruct (sockets s !! i) as [k|] eqn:Hk; [|done].
    destruct (ready_eqb (readyState k) CLOSED); [done|].
    apply onclose_wired; [by apply (owner_leading s i)|].
    apply (set_socket_state_wired s i k); auto.
  - destruct (timers s !! t) as [[tm|]|] eqn:Ht; try done.
    rewrite run_connect. apply connect_wired.
    destruct Hs as [H1 H2 H3 H4 H5 H6]. split; cbn; try done.
    apply Forall_insert; done.
Qed.

Lemma wired_mount (r : Render) (blocked maintenance : jsval)
    (store : gmap string string) :
  wired (mount r blocked maintenance store).
Proof.
  unfold mount. apply effect_tab_wired, effect_connect_wired.
  split; cbn; try done; by constructor.
Qed.

Lemma wired_run (evs : list Event) (s : State) : wired s → wired (run evs s).
Proof.
  revert s. induction evs as [|ev evs IH]; intros s Hs; [done|].
  cbn. by apply IH, wired_step.
Qed.

End WrapperInvariant.

Section WrapperRuns.
Import Browser WebSocketWrapper.
Context `{L : Libs}.

(** X13.  In every run of the wrapper at most one socket is connecting or
    open, and [socketRef] holds it: a socket that is not the current one
    is closing or closed. *)
Theorem only_the_current_socket_is_live (r : Render) (blocked maintenance : jsval)
    (store : gmap string string) (evs : list Event) (i : nat)
    (k : Socket Render) :
  sockets (run evs (mount r blocked maintenance store)) !! i = Some k →
  readyState k = CONNECTING ∨ readyState k = OPEN →
  socketRef (run evs (mount r blocked maintenance store)) = Some i
  ∧ ∀ j kj, sockets (run evs (mount r blocked maintenance store)) !! j = Some kj →
            readyState kj = CONNECTING ∨ readyState kj = OPEN → j = i.
Proof.
  intros Hk Hlive.
  pose proof (wired_run evs _ (wired_mount r blocked maintenance store)) as Hw.
  assert (Hcur : ∀ j kj,
    sockets (run evs (mount r blocked maintenance store)) !! j = Some kj →
    readyState kj = CONNECTING ∨ readyState kj = OPEN →
    socketRef (run evs (mount r blocked maintenance store)) = Some j).
  { intros j kj Hj Hl. apply (current_of_live_socket _ j kj Hw Hj).
    unfold idle. destruct Hl as [-> | ->]; by intros [|]. }
  split; [by apply (Hcur i k)|].
  intros j kj Hj Hl. pose proof (Hcur i k Hk Hlive). pose proof (Hcur j kj Hj Hl).
  congruence.
Qed.

(** X14.  In every run, what the wrapper itself sent on a socket (calls of
    [sendMessage] by the children are no events of [step]) is nothing or
    exactly one frame: the registration of the identity that the socket's
    handlers had bound, a non-empty string; nothing is sent while the socket
    is connecting. *)
Theorem registration_is_sent_at_most_once (r : Render) (blocked maintenance : jsval)
    (store : gmap string string) (evs : list Event) (i : nat)
    (k : Socket Render) :
  sockets (run evs (mount r blocked maintenance store)) !! i = Some k →
  (sent k = []
   ∨ ∃ u, userId (owner k) = Some u ∧ u ≠ ""
          ∧ sent k = [JSON_stringify (registrationMessage u)])
  ∧ (readyState k = CONNECTING → sent k = []).
Proof.
  intros Hk.
  pose proof (wired_run evs _ (wired_mount r blocked maintenance store)) as Hw.
  pose proof (Forall_lookup_1 _ _ _ _ (wi_sent _ Hw) Hk)
    as [H | (u & Hu & Ht & Hr & Hs)].
  - split; [by left|done].
  - split; [|done]. right. exists u. split; [done|]. split; [|done].
    intros ->. discriminate.
Qed.

(** X15.  The retry settings are never used: in every run
    [reconnectCountRef] is [0] and [reconnectTimeoutRef] is unset, every
    reconnection timer has a delay of 1000 ms whatever [reconnectInterval]
    is, and every socket and every timer callback is bound to a render in
    which the tab was the active one, the wrapper was enabled and the URL
    was accepted. *)
Theorem reconnection_ignores_retry_props (r : Render) (blocked maintenance : jsval)
    (store : gmap string string) (evs : list Event) :
  let s := run evs (mount r blocked maintenance store) in
  reconnectCountRef s = 0
  ∧ reconnectTimeoutRef s = None
  ∧ (∀ t tm, timers s !! t = Some (Some tm) →
             delay tm = 1000 ∧ leading (env tm))
  ∧ (∀ i k, sockets s !! i = Some k → leading (owner k)).
Proof.
  cbn zeta.
  pose proof (wired_run evs _ (wired_mount r blocked maintenance store))
    as [H1 H2 H3 H4 H5 H6].
  split; [done|]. split; [done|]. split.
  - intros t tm Ht. by apply (Forall_lookup_1 _ _ _ _ H4 Ht).
  - intros i k Hk. by apply (Forall_lookup_1 _ _ _ _ H3 Hk).
Qed.

(** *** A wrapper that is never rendered in the active tab *)

Lemma effect_cleanup_unconnected (s : State) :
  socketRef s = None → reconnectTimeoutRef s = None →
  run_handler effect_cleanup s
  = set_reconnectCountRef 0 (set_isConnectingRef false s).
Proof.
  intros Hc Hto. unfold run_handler, effect_cleanup, close_current.
  by rewrite Hto, Hc.
Qed.

Lemma effect_connect_follower (r : Render) (s : State) :
  isActiveTab r = false → run_handler (effect_connect r) s = s.
Proof.
  intros Hr. unfold run_handler, effect_connect, when.
  destruct (enabled r); [|done]. by rewrite connect_of_follower_render.
Qed.

Lemma effect_tab_follower (r : Render) (s : State) :
  isActiveTab r = false → socketRef s = None →
  run_handler (effect_tab r) s = s.
Proof.
  intros Hr Hc. unfold run_handler, effect_tab. by rewrite Hr, Hc.
Qed.

Lemma follower_step (s : State) (ev : Event) :
  match ev with Rerender r' => isActiveTab r' = false | _ => True end →
  sockets s = [] ∧ timers s = [] ∧ socketRef s = None ∧ reconnectTimeoutRef s = None →
  sockets (step s ev) = [] ∧ timers (step s ev) = []
  ∧ socketRef (step s ev) = None ∧ reconnectTimeoutRef (step s ev) = None.
Proof.
  intros Hev (Hs & Ht & Hc & Hto).
  destruct ev as [r'| |i salt|i data salt|i salt|i|t]; cbn [step];
    rewrite ?Hs, ?Ht; try done.
  - destruct (rendered s) as [r|]; [|done].
    destruct (negb (Bool.eqb (isActiveTab r) (isActiveTab r'))).
    + rewrite effect_cleanup_unconnected, effect_connect_follower,
        effect_tab_follower by done. done.
    + destruct (negb (Bool.eqb (enabled r) (enabled r'))); [|done].
      by rewrite effect_tab_follower.
  - destruct (rendered s) as [r|]; [|done].
    by rewrite effect_cleanup_unconnected.
Qed.

(** X16.  A wrapper whose renders all have [isActiveTab] false never
    creates a socket and never arms a timer, whatever happens. *)
Theorem follower_never_connects (r : Render) (blocked maintenance : jsval)
    (store : gmap string string) (evs : list Event) :
  isActiveTab r = false →
  Forall (λ ev, match ev with Rerender r' => isActiveTab r' = false | _ => True end)
    evs →
  sockets (run evs (mount r blocked maintenance store)) = []
  ∧ timers (run evs (mount r blocked maintenance store)) = []
  ∧ socketRef (run evs (mount r blocked maintenance store)) = None.
Proof.
  intros Hr Hevs.
  assert (H0 : sockets (mount r blocked maintenance store) = []
               ∧ timers (mount r blocked maintenance store) = []
               ∧ socketRef (mount r blocked maintenance store) = None
               ∧ reconnectTimeoutRef (mount r blocked maintenance store) = None).
  { unfold mount. by rewrite effect_connect_follower, effect_tab_follower. }
  revert H0. generalize (mount r blocked maintenance store).
  induction Hevs as [|ev evs Hev _ IH]; intros s Hs; [tauto|].
  cbn. apply IH. by apply follower_step.
Qed.

End WrapperRuns.

Lemma only_the_current_socket_is_live_witness :
  WebSocketWrapper.socketRef
    (WebSocketWrapper.run (L := Toy.libs)
       [WebSocketWrapper.Rerender Scenario.leader;
        WebSocketWrapper.SockOpen 0 "salt";
        WebSocketWrapper.Rerender Scenario.follower;
        WebSocketWrapper.SockClose 0;
        WebSocketWrapper.TimerFire 0]
       (WebSocketWrapper.mount Scenario.follower (VBool false) (VBool false) ∅))
  = Some 1%nat.
Proof.
  apply (only_the_current_socket_is_live (L := Toy.libs) Scenario.follower
           (VBool false) (VBool false) ∅
           [WebSocketWrapper.Rerender Scenario.leader;
            WebSocketWrapper.SockOpen 0 "salt";
            WebSocketWrapper.Rerender Scenario.follower;
            WebSocketWrapper.SockClose 0;
            WebSocketWrapper.TimerFire 0]
           1%nat (Browser.mkSocket Browser.CONNECTING Scenario.leader [])).
  - vm_compute. reflexivity.
  - left. reflexivity.
Defined.

Lemma registration_is_sent_at_most_once_witness :
  Browser.sent
    (Browser.mkSocket Browser.OPEN Scenario.leader ["{type:REGISTER_CHILD}"])
  = []
  ∨ ∃ u, WebSocketWrapper.userId Scenario.leader = Some u ∧ u ≠ ""
         ∧ Browser.sent
             (Browser.mkSocket Browser.OPEN Scenario.leader
                ["{type:REGISTER_CHILD}"])
           = [JSON_stringify (Libs := Toy.libs)
                (WebSocketWrapper.registrationMessage u)].
Proof.
  apply (registration_is_sent_at_most_once (L := Toy.libs) Scenario.follower
           (VBool false) (VBool false) ∅
           [WebSocketWrapper.Rerender Scenario.leader;
            WebSocketWrapper.SockOpen 0 "salt";
            WebSocketWrapper.Rerender Scenario.leader]
           0%nat
           (Browser.mkSocket Browser.OPEN Scenario.leader
              ["{type:REGISTER_CHILD}"])).
  vm_compute. reflexivity.
Defined.

Lemma follower_never_connects_witness :
  WebSocketWrapper.sockets
    (WebSocketWrapper.run (L := Toy.libs)
       [WebSocketWrapper.Rerender Scenario.follower_anonymous;
        WebSocketWrapper.TimerFire 0;
        WebSocketWrapper.SockOpen 0 "salt";
        WebSocketWrapper.Unmount]
       (WebSocketWrapper.mount Scenario.follower (VBool false) (VBool false) ∅))
  = [].
Proof.
  apply (follower_never_connects (L := Toy.libs) Scenario.follower
           (VBool false) (VBool false) ∅
           [WebSocketWrapper.Rerender Scenario.follower_anonymous;
            WebSocketWrapper.TimerFire 0;
            WebSocketWrapper.SockOpen 0 "salt";
            WebSocketWrapper.Unmount]).
  - reflexivity.
  - repeat constructor.
Defined.

(** ** The page: leadership and the connection *)

Section ManagerFlag.
Import TabManager.

Lemma onmessage_keeps_active (now : Z) (t : Tab) (m : Message) :
  isActive t = true → isActive (onmessage now t m).1 = true.
Proof.
  intros Hact. unfold onmessage, handleDuplicateTab.
  destruct (m_type m); cbn; rewrite ?Hact, ?andb_false_r; cbn; try done.
  - by destruct (differs _ _).
  - by destruct (_ && _).
Qed.

Lemma ping_timeout_keeps_active (now : Z) (t : Tab) (ls : option Stored) :
  isActive t = true → isActive (ping_timeout now t ls).1.1 = true.
Proof.
  intros Hact. unfold ping_timeout.
  destruct (negb (receivedPong t) && _); [by rewrite activateTab_tab|].
  destruct (receivedPong t); [|done]. by rewrite Hact.
Qed.

Lemma recheck_keeps_active (now : Z) (t : Tab) (ls : option Stored)
    (r : Tab * option Stored * list Effect) :
  isActive t = true → recheck now t ls = Ok r → isActive r.1.1 = true.
Proof.
  intros Hact. unfold recheck, handleDuplicateTab.
  destruct ls as [[|tid ts]|]; try done.
  - rewrite Hact. destruct (fresh now ts && differs tid (tabId t)).
    + by intros [= <-].
    + intros [= <-]. by rewrite activateTab_tab.
  - intros [= <-]. by rewrite activateTab_tab.
Qed.

Lemma handleStorageEvent_keeps_active (now : Z) (t : Tab) (key : string)
    (newValue : option Stored) :
  isActive t = true → isActive (handleStorageEvent now t key newValue).1 = true.
Proof.
  intros Hact. unfold handleStorageEvent, handleDuplicateTab.
  destruct (String.eqb key TAB_ID_KEY); [|done].
  destruct newValue as [[|tid ts]|]; try done.
  rewrite Hact. by destruct (differs tid (tabId t) && true), (fresh now ts).
Qed.

Lemma cleanup_keeps_active (t : Tab) (ls : option Stored) :
  isActive t = true → isActive (cleanup t ls).1.1 = true.
Proof.
  intros Hact. unfold cleanup. rewrite Hact. cbn [andb].
  destruct (useLocalStorage t); [|done].
  destruct ls as [[|tid ts]|]; try done. by destruct (bool_decide _).
Qed.

(** Whatever callback of the manager runs, an active tab stays active. *)
Lemma elect_keeps_active (op : Session.Election) (t : Tab) (ls : option Stored) :
  isActive t = true → isActive (Session.elect op t ls).1 = true.
Proof.
  intros Hact. destruct op as [now m|now|now|now|now key v|hidden now|];
    cbn [Session.elect fst].
  - by apply onmessage_keeps_active.
  - by apply ping_timeout_keeps_active.
  - done.
  - destruct (recheck now t ls) as [r|e] eqn:Hr; [|done].
    by apply (recheck_keeps_active now t ls).
  - by apply handleStorageEvent_keeps_active.
  - done.
  - by apply cleanup_keeps_active.
Qed.

End ManagerFlag.

Section PageLeadership.
Import Browser WebSocketWrapper.
Context `{L : Libs}.

Lemma kept_ret {A B} (f : State → B) (a : A) : keeps f (mret a).
Proof. done. Qed.

Lemma kept_throw {A B} (f : State → B) (e : exn) : keeps f (throw (A := A) e).
Proof. done. Qed.

Lemma kept_lift {A B} (f : State → B) (r : result A) : keeps f (lift r).
Proof. done. Qed.

Lemma kept_bind {A B C} (f : State → C) (m : M A) (g : A → M B) :
  keeps f m → (∀ a, keeps f (g a)) → keeps f (m ≫= g).
Proof.
  intros Hm Hg s. unfold mbind, M_bind. specialize (Hm s).
  destruct (m s) as [[a|e] s1]; cbn in *; [|done].
  by rewrite Hg.
Qed.

Lemma kept_modify {B} (f : State → B) (g : State → State) :
  (∀ s, f (g s) = f s) → keeps f (modify g).
Proof. intros Hg s. apply Hg. Qed.

Lemma kept_when {B} (f : State → B) (b : bool) (m : M unit) :
  keeps f m → keeps f (when b m).
Proof. intros Hm. by destruct b. Qed.

Lemma standing_storage_setItem (salt key value : string) :
  keeps standing (storage_setItem salt key value).
Proof.
  intros s. unfold storage_setItem.
  by destruct (SecureStorage.setItem salt key value (sessionStorage s)).
Qed.

Lemma standing_onMaintenanceUpdate (salt : string) (status : jsval) :
  keeps standing (onMaintenanceUpdate salt status).
Proof.
  apply kept_bind; [by apply kept_modify|]. intros _.
  apply standing_storage_setItem.
Qed.

Lemma standing_onBlockStatus (salt : string) (status : jsval) :
  keeps standing (onBlockStatus salt status).
Proof.
  apply kept_bind; [by apply kept_modify|]. intros _.
  apply standing_storage_setItem.
Qed.

Lemma standing_onmessage (r : Render) (data salt : string) :
  keeps standing (onmessage r data salt).
Proof.
  unfold onmessage.
  apply kept_bind; [destruct (JSON_parse data); [apply kept_ret|apply kept_throw]|].
  intros d. apply kept_bind; [apply kept_lift|]. intros ty.
  repeat match goal with
         | |- keeps _ (if ?b then _ else _) => destruct b
         | |- keeps _ (_ ≫= _) => apply kept_bind; [|intros ?]
         | |- keeps _ (lift _) => apply kept_lift
         | |- keeps _ (mret _) => apply kept_ret
         | |- keeps _ (when _ _) => apply kept_when
         | |- keeps _ (modify _) => by apply kept_modify
         | |- keeps _ onLogout => by apply kept_modify
         | |- keeps _ (onBlockStatus _ _) => apply standing_onBlockStatus
         | |- keeps _ (onMaintenanceUpdate _ _) => apply standing_onMaintenanceUpdate
         end.
Qed.

Lemma standing_onerror (r : Render) (salt : string) :
  keeps standing (onerror r salt).
Proof.
  apply kept_bind; [by apply kept_modify|]. intros _.
  apply standing_onMaintenanceUpdate.
Qed.

Lemma standing_run_handler (m : M unit) (s : State) :
  keeps standing m → standing (run_handler m s) = standing s.
Proof.
  intros Hm. unfold run_handler. specialize (Hm s).
  by destruct (m s) as [[[]|e] s'].
Qed.

Lemma rendered_connect (r : Render) (s : State) :
  rendered (connect r s).2 = rendered s.
Proof.
  unfold connect.
  destruct (negb (isActiveTab r)); [done|].
  destruct (negb (enabled r) || isConnectingRef s || current_is_open s); [done|].
  unfold close_current. by destruct (url_ok r), (socketRef s).
Qed.

Lemma rendered_onopen (r : Render) (salt : string) (s : State) :
  rendered (run_handler (onopen r salt) s) = rendered s.
Proof.
  assert (Hk : keeps rendered (onopen r salt)).
  { unfold onopen.
    apply kept_bind; [|intros _].
    { intros s0. pose proof (standing_onMaintenanceUpdate salt (VBool false) s0) as H.
      unfold standing in H. congruence. }
    repeat (apply kept_bind; [by apply kept_modify|intros _]).
    apply kept_bind; [|intros _; by apply kept_modify].
    destruct (userId r) as [u|]; [|apply kept_ret].
    apply kept_when. intros s0. unfold sendRegistration.
    destruct (current_is_open s0 && str_truthy u && negb (hasRegisteredRef s0));
      [|done].
    unfold send_current. cbn. by destruct (socketRef s0). }
  unfold run_handler. specialize (Hk s). by destruct (onopen r salt s) as [[[]|e] s'].
Qed.

(** Socket and timer events leave the latest render as it is. *)
Lemma rendered_socket_event (s : State) (ev : Event) :
  match ev with Rerender _ | Unmount => False | _ => True end →
  rendered (step s ev) = rendered s.
Proof.
  destruct ev as [r'| |i salt|i data salt|i salt|i|t]; try done; intros _;
    cbn [step].
  - destruct (sockets s !! i) as [k|]; [|done].
    destruct (ready_eqb (readyState k) CONNECTING); [|done].
    by rewrite rendered_onopen.
  - destruct (sockets s !! i) as [k|]; [|done].
    destruct (ready_eqb (readyState k) OPEN); [|done].
    pose proof (standing_run_handler _ s (standing_onmessage (owner k) data salt)) as H.
    unfold standing in H. congruence.
  - destruct (sockets s !! i) as [k|]; [|done].
    destruct (ready_eqb (readyState k) CLOSED); [done|].
    rewrite run_onclose. cbn.
    pose proof (standing_run_handler _ (set_socket_state i CLOSED s)
                  (standing_onerror (owner k) salt)) as H.
    unfold standing in H. cbn in H. congruence.
  - destruct (sockets s !! i) as [k|]; [|done].
    destruct (ready_eqb (readyState k) CLOSED); [done|].
    by rewrite run_onclose.
  - destruct (timers s !! t) as [[tm|]|]; try done.
    by rewrite run_connect, rendered_connect.
Qed.

End PageLeadership.

Section PageFollows.
Import Browser WebSocketWrapper.
Context `{L : Libs}.

Lemma rendered_effect_cleanup (s : State) :
  rendered (run_handler effect_cleanup s) = rendered s.
Proof.
  destruct s as [? ? ? sref ? tref ? ? ? ? ? ? ?].
  unfold run_handler, effect_cleanup, close_current.
  by destruct tref, sref.
Qed.

Lemma rendered_effect_connect (r : Render) (s : State) :
  rendered (run_handler (effect_connect r) s) = rendered s.
Proof.
  unfold effect_connect, when. destruct (enabled r); [|done].
  by rewrite run_connect, rendered_connect.
Qed.

Lemma rendered_effect_tab (r : Render) (s : State) :
  rendered (run_handler (effect_tab r) s) = rendered s.
Proof.
  unfold run_handler, effect_tab.
  destruct (isActiveTab r && enabled r).
  - destruct (negb (is_set (socketRef s)) || negb (current_is_open s)); [|done].
    pose proof (connect_ok r s) as Hok. pose proof (rendered_connect r s) as Hr.
    by destruct (connect r s) as [[[]|e] s'].
  - destruct (negb (isActiveTab r)); [|done].
    unfold close_current. by destruct (socketRef s).
Qed.

Lemma rendered_rerender (s : State) (r r' : Render) :
  rendered s = Some r → rendered (step s (Rerender r')) = Some r'.
Proof.
  intros Hr. cbn [step]. rewrite Hr.
  destruct (negb (Bool.eqb (isActiveTab r) (isActiveTab r'))).
  - by rewrite rendered_effect_tab, rendered_effect_connect, rendered_effect_cleanup.
  - destruct (negb (Bool.eqb (enabled r) (enabled r'))); [|done].
    by rewrite rendered_effect_tab.
Qed.

Lemma rendered_unmount (s : State) : rendered (step s Unmount) = None.
Proof. cbn [step]. by destruct (rendered s) eqn:Hr. Qed.

Lemma quiet_socket_event (s : State) (ev : Event) :
  match ev with Rerender _ | Unmount => False | _ => True end →
  Session.quiet s → step s ev = s.
Proof.
  intros Hev (Hs & Ht & _).
  destruct ev as [r'| |i salt|i data salt|i salt|i|t]; try done; cbn [step];
    by rewrite ?Hs, ?Ht.
Qed.

Lemma quiet_unmount (s : State) : Session.quiet s → Session.quiet (step s Unmount).
Proof.
  intros Hq. pose proof Hq as (Hs & Ht & Hc & Hto & Hf & Hi). cbn [step].
  destruct (rendered s); [|done].
  by rewrite effect_cleanup_unconnected.
Qed.

Lemma quiet_mount (r : Render) (blocked maintenance : jsval)
    (store : gmap string string) :
  isActiveTab r = false →
  Session.quiet (mount r blocked maintenance store)
  ∧ rendered (mount r blocked maintenance store) = Some r.
Proof.
  intros Hr. unfold mount.
  by rewrite effect_connect_follower, effect_tab_follower.
Qed.

(** The render in which the tab has become the active one creates the
    first socket. *)
Lemma first_connect_socket (props : Render) (s : State) :
  Session.quiet s → rendered s = Some (Session.render props false) →
  enabled props = true → url_ok props = true →
  sockets (step s (Rerender (Session.render props true)))
  = [mkSocket CONNECTING (Session.render props true) []]
  ∧ socketRef (step s (Rerender (Session.render props true))) = Some 0%nat.
Proof.
  intros (Hs & Ht & Hc & Hto & Hf & Hi) Hr He Hu.
  destruct s as [ic sb sm sref cnt tref icr hrr socks tms store rd lg].
  cbn in Hs, Ht, Hc, Hto, Hf, Hi, Hr. subst.
  unfold step, run_handler, effect_cleanup, effect_connect, effect_tab, when,
    connect, close_current, current_is_open.
  cbn. rewrite He. cbn. rewrite Hu. cbn. done.
Qed.

Lemma render_inj (props : Render) (a b : bool) :
  Session.render props a = Session.render props b → a = b.
Proof. by intros [= ->]. Qed.

Lemma rendered_page_step (props : Render) (p : Session.Page) (ev : Session.Event) :
  rendered (Session.wrapper (Session.step props p ev))
  = match ev with
    | Session.CheckStatus =>
        match rendered (Session.wrapper p) with
        | Some _ => Some (Session.render props
                            (TabManager.isActive (Session.manager p)))
        | None => None
        end
    | Session.Unmount => None
    | _ => rendered (Session.wrapper p)
    end.
Proof.
  destruct ev as [op| | |i salt|i data salt|i salt|i|t]; cbn [Session.step];
    unfold Session.on_wrapper; cbn [Session.wrapper];
    try (by rewrite rendered_socket_event).
  - by destruct (Session.elect op _ _).
  - destruct (rendered (Session.wrapper p)) as [r|] eqn:Hr.
    + by rewrite (rendered_rerender _ _ _ Hr).
    + cbn [step]. by rewrite Hr.
  - destruct (Session.elect _ _ _). cbn [Session.wrapper].
    by rewrite rendered_unmount.
Qed.

Lemma led_step (props : Render) (p : Session.Page) (ev : Session.Event) :
  Session.led props p → Session.led props (Session.step props p ev).
Proof.
  intros [Hr Hq].
  assert (Hsock : ∀ wev,
    match wev with Rerender _ | Unmount => False | _ => True end →
    Session.led props (Session.on_wrapper wev p)).
  { intros wev Hwev. unfold Session.on_wrapper.
    split; cbn [Session.wrapper Session.manager].
    - rewrite rendered_socket_event by done. apply Hr.
    - rewrite rendered_socket_event by done. intros H.
      rewrite quiet_socket_event; auto. }
  destruct ev as [op| | |i salt|i data salt|i salt|i|t]; cbn [Session.step];
    try (by apply Hsock).
  - (* a callback of the manager *)
    pose proof (elect_keeps_active op (Session.manager p) (Session.leaderRecord p))
      as Hact.
    destruct (Session.elect op _ _) as [t ls]. cbn in Hact. split; cbn.
    + intros r Hrr. destruct (Hr r Hrr) as (b & -> & Hb). exists b. auto.
    + intros [Ht | Hrr]; apply Hq; [|by right]. left.
      destruct (TabManager.isActive (Session.manager p)); [|done].
      rewrite Hact in Ht; done.
  - (* the poll *)
    destruct (rendered (Session.wrapper p)) as [r|] eqn:Hrr.
    + destruct (Hr r eq_refl) as (b & -> & Hb). unfold Session.on_wrapper.
      split; cbn [Session.wrapper Session.manager].
      * rewrite (rendered_rerender _ _ _ Hrr). intros r' [= <-]. by eexists.
      * rewrite (rendered_rerender _ _ _ Hrr). intros Ha.
        assert (Ha' : TabManager.isActive (Session.manager p) = false).
        { destruct Ha as [Ha | [= Ha]]; [done|].
          by destruct (TabManager.isActive (Session.manager p)). }
        assert (b = false) as ->.
        { destruct b; [|done]. rewrite Hb in Ha'; done. }
        cbn [step]. rewrite Hrr, Ha'. cbn. rewrite !Bool.eqb_reflx. cbn.
        destruct (Hq (or_introl Ha')) as (? & ? & ? & ? & ? & ?). by repeat split.
    + assert (Hsame : Session.on_wrapper
                        (Rerender (Session.render props
                                     (TabManager.isActive (Session.manager p)))) p
                      = p).
      { unfold Session.on_wrapper. cbn [step]. rewrite Hrr. by destruct p. }
      rewrite Hsame. split; rewrite Hrr; [exact Hr | exact Hq].
  - (* unmounting *)
    pose proof (elect_keeps_active Session.BeforeUnload (Session.manager p)
                  (Session.leaderRecord p)) as Hact.
    destruct (Session.elect _ _ _) as [t ls]. cbn in Hact.
    split; cbn [Session.wrapper Session.manager].
    + by rewrite rendered_unmount.
    + rewrite rendered_unmount. intros [Ht | ?]; [|done].
      apply quiet_unmount, Hq. left.
      destruct (TabManager.isActive (Session.manager p)); [|done].
      rewrite Hact in Ht; done.
Qed.

Lemma led_run (props : Render) (evs : list Session.Event) (p : Session.Page) :
  Session.led props p → Session.led props (Session.run props evs p).
Proof.
  revert p. induction evs as [|ev evs IH]; intros p Hp; [done|].
  cbn. by apply IH, led_step.
Qed.

Lemma led_start (props : Render) (bc_defined ctor_ok : bool) (now : Z)
    (id : TabManager.TabId) (ls : option TabManager.Stored)
    (blocked maintenance : jsval) (store : gmap string string) :
  Session.led props
    (Session.start props bc_defined ctor_ok now id ls blocked maintenance store).
Proof.
  unfold Session.start.
  destruct (TabManager.initialize _ _ _ _ _) as [[[t ls'] es] ll].
  destruct (quiet_mount (Session.render props false) blocked maintenance store
              eq_refl) as [Hq Hr].
  split; cbn.
  - rewrite Hr. intros r [= <-]. by exists false.
  - done.
Qed.


End PageFollows.

(** ** The page: one registration per open connection *)

Section SocketLists.
Import Browser.

Lemma lookup_alter_inv {A} (f : A → A) (c j : nat) (l : list A) (y : A) :
  alter f c l !! j = Some y →
  ∃ x, l !! j = Some x ∧ ((j ≠ c ∧ y = x) ∨ (j = c ∧ y = f x)).
Proof.
  destruct (decide (j = c)) as [->|Hne].
  - rewrite list_lookup_alter_eq. destruct (l !! c) as [x|]; [|done].
    intros [= <-]. exists x. auto.
  - rewrite list_lookup_alter_ne by done. intros Hy. exists y. auto.
Qed.

Lemma lookup_alter_fwd {A} (f : A → A) (c j : nat) (l : list A) (x : A) :
  l !! j = Some x →
  alter f c l !! j = Some (if decide (j = c) then f x else x).
Proof.
  intros Hx. destruct (decide (j = c)) as [->|Hne].
  - by rewrite list_lookup_alter_eq, Hx.
  - by rewrite list_lookup_alter_ne.
Qed.

Lemma close_socket_closed {E} (k : Socket E) :
  readyState (close_socket k) = CLOSED ↔ readyState k = CLOSED.
Proof. unfold close_socket. by destruct (readyState k) eqn:H; cbn; rewrite ?H. Qed.

Lemma close_socket_not_open {E} (k : Socket E) : readyState (close_socket k) ≠ OPEN.
Proof. unfold close_socket. by destruct (readyState k) eqn:H; cbn; rewrite ?H. Qed.

Lemma close_socket_started {E} (k : Socket E) :
  readyState k = OPEN ∨ readyState k = CLOSING →
  readyState (close_socket k) = OPEN ∨ readyState (close_socket k) = CLOSING.
Proof. unfold close_socket. intros [H | H]; rewrite H; cbn; auto. Qed.

Lemma close_socket_owner {E} (k : Socket E) : owner (close_socket k) = owner k.
Proof. unfold close_socket. by destruct (readyState k). Qed.

Lemma pending_after_clear {A} (l : list (option A)) (t t' : nat) (x : A) :
  <[t := None]> l !! t' = Some (Some x) → t' ≠ t ∧ l !! t' = Some (Some x).
Proof.
  destruct (decide (t' = t)) as [->|Hne].
  - intros H. apply list_lookup_insert_Some in H as [(_ & H & _) | (H & _)]; done.
  - by rewrite list_lookup_insert_ne.
Qed.

End SocketLists.

Section PageRegistration.
Import Browser WebSocketWrapper.
Context `{L : Libs}.
Variable props : Render.

#[local] Abbreviation serial := (Session.serial props).

Lemma serial_ext (s s' : State) :
  sockets s' = sockets s → timers s' = timers s →
  hasRegisteredRef s' = hasRegisteredRef s →
  serial s → serial s'.
Proof.
  intros Hs Ht Hf [H1 H2 H3 H4 H5 H6 H7 H8].
  split; rewrite ?Hs, ?Ht, ?Hf; done.
Qed.

Lemma serial_quiet (s : State) : Session.quiet s → serial s.
Proof.
  intros (Hs & Ht & _ & _ & Hf & _).
  split; rewrite ?Hs, ?Ht, ?Hf; try done.
Qed.

(** [close()] on one socket. *)
Lemma serial_close (s s' : State) (c : nat) :
  sockets s' = alter close_socket c (sockets s) → timers s' = timers s →
  hasRegisteredRef s' = hasRegisteredRef s →
  serial s → serial s'.
Proof.
  intros Hs Ht Hf [H1 H2 H3 H4 H5 H6 H7 H8].
  split; rewrite ?Hs, ?Ht, ?Hf; try done.
  - intros i k Hk. apply lookup_alter_inv in Hk as (x & Hx & [[_ ->] | [_ ->]]);
      rewrite ?close_socket_owner; by apply (H1 i).
  - intros t tm i k Htm Hk.
    apply lookup_alter_inv in Hk as (x & Hx & [[_ ->] | [_ ->]]);
      rewrite ?close_socket_closed; by apply (H3 t tm i).
  - intros i j ki kj Hi Hj Hci Hcj.
    apply lookup_alter_inv in Hi as (xi & Hxi & Hi).
    apply lookup_alter_inv in Hj as (xj & Hxj & Hj).
    apply (H4 i j xi xj Hxi Hxj).
    + destruct Hi as [[_ ->] | [_ ->]]; [done|]. by rewrite <- close_socket_closed.
    + destruct Hj as [[_ ->] | [_ ->]]; [done|]. by rewrite <- close_socket_closed.
  - intros Hflag. destruct (H6 Hflag) as (i & k & Hk & Hst).
    exists i. eexists. split; [by apply lookup_alter_fwd|].
    destruct (decide (i = c)); [by apply close_socket_started|done].
  - intros i k Hk Hopen.
    apply lookup_alter_inv in Hk as (x & Hx & [[_ ->] | [_ ->]]).
    + by apply (H7 i).
    + by destruct (close_socket_not_open x).
  - intros i k Hk Hopen.
    apply lookup_alter_inv in Hk as (x & Hx & [[_ ->] | [_ ->]]).
    + by apply (H8 i x).
    + by destruct (close_socket_not_open x).
Qed.

Lemma serial_close_current (s : State) : serial s → serial (close_current s).
Proof.
  intros Hs. unfold close_current. destruct (socketRef s) as [c|]; [|done].
  by apply (serial_close s _ c).
Qed.

Lemma close_current_all_closed (s : State) :
  (∀ i k, sockets s !! i = Some k → readyState k = CLOSED) →
  ∀ i k, sockets (close_current s) !! i = Some k → readyState k = CLOSED.
Proof.
  intros Hall i k. unfold close_current.
  destruct (socketRef s) as [c|]; [|apply Hall]. cbn.
  intros Hk. apply lookup_alter_inv in Hk as (x & Hx & [[_ ->] | [_ ->]]);
    rewrite ?close_socket_closed; by apply (Hall i).
Qed.

(** [connect] while every socket is closed and no timer is pending. *)
Lemma serial_connect (s : State) :
  serial s →
  (∀ i k, sockets s !! i = Some k → readyState k = CLOSED) →
  (∀ t tm, timers s !! t ≠ Some (Some tm)) →
  serial (connect (Session.render props true) s).2.
Proof.
  intros Hs Hall Hno. unfold connect. cbn [isActiveTab Session.render negb].
  destruct (negb (enabled (Session.render props true)) || isConnectingRef s
            || current_is_open s); [done|].
  pose proof (serial_close_current s Hs) as Hs1.
  pose proof (close_current_all_closed s Hall) as Hall1.
  assert (Ht1 : timers (close_current s) = timers s).
  { unfold close_current. by destruct (socketRef s). }
  destruct (url_ok (Session.render props true)); cbn [snd];
    [|by apply (serial_ext (close_current s))].
  destruct Hs1 as [H1 H2 H3 H4 H5 H6 H7 H8].
  split; cbn.
  - intros i k [Hk | [_ Hk]]%lookup_app_Some; [by apply (H1 i)|].
    by apply list_lookup_singleton_Some in Hk as [_ <-].
  - done.
  - intros t tm i k Htm. rewrite Ht1 in Htm. by destruct (Hno t tm).
  - intros i j ki kj [Hi | [Hli Hi]]%lookup_app_Some
      [Hj | [Hlj Hj]]%lookup_app_Some Hci Hcj.
    + by destruct Hci; apply (Hall1 i).
    + by destruct Hci; apply (Hall1 i).
    + by destruct Hcj; apply (Hall1 j).
    + apply list_lookup_singleton_Some in Hi as [Hi _].
      apply list_lookup_singleton_Some in Hj as [Hj _]. lia.
  - done.
  - intros Hflag. destruct (H6 Hflag) as (i & k & Hk & Hst).
    exists i, k. split; [|done]. by apply lookup_app_l_Some.
  - intros i k [Hk | [_ Hk]]%lookup_app_Some Hopen; [by apply (H7 i)|].
    apply list_lookup_singleton_Some in Hk as [_ <-]. done.
  - intros i k [Hk | [_ Hk]]%lookup_app_Some Hopen; [by apply (H8 i k)|].
    apply list_lookup_singleton_Some in Hk as [_ <-]. done.
Qed.

(** The close event of the one socket that was not closed. *)
Lemma serial_closed (s s' : State) (i : nat) (k : Socket Render) :
  serial s → sockets s !! i = Some k → readyState k ≠ CLOSED →
  sockets s' = alter (set_ready CLOSED) i (sockets s) →
  timers s' = timers s ++ [Some (mkTimer 1000 (owner k))] →
  hasRegisteredRef s' = false →
  serial s'.
Proof.
  intros [H1 H2 H3 H4 H5 H6 H7 H8] Hk Hlive Hs Ht Hf.
  assert (Hall : ∀ j kj, sockets s' !! j = Some kj → readyState kj = CLOSED).
  { intros j kj. rewrite Hs. intros Hj.
    apply lookup_alter_inv in Hj as (x & Hx & [[Hne ->] | [_ ->]]); [|done].
    destruct (decide (readyState x = CLOSED)) as [|Hx']; [done|].
    by destruct Hne; apply (H4 j i x k). }
  assert (Hno : ∀ t tm, timers s !! t ≠ Some (Some tm)).
  { intros t tm Htm. apply Hlive. by apply (H3 t tm i k). }
  assert (Hnew : ∀ t tm, timers s' !! t = Some (Some tm) →
                         t = length (timers s) ∧ tm = mkTimer 1000 (owner k)).
  { intros t tm. rewrite Ht. intros [Htm | [Hge Htm]]%lookup_app_Some;
      [by destruct (Hno t tm)|].
    apply list_lookup_singleton_Some in Htm as [Hlen [= <-]]. split; [lia|done]. }
  split; rewrite ?Hf; try done.
  - intros j kj. rewrite Hs. intros Hj.
    apply lookup_alter_inv in Hj as (x & Hx & [[_ ->] | [_ ->]]); cbn;
      by apply (H1 j).
  - intros t tm Htm. destruct (Hnew t tm Htm) as [_ ->]. cbn. by apply (H1 i).
  - intros t tm j kj _. apply Hall.
  - intros j j' kj kj' Hj _ Hcj. by destruct Hcj; apply (Hall j).
  - intros t t' tm tm' Htm Htm'.
    destruct (Hnew t tm Htm) as [-> _]. by destruct (Hnew t' tm' Htm') as [-> _].
  - intros j kj Hj Hopen. rewrite (Hall j kj Hj) in Hopen. done.
  - intros j kj Hj Hopen. rewrite (Hall j kj Hj) in Hopen. done.
Qed.

End PageRegistration.

Section PageSteps.
Import Browser WebSocketWrapper.
Context `{L : Libs}.
Variable props : Render.

#[local] Abbreviation serial := (Session.serial props).

Lemma alter_twice_insert {A} (f g : A → A) (i : nat) (l : list A) (x : A) :
  l !! i = Some x → alter f i (alter g i l) = <[i := f (g x)]> l.
Proof.
  revert i. induction l as [|y l IH]; intros i Hx; [done|].
  destruct i as [|i]; cbn in *.
  - by injection Hx as ->.
  - f_equal. by apply IH.
Qed.

Lemma alter_insert {A} (g : A → A) (i : nat) (l : list A) (x : A) :
  l !! i = Some x → alter g i l = <[i := g x]> l.
Proof.
  revert i. induction l as [|y l IH]; intros i Hx; [done|].
  destruct i as [|i]; cbn in *.
  - by injection Hx as ->.
  - f_equal. by apply IH.
Qed.

(** [ws.onopen] on the socket that was connecting, the flag being clear:
    the socket is open and has sent the registration, if there is an
    identity. *)
Lemma onopen_registers (HL : LibsLaws L) (s : State) (i : nat)
    (k : Socket Render) (salt : string) :
  wired s → sockets s !! i = Some k → readyState k = CONNECTING →
  hasRegisteredRef s = false →
  sockets (run_handler (onopen (owner k) salt) (set_socket_state i OPEN s))
  = <[i := mkSocket OPEN (owner k) (Session.registration (owner k))]> (sockets s)
  ∧ timers (run_handler (onopen (owner k) salt) (set_socket_state i OPEN s))
    = timers s
  ∧ hasRegisteredRef
      (run_handler (onopen (owner k) salt) (set_socket_state i OPEN s))
    = bool_decide (Session.registration (owner k) ≠ []).
Proof.
  intros Hs Hk Hcon Hflag.
  assert (Hcur : socketRef s = Some i).
  { apply (current_of_live_socket s i k); [done..|]. unfold idle. rewrite Hcon.
    by intros [|]. }
  assert (Hsent : sent k = []).
  { pose proof (Forall_lookup_1 _ _ _ _ (wi_sent s Hs) Hk) as [H|(u & _ & _ & H & _)];
      [done|by rewrite Hcon in H]. }
  destruct (onMaintenanceUpdate_ok HL salt (VBool false) (set_socket_state i OPEN s))
    as (c & Hm & _ & _).
  assert (Hrun :
    run_handler (onopen (owner k) salt) (set_socket_state i OPEN s)
    = (onopen_rest (owner k)
         (set_sessionStorage
            (<["maintenance" := c]> (sessionStorage (set_socket_state i OPEN s)))
            (set_showMaintenanceScreen (VBool false)
               (set_socket_state i OPEN s)))).2).
  { unfold run_handler, onopen. unfold mbind at 1, M_bind at 1. rewrite Hm.
    fold (onopen_rest (owner k)).
    destruct (onopen_rest_keeps_flag (owner k)
                (set_sessionStorage
                   (<["maintenance" := c]>
                      (sessionStorage (set_socket_state i OPEN s)))
                   (set_showMaintenanceScreen (VBool false)
                      (set_socket_state i OPEN s)))) as (H1 & _).
    destruct (onopen_rest (owner k) _) as [[[]|e] s']; [done|discriminate]. }
  rewrite Hrun. clear Hrun Hm.
  unfold onopen_rest, mbind, M_bind, modify, when, sendRegistration, mret, M_ret,
    Session.registration.
  destruct (userId (owner k)) as [u|].
  - destruct (str_truthy u) eqn:Hu.
    + unfold current_is_open, send_current.
      cbn [socketRef sockets hasRegisteredRef set_isConnectingRef
           set_reconnectCountRef set_isConnected set_sessionStorage
           set_showMaintenanceScreen set_socket_state set_sockets].
      rewrite Hcur, list_lookup_alter_eq, Hk, Hflag. cbn.
      split; [|done].
      rewrite (alter_twice_insert _ _ i (sockets s) k Hk).
      unfold push_frame, set_ready. cbn. by rewrite Hsent.
    + cbn. split; [|done]. rewrite (alter_insert _ i (sockets s) k Hk).
      unfold set_ready. by rewrite Hsent.
  - cbn. split; [|done]. rewrite (alter_insert _ i (sockets s) k Hk).
    unfold set_ready. by rewrite Hsent.
Qed.

Lemma registration_render (b : bool) :
  Session.registration (Session.render props b) = Session.registration props.
Proof. reflexivity. Qed.

(** While a socket is connecting the registered flag is clear. *)
Lemma connecting_flag_clear (s : State) (i : nat) (k : Socket Render) :
  serial s → sockets s !! i = Some k → readyState k = CONNECTING →
  hasRegisteredRef s = false.
Proof.
  intros [H1 H2 H3 H4 H5 H6 H7 H8] Hk Hcon.
  destruct (hasRegisteredRef s) eqn:Hf; [|done].
  destruct (H6 eq_refl) as (j & kj & Hj & Hst).
  assert (i = j) as <-.
  { apply (H4 i j k kj); try done; [by rewrite Hcon|].
    by destruct Hst as [-> | ->]. }
  rewrite Hk in Hj. injection Hj as <-. rewrite Hcon in Hst. by destruct Hst.
Qed.

(** The open event of the connecting socket: the socket is open and has
    sent the registration. *)
Lemma open_event_registers (HL : LibsLaws L) (s : State) (i : nat)
    (k : Socket Render) (salt : string) :
  wired s → serial s → sockets s !! i = Some k → readyState k = CONNECTING →
  sockets (step s (SockOpen i salt)) !! i
  = Some (mkSocket OPEN (Session.render props true) (Session.registration props)).
Proof.
  intros Hw Hs Hk Hcon. cbn [step]. rewrite Hk, Hcon. cbn [ready_eqb].
  destruct (onopen_registers HL s i k salt Hw Hk Hcon
              (connecting_flag_clear s i k Hs Hk Hcon)) as (-> & _ & _).
  rewrite (Session.sr_owner props s Hs i k Hk), registration_render.
  apply list_lookup_insert_eq. by eapply lookup_lt_Some.
Qed.

Lemma serial_opened (HL : LibsLaws L) (s : State) (i : nat) (k : Socket Render)
    (salt : string) :
  wired s → serial s → sockets s !! i = Some k → readyState k = CONNECTING →
  serial (run_handler (onopen (owner k) salt) (set_socket_state i OPEN s)).
Proof.
  intros Hw Hs Hk Hcon. pose proof Hs as [H1 H2 H3 H4 H5 H6 H7 H8].
  pose proof (connecting_flag_clear s i k Hs Hk Hcon) as Hflag.
  destruct (onopen_registers HL s i k salt Hw Hk Hcon Hflag) as (Hsock & Ht & Hf).
  rewrite (H1 i k Hk) in Hsock, Hf, Ht |- *.
  rewrite registration_render in Hsock, Hf.
  assert (Hlook : ∀ j kj,
    sockets (run_handler (onopen (Session.render props true) salt)
               (set_socket_state i OPEN s)) !! j
    = Some kj →
    (j = i ∧ kj = mkSocket OPEN (Session.render props true)
                    (Session.registration props))
    ∨ (j ≠ i ∧ sockets s !! j = Some kj ∧ readyState kj = CLOSED)).
  { intros j kj. rewrite Hsock. destruct (decide (j = i)) as [->|Hne].
    - rewrite list_lookup_insert_eq by (by eapply lookup_lt_Some).
      intros [= <-]. by left.
    - rewrite list_lookup_insert_ne by done. intros Hj. right.
      split; [done|]. split; [done|].
      destruct (decide (readyState kj = CLOSED)) as [|Hlive]; [done|].
      destruct Hne. apply (H4 j i kj k); try done. by rewrite Hcon. }
  split; rewrite ?Ht, ?Hf.
  - intros j kj Hj. destruct (Hlook j kj Hj) as [[-> ->] | (_ & Hj' & _)];
      [done|by apply (H1 j)].
  - done.
  - intros t tm j kj Htm _. pose proof (H3 t tm i k Htm Hk) as Hc.
    by rewrite Hcon in Hc.
  - intros j j' kj kj' Hj Hj' Hcj Hcj'.
    destruct (Hlook j kj Hj) as [[-> _] | (_ & _ & ?)]; [|done].
    by destruct (Hlook j' kj' Hj') as [[-> _] | (_ & _ & ?)].
  - done.
  - intros _. exists i, (mkSocket OPEN (Session.render props true)
                            (Session.registration props)).
    split; [|by left].
    rewrite Hsock. apply list_lookup_insert_eq. by eapply lookup_lt_Some.
  - intros j kj Hj Hopen.
    destruct (Hlook j kj Hj) as [[-> ->] | (_ & _ & Hc)]; [done|].
    by rewrite Hc in Hopen.
  - done.
Qed.

Lemma serial_clear (s : State) (t : nat) :
  serial s → serial (set_timers (<[t := None]> (timers s)) s).
Proof.
  intros [H1 H2 H3 H4 H5 H6 H7 H8]. split; cbn; try done.
  - intros t' tm [_ Htm]%pending_after_clear. by apply (H2 t').
  - intros t' tm i k [_ Htm]%pending_after_clear. by apply (H3 t' tm).
  - intros t1 t2 tm1 tm2 [_ Htm1]%pending_after_clear [_ Htm2]%pending_after_clear.
    by apply (H5 t1 t2 tm1 tm2).
Qed.

Lemma serial_timer (s : State) (t : nat) (tm : Timer Render) :
  serial s → timers s !! t = Some (Some tm) →
  serial (run_handler (connect (env tm)) (set_timers (<[t := None]> (timers s)) s)).
Proof.
  intros Hs Htm. pose proof Hs as [H1 H2 H3 H4 H5 H6 H7 H8].
  rewrite run_connect, (H2 t tm Htm). apply serial_connect.
  - by apply serial_clear.
  - intros i k. cbn. by apply (H3 t tm).
  - intros t' tm'. cbn. intros [Hne Htm']%pending_after_clear.
    apply Hne. by apply (H5 t' t tm' tm).
Qed.

Lemma serial_unmount (s : State) : wired s → serial s → serial (step s Unmount).
Proof.
  intros Hw Hs. cbn [step]. destruct (rendered s); [|done].
  apply (serial_ext props (close_current s)); [..|by apply serial_close_current].
  all: unfold run_handler, effect_cleanup; rewrite (wi_timeout s Hw); cbn;
    unfold close_current; by destruct (socketRef s).
Qed.

(** [connect] where nothing was ever connected: it creates at most one
    socket, and then [isConnectingRef] is set. *)
Lemma connect_from_nothing (r : Render) (s : State) :
  sockets s = [] → timers s = [] →
  timers (connect r s).2 = []
  ∧ (sockets (connect r s).2 = [] ∨ isConnectingRef (connect r s).2 = true).
Proof.
  intros Hs Ht. unfold connect.
  destruct (negb (isActiveTab r)); [by auto|].
  destruct (negb (enabled r) || isConnectingRef s || current_is_open s); [by auto|].
  assert (Hs1 : sockets (close_current s) = []).
  { unfold close_current. destruct (socketRef s); cbn; by rewrite Hs. }
  assert (Ht1 : timers (close_current s) = []).
  { unfold close_current. by destruct (socketRef s). }
  destruct (url_ok r); cbn; auto.
Qed.

Lemma serial_connect_again (s : State) :
  serial s → timers s = [] →
  sockets s = [] ∨ isConnectingRef s = true →
  serial (connect (Session.render props true) s).2.
Proof.
  intros Hs Ht [Hnil | Hcon].
  - apply serial_connect; [done|..].
    + intros i k. by rewrite Hnil.
    + intros t tm. by rewrite Ht.
  - unfold connect. cbn [isActiveTab Session.render negb].
    by rewrite Hcon, orb_true_r.
Qed.

(** The render in which the tab has become the active one. *)
Lemma serial_first_connect (s : State) :
  Session.quiet s → rendered s = Some (Session.render props false) →
  serial (step s (Rerender (Session.render props true))).
Proof.
  intros Hq Hr. pose proof Hq as (Hs & Ht & Hc & Hto & Hf & Hi).
  cbn [step]. rewrite Hr. cbn [isActiveTab Session.render Bool.eqb negb].
  rewrite effect_cleanup_unconnected by done.
  remember (set_reconnectCountRef 0
              (set_isConnectingRef false
                 (set_rendered (Some (Session.render props true)) s))) as s1
    eqn:Hs1.
  assert (Hq1 : Session.quiet s1) by (by subst s1).
  clear Hs1 Hq Hs Ht Hc Hto Hf Hi Hr.
  destruct Hq1 as (Hs & Ht & Hc & Hto & Hf & Hi).
  assert (H1 : serial s1) by (by apply serial_quiet).
  remember (run_handler (effect_connect (Session.render props true)) s1) as s2
    eqn:Hs2.
  assert (H2 : serial s2 ∧ timers s2 = []
               ∧ (sockets s2 = [] ∨ isConnectingRef s2 = true)).
  { subst s2. unfold effect_connect, when.
    destruct (enabled (Session.render props true)).
    - rewrite run_connect.
      destruct (connect_from_nothing (Session.render props true) s1 Hs Ht)
        as [Ht2 Hor].
      split; [|done]. apply serial_connect_again; auto.
    - unfold run_handler. cbn. auto. }
  clear Hs2. destruct H2 as (H2 & Ht2 & Hor).
  unfold run_handler, effect_tab. cbn [isActiveTab Session.render andb negb].
  destruct (enabled (Session.render props true)); [|done].
  destruct (negb (is_set (socketRef s2)) || negb (current_is_open s2)); [|done].
  pose proof (connect_ok (Session.render props true) s2) as Hok.
  pose proof (serial_connect_again s2 H2 Ht2 Hor) as H3.
  by destruct (connect (Session.render props true) s2) as [[[]|e] s3].
Qed.

End PageSteps.

Section PageRuns.
Import Browser WebSocketWrapper.
Context `{L : Libs}.
Variable HL : LibsLaws L.
Variable props : Render.

Lemma serial_message (s : State) (r : Render) (data salt : string) :
  Session.serial props s →
  Session.serial props (run_handler (onmessage r data salt) s).
Proof.
  pose proof (wiring_run_handler (onmessage r data salt) s) as Hw.
  rewrite (keeps_onmessage r data salt s) in Hw.
  pose proof (standing_run_handler _ s (standing_onmessage r data salt)) as Hst.
  unfold wiring in Hw. unfold standing in Hst.
  injection Hw as _ Hs Ht _ _. injection Hst as Hf _.
  by apply serial_ext.
Qed.

Lemma serial_failed (s : State) (i : nat) (k : Socket Render) (salt : string) :
  Session.serial props s → sockets s !! i = Some k → readyState k ≠ CLOSED →
  Session.serial props
    (run_handler (onclose (owner k))
       (run_handler (onerror (owner k) salt) (set_socket_state i CLOSED s))).
Proof.
  intros Hs Hk Hlive. rewrite run_onclose.
  pose proof (wiring_run_handler (onerror (owner k) salt)
                (set_socket_state i CLOSED s)) as Hw.
  rewrite (keeps_onerror (owner k) salt (set_socket_state i CLOSED s)) in Hw.
  unfold wiring in Hw. injection Hw as _ Hsock Ht _ _.
  apply (serial_closed props s _ i k Hs Hk Hlive); cbn; by rewrite ?Hsock, ?Ht.
Qed.

Lemma serial_close_event (s : State) (i : nat) (k : Socket Render) :
  Session.serial props s → sockets s !! i = Some k → readyState k ≠ CLOSED →
  Session.serial props
    (run_handler (onclose (owner k)) (set_socket_state i CLOSED s)).
Proof.
  intros Hs Hk Hlive. rewrite run_onclose.
  by apply (serial_closed props s _ i k Hs Hk Hlive).
Qed.

Lemma ready_not_closed (st : ReadyState) : ready_eqb st CLOSED = false → st ≠ CLOSED.
Proof. by destruct st. Qed.

(** The socket and timer events. *)
Lemma serial_socket_event (s : State) (ev : Event) :
  match ev with Rerender _ => False | _ => True end →
  wired s → Session.serial props s → Session.serial props (step s ev).
Proof.
  intros Hev Hw Hs.
  destruct ev as [r'| |i salt|i data salt|i salt|i|t]; try done.
  - by apply serial_unmount.
  - cbn [step]. destruct (sockets s !! i) as [k|] eqn:Hk; [|done].
    destruct (readyState k) eqn:Hst; cbn; try done.
    by apply serial_opened.
  - cbn [step]. destruct (sockets s !! i) as [k|] eqn:Hk; [|done].
    destruct (ready_eqb (readyState k) OPEN); [|done].
    by apply serial_message.
  - cbn [step]. destruct (sockets s !! i) as [k|] eqn:Hk; [|done].
    destruct (ready_eqb (readyState k) CLOSED) eqn:Hst; [done|].
    apply serial_failed; [done..|]. by apply ready_not_closed.
  - cbn [step]. destruct (sockets s !! i) as [k|] eqn:Hk; [|done].
    destruct (ready_eqb (readyState k) CLOSED) eqn:Hst; [done|].
    apply serial_close_event; [done..|]. by apply ready_not_closed.
  - cbn [step]. destruct (timers s !! t) as [[tm|]|] eqn:Ht; try done.
    by apply serial_timer.
Qed.

Lemma serial_poll (p : Session.Page) :
  Session.led props p → Session.serial props (Session.wrapper p) →
  Session.serial props
    (step (Session.wrapper p)
       (Rerender (Session.render props (TabManager.isActive (Session.manager p))))).
Proof.
  intros [Hr Hq] Hs.
  destruct (rendered (Session.wrapper p)) as [r|] eqn:Hrr;
    [|by cbn [step]; rewrite Hrr].
  destruct (Hr r eq_refl) as (b & -> & Hb).
  destruct b.
  - (* the latest render was made as the active tab: nothing changes *)
    rewrite (Hb eq_refl). cbn [step]. rewrite Hrr. cbn.
    rewrite !Bool.eqb_reflx. cbn. by apply (serial_ext props (Session.wrapper p)).
  - destruct (TabManager.isActive (Session.manager p)) eqn:Ha.
    + apply serial_first_connect; [|done]. apply Hq. by right.
    + cbn [step]. rewrite Hrr. cbn. rewrite !Bool.eqb_reflx. cbn.
      by apply (serial_ext props (Session.wrapper p)).
Qed.

Lemma page_step (p : Session.Page) (ev : Session.Event) :
  Session.led props p ∧ wired (Session.wrapper p)
  ∧ Session.serial props (Session.wrapper p) →
  Session.led props (Session.step props p ev)
  ∧ wired (Session.wrapper (Session.step props p ev))
  ∧ Session.serial props (Session.wrapper (Session.step props p ev)).
Proof.
  intros (Hled & Hw & Hs). split; [by apply led_step|].
  destruct ev as [op| | |i salt|i data salt|i salt|i|t]; cbn [Session.step];
    unfold Session.on_wrapper; cbn [Session.wrapper];
    try (split; [by apply wired_step | by apply serial_socket_event]).
  - by destruct (Session.elect op _ _).
  - split; [by apply wired_step | by apply serial_poll].
  - destruct (Session.elect _ _ _). cbn [Session.wrapper].
    split; [by apply wired_step | by apply serial_socket_event].
Qed.

Lemma page_run (evs : list Session.Event) (p : Session.Page) :
  Session.led props p ∧ wired (Session.wrapper p)
  ∧ Session.serial props (Session.wrapper p) →
  Session.led props (Session.run props evs p)
  ∧ wired (Session.wrapper (Session.run props evs p))
  ∧ Session.serial props (Session.wrapper (Session.run props evs p)).
Proof.
  revert p. induction evs as [|ev evs IH]; intros p Hp; [done|].
  cbn. by apply IH, page_step.
Qed.

Lemma page_start (bc_defined ctor_ok : bool) (now : Z) (id : TabManager.TabId)
    (ls : option TabManager.Stored) (blocked maintenance : jsval)
    (store : gmap string string) :
  let p := Session.start props bc_defined ctor_ok now id ls blocked maintenance
             store in
  Session.led props p ∧ wired (Session.wrapper p)
  ∧ Session.serial props (Session.wrapper p).
Proof.
  cbn zeta. split; [apply led_start|].
  unfold Session.start.
  destruct (TabManager.initialize _ _ _ _ _) as [[[t ls'] es] ll].
  cbn [Session.wrapper]. split; [apply wired_mount|].
  apply serial_quiet. by apply quiet_mount.
Qed.


End PageRuns.



(** ** Inbound frames, and the flags across a reload *)

Lemma demo_laws : LibsLaws Demo.libs.
Proof.
  split.
  - intros v. cbn [JSON_parse JSON_stringify Demo.libs]. unfold Demo.parse.
    change (Toy.stringify (VStr v))
      with (String (Ascii.ascii_of_nat 34) (v +:+ Toy.quote)).
    cbn [String.eqb Ascii.eqb Ascii.ascii_of_nat Ascii.ascii_of_pos Pos.of_succ_nat
         Pos.succ Bool.eqb].
    apply (json_string_roundtrip (LibsLaws := toy_laws) v).
  - intros v. cbn. discriminate.
  - intros salt plain key. by eexists.
  - intros salt plain key c [= <-]. discriminate.
  - intros salt plain key c [= <-]. cbn. unfold Toy.decrypt.
    by rewrite Ascii.eqb_refl.
Qed.

Section Frames.
Import Browser WebSocketWrapper.
Context `{L : Libs}.

Lemma get_prop_ok (d : jsval) (k k' : string) (v : jsval) :
  get_prop d k = Ok v → ∃ v', get_prop d k' = Ok v'.
Proof. destruct d; cbn; try done; eauto. Qed.


(** *** The two screen flags across a reload *)

Lemma onBlockStatus_ok (HL : LibsLaws L) (salt : string) (status : jsval)
    (s : State) :
  ∃ c, onBlockStatus salt status s
       = (Ok (), set_sessionStorage (<["accountBlocked" := c]> (sessionStorage s))
                   (set_showBlockedScreen (VBool (is_str status "Blocked")) s))
       ∧ str_truthy c = true
       ∧ SecureStorage.decryptData c None
         = Ok (VStr (JSON_stringify
                       (VObj [("isBlocked", VBool (is_str status "Blocked"))]))).
Proof.
  destruct (setItem_stores HL salt "accountBlocked"
              (JSON_stringify (VObj [("isBlocked", VBool (is_str status "Blocked"))]))
              (sessionStorage s)) as (c & Hset & Hc & Hd).
  exists c. split; [|done].
  unfold onBlockStatus, mbind, M_bind, modify, storage_setItem.
  cbn [sessionStorage set_showBlockedScreen]. by rewrite Hset.
Qed.

Lemma initial_flag_of_stored (field : string) (c : bool) :
  JSON_parse (JSON_stringify (VObj [(field, VBool c)]))
  = Some (VObj [(field, VBool c)]) →
  JSON_parse "" = None →
  initial_flag field (VStr (JSON_stringify (VObj [(field, VBool c)])))
  = Ok (VBool c).
Proof.
  intros Hobj Hempty. unfold initial_flag. cbn [truthy to_text].
  destruct (String.eqb_spec (JSON_stringify (VObj [(field, VBool c)])) "") as [He|_].
  - rewrite He, Hempty in Hobj. discriminate.
  - cbn [negb]. rewrite Hobj. cbn. by rewrite String.eqb_refl.
Qed.

(** X18.  The flags survive a reload (lawful libraries, and a [JSON] that
    reads back an object with one boolean field and rejects the empty
    text): after a block status and a maintenance status were handled, the
    first render of a new instance over the same session storage starts
    with the same two flags, and its two reads remove nothing. *)
Theorem screen_flags_survive_reload (HL : LibsLaws L) (salt1 salt2 : string)
    (status : jsval) (b : bool) (s : State) (r : Render) :
  (∀ f c, f = "isBlocked" ∨ f = "status" →
          JSON_parse (JSON_stringify (VObj [(f, VBool c)]))
          = Some (VObj [(f, VBool c)])) →
  JSON_parse "" = None →
  let s1 := (onBlockStatus salt1 status s).2 in
  let s2 := (onMaintenanceUpdate salt2 (VBool b) s1).2 in
  showBlockedScreen s2 = VBool (is_str status "Blocked")
  ∧ showMaintenanceScreen s2 = VBool b
  ∧ first_render r (sessionStorage s2)
    = Ok (mount r (showBlockedScreen s2) (showMaintenanceScreen s2)
            (sessionStorage s2)).
Proof.
  intros Hobj Hempty. cbn zeta.
  destruct (onBlockStatus_ok HL salt1 status s) as (c1 & -> & Hc1 & Hd1).
  cbn [snd].
  destruct (onMaintenanceUpdate_ok HL salt2 (VBool b)
              (set_sessionStorage (<["accountBlocked" := c1]> (sessionStorage s))
                 (set_showBlockedScreen (VBool (is_str status "Blocked")) s)))
    as (c2 & -> & Hc2 & Hd2).
  cbn [snd sessionStorage set_sessionStorage set_showMaintenanceScreen
       set_showBlockedScreen showBlockedScreen showMaintenanceScreen].
  split; [done|]. split; [done|].
  unfold first_render, SecureStorage.getItem.
  rewrite lookup_insert_ne, lookup_insert_eq by done.
  rewrite Hc1. cbn [negb]. rewrite Hd1.
  rewrite (initial_flag_of_stored "isBlocked") by auto.
  rewrite lookup_insert_eq, Hc2. cbn [negb]. rewrite Hd2.
  by rewrite (initial_flag_of_stored "status") by auto.
Qed.

End Frames.


Lemma screen_flags_survive_reload_witness :
  let s1 := (WebSocketWrapper.onBlockStatus (L := Demo.libs) "salt"
               (VStr "Blocked") Scenario.open_session).2 in
  let s2 := (WebSocketWrapper.onMaintenanceUpdate (L := Demo.libs) "salt"
               (VBool true) s1).2 in
  WebSocketWrapper.first_render (L := Demo.libs) Scenario.leader
    (WebSocketWrapper.sessionStorage s2)
  = Ok (WebSocketWrapper.mount Scenario.leader
          (WebSocketWrapper.showBlockedScreen s2)
          (WebSocketWrapper.showMaintenanceScreen s2)
          (WebSocketWrapper.sessionStorage s2)).
Proof.
  cbn zeta.
  apply (screen_flags_survive_reload (L := Demo.libs) demo_laws "salt" "salt"
           (VStr "Blocked") true Scenario.open_session Scenario.leader).
  - intros f c [-> | ->]; destruct c; reflexivity.
  - reflexivity.
Defined.

(** ** Messages of the children *)

Section SendMessage.
Import Browser WebSocketWrapper.
Context `{L : Libs}.

Lemma onopen_rest_connected (r : Render) (s : State) :
  isConnected (onopen_rest r s).2 = true.
Proof.
  unfold onopen_rest, mbind, M_bind, modify, when, sendRegistration, mret, M_ret.
  destruct (userId r) as [u|]; [|done].
  destruct (str_truthy u); [|done]. cbn.
  match goal with
  | |- context [if ?b then _ else _] => destruct b; cbn
  end; [|done].
  unfold send_current. cbn. by destruct (socketRef s).
Qed.

Lemma lookup_push_frame (frame : string) (c i : nat) (l : list (Socket Render))
    (k : Socket Render) :
  l !! i = Some k →
  ∃ k', alter (push_frame frame) c l !! i = Some k'
        ∧ readyState k' = readyState k.
Proof.
  intros Hk. destruct (decide (i = c)) as [->|Hne].
  - rewrite list_lookup_alter_eq, Hk. by eexists.
  - rewrite list_lookup_alter_ne by done. by exists k.
Qed.

(** The state after the open event of the current socket. *)
Lemma after_onopen (HL : LibsLaws L) (s : State) (i : nat) (k : Socket Render)
    (salt : string) :
  wired s → sockets s !! i = Some k → readyState k = CONNECTING →
  let s1 := step s (SockOpen i salt) in
  socketRef s1 = Some i ∧ isConnected s1 = true
  ∧ ∃ k1, sockets s1 !! i = Some k1 ∧ readyState k1 = OPEN.
Proof.
  intros Hs Hk Hcon. cbn zeta. cbn [step]. rewrite Hk, Hcon. cbn [ready_eqb].
  assert (Hcur : socketRef s = Some i).
  { apply (current_of_live_socket s i k); [done..|].
    unfold idle. rewrite Hcon. by intros [|]. }
  destruct (onMaintenanceUpdate_ok HL salt (VBool false) (set_socket_state i OPEN s))
    as (c & Hm & _ & _).
  set (s2 := set_sessionStorage
               (<["maintenance" := c]> (sessionStorage (set_socket_state i OPEN s)))
               (set_showMaintenanceScreen (VBool false)
                  (set_socket_state i OPEN s))) in *.
  assert (Hrun : run_handler (onopen (owner k) salt) (set_socket_state i OPEN s)
                 = (onopen_rest (owner k) s2).2).
  { unfold run_handler, onopen. unfold mbind at 1, M_bind at 1. rewrite Hm.
    fold (onopen_rest (owner k)).
    destruct (onopen_rest_wiring (owner k) s2) as (Hok & _).
    destruct (onopen_rest (owner k) s2) as [[[]|e] s']; [done|discriminate]. }
  rewrite Hrun.
  destruct (onopen_rest_wiring (owner k) s2) as (_ & Hr & _ & _ & _ & Hsock).
  split; [rewrite Hr; exact Hcur|].
  split; [apply onopen_rest_connected|].
  assert (H2 : sockets s2 !! i = Some (set_ready OPEN k)).
  { subst s2. cbn. by rewrite list_lookup_alter_eq, Hk. }
  destruct Hsock as [-> | (u & c' & _ & _ & _ & ->)].
  - by exists (set_ready OPEN k).
  - destruct (lookup_push_frame (JSON_stringify (registrationMessage u)) c' i _ _ H2)
      as (k' & Hk' & Hst).
    by exists k'.
Qed.

(** X19.  Messages of the children go out exactly while the connection is
    up (lawful libraries).  In any run, for a socket that is connecting:
    before its open event [sendMessage] does nothing; after it, the message
    (a string as it is, anything else through [JSON.stringify]) is appended
    to what was sent on that socket; and after its close event
    [sendMessage] does nothing again. *)
Theorem messages_go_out_while_connected (HL : LibsLaws L) (r : Render)
    (blocked maintenance : jsval) (store : gmap string string)
    (evs : list Event) (i : nat) (k : Socket Render) (salt : string)
    (message : jsval) :
  let s0 := run evs (mount r blocked maintenance store) in
  let s1 := step s0 (SockOpen i salt) in
  let s2 := step s1 (SockClose i) in
  let data := match message with
              | VStr text => text
              | _ => JSON_stringify message
              end in
  sockets s0 !! i = Some k →
  readyState k = CONNECTING →
  sendMessage message s0 = (Ok (), s0)
  ∧ (∃ k1, sockets s1 !! i = Some k1
           ∧ (sendMessage message s1).1 = Ok ()
           ∧ sockets (sendMessage message s1).2
             = <[i := push_frame data k1]> (sockets s1))
  ∧ sendMessage message s2 = (Ok (), s2).
Proof.
  cbn zeta. intros Hk Hcon.
  pose proof (wired_run evs _ (wired_mount r blocked maintenance store)) as Hw.
  remember (run evs (mount r blocked maintenance store)) as s0 eqn:Hs0.
  clear Hs0.
  assert (Hcur : socketRef s0 = Some i).
  { apply (current_of_live_socket s0 i k); [done..|].
    unfold idle. rewrite Hcon. by intros [|]. }
  destruct (after_onopen HL s0 i k salt Hw Hk Hcon) as (Hr1 & Hc1 & k1 & Hk1 & Hst1).
  remember (step s0 (SockOpen i salt)) as s1 eqn:Hs1. clear Hs1.
  split; [|split].
  - unfold sendMessage, current_is_open. rewrite Hcur. cbn [is_set andb].
    rewrite Hk, Hcon. cbn [ready_eqb]. by rewrite andb_false_r.
  - exists k1. split; [done|].
    unfold sendMessage, current_is_open, send_current.
    rewrite Hr1, Hc1. cbn [is_set andb]. rewrite Hk1, Hst1. cbn [ready_eqb fst snd].
    split; [done|]. cbn [sockets set_sockets].
    apply list_eq. intros j. destruct (decide (j = i)) as [->|Hne].
    + rewrite list_lookup_alter_eq, Hk1. cbn.
      rewrite list_lookup_insert_eq; [done|]. by eapply lookup_lt_Some.
    + by rewrite list_lookup_alter_ne, list_lookup_insert_ne.
  - cbn [step]. rewrite Hk1, Hst1. cbn [ready_eqb]. rewrite run_onclose.
    unfold sendMessage.
    cbn [isConnected set_timeout set_timers set_hasRegisteredRef
         set_isConnectingRef set_isConnected socketRef].
    by rewrite andb_false_r.
Qed.

End SendMessage.

Lemma messages_go_out_while_connected_witness :
  WebSocketWrapper.sockets
    (WebSocketWrapper.sendMessage (L := Toy.libs) (VStr "hello")
       (WebSocketWrapper.step (L := Toy.libs)
          (WebSocketWrapper.run (L := Toy.libs)
             [WebSocketWrapper.Rerender Scenario.leader]
             (WebSocketWrapper.mount Scenario.follower (VBool false)
                (VBool false) ∅))
          (WebSocketWrapper.SockOpen 0 "salt"))).2
  = [Browser.mkSocket Browser.OPEN Scenario.leader
       ["{type:REGISTER_CHILD}"; "hello"]].
Proof.
  destruct (messages_go_out_while_connected (L := Toy.libs) toy_laws
              Scenario.follower (VBool false) (VBool false) ∅
              [WebSocketWrapper.Rerender Scenario.leader] 0%nat
              (Browser.mkSocket Browser.CONNECTING Scenario.leader [])
              "salt" (VStr "hello")) as (_ & (k1 & Hk1 & _ & H) & _).
  - vm_compute. reflexivity.
  - reflexivity.
  - rewrite H. vm_compute in Hk1. injection Hk1 as <-. vm_compute. reflexivity.
Defined.

(** ** Unmounting the bounded variant *)

Section BoundedUnmount.
Import Browser BoundedRetry.
Context `{L : Libs}.

Lemma closed_close_socket (k : Socket Props) :
  closed k ↔ closed (close_socket k).
Proof.
  unfold closed, close_socket.
  destruct (readyState k) eqn:H; cbn; rewrite ?H; split; congruence.
Qed.

Lemma lookup_close_current (s : State) (i : nat) (k' : Socket Props) :
  (close_current s).1 !! i = Some k' →
  ∃ k, sockets s !! i = Some k ∧ (closed k ↔ closed k').
Proof.
  unfold close_current. destruct (socketRef s) as [c|]; cbn; [|by eauto].
  destruct (decide (i = c)) as [->|Hne].
  - rewrite list_lookup_alter_eq. destruct (sockets s !! c) as [k|]; [|done].
    intros [= <-]. exists k. split; [done|]. apply closed_close_socket.
  - rewrite list_lookup_alter_ne by done. eauto.
Qed.

Lemma lookup_set_ready (st : ReadyState) (i j : nat) (l : list (Socket Props))
    (k' : Socket Props) :
  alter (set_ready st) i l !! j = Some k' →
  ∃ k, l !! j = Some k
       ∧ ((j = i ∧ readyState k' = st) ∨ (j ≠ i ∧ k' = k)).
Proof.
  destruct (decide (j = i)) as [->|Hne].
  - rewrite list_lookup_alter_eq. destruct (l !! i) as [k|]; [|done].
    intros [= <-]. exists k. split; [done|]. by left.
  - rewrite list_lookup_alter_ne by done. intros Hk. exists k'. auto.
Qed.

Lemma connect_tracked (r : Props) (s : State) :
  tracked s → no_timer s → (∀ i k, sockets s !! i = Some k → closed k) →
  tracked (connect r s).
Proof.
  intros Hs Hno Hall. unfold connect.
  destruct (negb (enabled r) || isConnectingRef s || current_is_open s); [done|].
  destruct (close_current s) as [socks ref] eqn:Hcc.
  assert (Hsocks : ∀ i k', socks !! i = Some k' → closed k').
  { intros i k' Hk'. destruct (lookup_close_current s i k') as (k & Hk & Hiff).
    - by rewrite Hcc.
    - apply Hiff. by apply (Hall i k). }
  destruct (url_ok r); split; cbn.
  - intros t tm Ht. by destruct (Hno t tm).
  - intros t tm i k Ht. by destruct (Hno t tm).
  - intros i j ki kj Hi Hj Hci Hcj.
    apply lookup_app_Some in Hi as [Hi | [Hli Hi]];
      [by destruct Hci; apply (Hsocks i)|].
    apply lookup_app_Some in Hj as [Hj | [Hlj Hj]];
      [by destruct Hcj; apply (Hsocks j)|].
    apply list_lookup_singleton_Some in Hi as [Hi _].
    apply list_lookup_singleton_Some in Hj as [Hj _]. lia.
  - intros t tm Ht. by destruct (Hno t tm).
  - intros t tm i k Ht. by destruct (Hno t tm).
  - intros i j ki kj Hi Hj Hci. by destruct Hci; apply (Hsocks i).
Qed.

Lemma sendRegistration_shape (u : string) (s : State) :
  timers (sendRegistration u s) = timers s
  ∧ reconnectTimeoutRef (sendRegistration u s) = reconnectTimeoutRef s
  ∧ ∀ i k', sockets (sendRegistration u s) !! i = Some k' →
            ∃ k, sockets s !! i = Some k ∧ readyState k' = readyState k.
Proof.
  unfold sendRegistration.
  destruct (current_is_open s && str_truthy u && negb (hasRegisteredRef s));
    cbn; [|by eauto].
  split; [done|]. split; [done|].
  destruct (socketRef s) as [c|]; [|by eauto].
  intros i k'. destruct (decide (i = c)) as [->|Hne].
  - rewrite list_lookup_alter_eq. destruct (sockets s !! c) as [k|]; [|done].
    intros [= <-]. by exists k.
  - rewrite list_lookup_alter_ne by done. eauto.
Qed.

Lemma onopen_shape (r : Props) (s : State) :
  timers (onopen r s) = timers s
  ∧ reconnectTimeoutRef (onopen r s) = reconnectTimeoutRef s
  ∧ ∀ i k', sockets (onopen r s) !! i = Some k' →
            ∃ k, sockets s !! i = Some k ∧ readyState k' = readyState k.
Proof.
  unfold onopen. cbn.
  destruct (userId r) as [u|]; [|by eauto].
  destruct (str_truthy u); [|by eauto].
  apply (sendRegistration_shape u
           (mkState true (lastMessage s) connected (socketRef s) 0
              (reconnectTimeoutRef s) false (hasRegisteredRef s) (sockets s)
              (timers s) (log s))).
Qed.

Lemma tracked_no_timer_of_live (s : State) (i : nat) (k : Socket Props) :
  tracked s → sockets s !! i = Some k → ¬ closed k → no_timer s.
Proof.
  intros Hs Hk Hlive t tm Ht. apply Hlive. by apply (tr_quiet s Hs t tm i k).
Qed.

Lemma onclose_tracked (r : Props) (s : State) :
  tracked s → no_timer s → (∀ i k, sockets s !! i = Some k → closed k) →
  tracked (onclose r s).
Proof.
  intros Hs Hno Hall. unfold onclose.
  destruct (enabled r && (reconnectCountRef s <? reconnectAttempts r)).
  - split; cbn.
    + intros t tm Ht. apply lookup_app_Some in Ht as [Ht | [Hlen Ht]];
        [by destruct (Hno t tm)|].
      apply list_lookup_singleton_Some in Ht as [Ht _]. f_equal. lia.
    + intros t tm i k _. apply Hall.
    + intros i j ki kj Hi _ Hci. by destruct Hci; apply (Hall i).
  - split; cbn.
    + intros t tm Ht. by destruct (Hno t tm).
    + intros t tm i k _. apply Hall.
    + intros i j ki kj Hi _ Hci. by destruct Hci; apply (Hall i).
Qed.

Lemma closing_one (s : State) (i : nat) (k : Socket Props) :
  tracked s → sockets s !! i = Some k → ¬ closed k →
  ∀ j kj, alter (set_ready CLOSED) i (sockets s) !! j = Some kj → closed kj.
Proof.
  intros Hs Hk Hlive j kj Hj.
  destruct (lookup_set_ready CLOSED i j _ kj Hj) as (k0 & Hk0 & [[-> Hst] | [Hne ->]]);
    [done|].
  destruct (decide (closed k0)) as [|Hlive0]; [done|].
  destruct Hne. by apply (tr_single s Hs j i k0 k).
Qed.

Lemma not_closed (k : Socket Props) :
  ready_eqb (readyState k) CLOSED = false → ¬ closed k.
Proof. unfold closed. by destruct (readyState k). Qed.

Lemma tracked_step (s : State) (ev : Event) : tracked s → tracked (step s ev).
Proof.
  intros Hs. pose proof Hs as [H1 H2 H3].
  destruct ev as [|i|i data|i|i|t]; cbn [step].
  - (* the cleanup *)
    unfold cleanup. destruct (close_current s) as [socks ref] eqn:Hcc.
    assert (Hno : ∀ t tm,
      match reconnectTimeoutRef s with
      | Some t0 => <[t0 := None]> (timers s)
      | None => timers s
      end !! t ≠ Some (Some tm)).
    { intros t tm Ht. destruct (reconnectTimeoutRef s) as [t0|] eqn:Hr.
      - destruct (decide (t = t0)) as [->|Hne].
        + apply list_lookup_insert_Some in Ht as [(_ & ? & _) | (? & _)]; done.
        + rewrite list_lookup_insert_ne in Ht by done.
          apply H1 in Ht. congruence.
      - apply H1 in Ht. congruence. }
    split; cbn.
    + intros t tm Ht. by destruct (Hno t tm).
    + intros t tm i k Ht. by destruct (Hno t tm).
    + intros i j ki kj Hi Hj Hci Hcj.
      destruct (lookup_close_current s i ki) as (ki0 & Hi0 & Hiffi);
        [by rewrite Hcc|].
      destruct (lookup_close_current s j kj) as (kj0 & Hj0 & Hiffj);
        [by rewrite Hcc|].
      apply (H3 i j ki0 kj0); tauto.
  - (* open *)
    destruct (sockets s !! i) as [k|] eqn:Hk; [|done].
    destruct (ready_eqb (readyState k) CONNECTING) eqn:Hst; [|done].
    assert (Hlive : ¬ closed k) by (unfold closed; by destruct (readyState k)).
    pose proof (tracked_no_timer_of_live s i k Hs Hk Hlive) as Hno.
    destruct (onopen_shape (owner k) (set_socket_state i OPEN s))
      as (Ht & Hr & Hsock).
    split; rewrite ?Ht, ?Hr; cbn.
    + intros t tm Htm. by destruct (Hno t tm).
    + intros t tm j kj Htm. by destruct (Hno t tm).
    + intros a b ka kb Ha Hb Hca Hcb.
      destruct (Hsock a ka Ha) as (ka0 & Ha0 & Hra).
      destruct (Hsock b kb Hb) as (kb0 & Hb0 & Hrb). cbn in Ha0, Hb0.
      destruct (lookup_set_ready OPEN i a _ ka0 Ha0)
        as (ka1 & Ha1 & [[-> _] | [Hna ->]]);
      destruct (lookup_set_ready OPEN i b _ kb0 Hb0)
        as (kb1 & Hb1 & [[-> _] | [Hnb ->]]); try done.
      * apply (H3 i b k kb1); try done. unfold closed in *. congruence.
      * apply (H3 a i ka1 k); try done. unfold closed in *. congruence.
      * apply (H3 a b ka1 kb1); try done; unfold closed in *; congruence.
  - (* message *)
    destruct (sockets s !! i) as [k|] eqn:Hk; [|done].
    destruct (ready_eqb (readyState k) OPEN); [|done].
    by split.
  - (* failure *)
    destruct (sockets s !! i) as [k|] eqn:Hk; [|done].
    destruct (ready_eqb (readyState k) CLOSED) eqn:Hst; [done|].
    apply not_closed in Hst.
    pose proof (tracked_no_timer_of_live s i k Hs Hk Hst) as Hno.
    pose proof (closing_one s i k Hs Hk Hst) as Hall.
    apply onclose_tracked; cbn; try done.
    split; cbn; try done.
    + intros t tm j kj Htm. by destruct (Hno t tm).
    + intros a b ka kb Ha _ Hca. by destruct Hca; apply (Hall a).
  - (* close *)
    destruct (sockets s !! i) as [k|] eqn:Hk; [|done].
    destruct (ready_eqb (readyState k) CLOSED) eqn:Hst; [done|].
    apply not_closed in Hst.
    pose proof (tracked_no_timer_of_live s i k Hs Hk Hst) as Hno.
    pose proof (closing_one s i k Hs Hk Hst) as Hall.
    apply onclose_tracked; cbn; try done.
    split; cbn; try done.
    + intros t tm j kj Htm. by destruct (Hno t tm).
    + intros a b ka kb Ha _ Hca. by destruct Hca; apply (Hall a).
  - (* a timer fires *)
    destruct (timers s !! t) as [[tm|]|] eqn:Ht; try done.
    assert (Hno : ∀ t' tm', <[t := None]> (timers s) !! t' ≠ Some (Some tm')).
    { intros t' tm' Ht'. destruct (decide (t' = t)) as [->|Hne].
      - apply list_lookup_insert_Some in Ht' as [(_ & ? & _) | (? & _)]; done.
      - rewrite list_lookup_insert_ne in Ht' by done.
        apply H1 in Ht'. apply H1 in Ht. congruence. }
    unfold reconnect. apply connect_tracked; cbn.
    + split; cbn; try done.
      * intros t' tm' Ht'. by destruct (Hno t' tm').
      * intros t' tm' j kj Ht'. by destruct (Hno t' tm').
    + exact Hno.
    + intros j kj. by apply (H2 t tm).
Qed.

Lemma tracked_mount (r : Props) : tracked (mount r).
Proof.
  assert (H0 : tracked (mkState false None disconnected None 0 None false false
                          [] [] [])) by by split.
  unfold mount. destruct (enabled r); [|done].
  apply connect_tracked; done.
Qed.

Lemma tracked_run (evs : list Event) (s : State) : tracked s → tracked (run evs s).
Proof.
  revert s. induction evs as [|ev evs IH]; intros s Hs; [done|].
  cbn. by apply IH, tracked_step.
Qed.

(** A state in which nothing is left to happen. *)
Lemma settled_step (s : State) (ev : Event) :
  (∀ i k, sockets s !! i = Some k → closed k) → no_timer s →
  socketRef s = None → reconnectTimeoutRef s = None →
  reconnectCountRef s = 0 → isConnectingRef s = false →
  step s ev = s.
Proof.
  intros Hall Hno Hc Hr Hn Hi.
  destruct ev as [|i|i data|i|i|t]; cbn [step].
  - unfold cleanup, close_current. rewrite Hc, Hr.
    destruct s; cbn in *. by subst.
  - destruct (sockets s !! i) as [k|] eqn:Hk; [|done].
    by rewrite (Hall i k Hk).
  - destruct (sockets s !! i) as [k|] eqn:Hk; [|done].
    by rewrite (Hall i k Hk).
  - destruct (sockets s !! i) as [k|] eqn:Hk; [|done].
    by rewrite (Hall i k Hk).
  - destruct (sockets s !! i) as [k|] eqn:Hk; [|done].
    by rewrite (Hall i k Hk).
  - destruct (timers s !! t) as [[tm|]|] eqn:Ht; try done.
    by destruct (Hno t tm).
Qed.

Lemma pending_timer_exists (s : State) :
  pending_timers s ≠ [] → ∃ t tm, timers s !! t = Some (Some tm).
Proof.
  unfold pending_timers. induction (timers s) as [|[tm|] l IH]; cbn; [done|..].
  - intros _. by exists 0%nat, tm.
  - intros H. destruct (IH H) as (t & tm & Ht). by exists (S t), tm.
Qed.

End BoundedUnmount.

(** X20.  In the bounded variant, unmounting while a reconnection is
    scheduled ends all activity, whatever happened before: the timer is
    cleared, every socket is closed, and no later event changes the
    state. *)
Theorem unmount_during_backoff_is_final `{L : Libs} (r : BoundedRetry.Props)
    (evs later : list BoundedRetry.Event) :
  BoundedRetry.pending_timers (BoundedRetry.run evs (BoundedRetry.mount r)) ≠ [] →
  let s := BoundedRetry.step (BoundedRetry.run evs (BoundedRetry.mount r))
             BoundedRetry.Unmount in
  BoundedRetry.pending_timers s = []
  ∧ Forall BoundedRetry.closed (BoundedRetry.sockets s)
  ∧ BoundedRetry.run later s = s.
Proof.
  intros Hpend. cbn zeta.
  pose proof (tracked_run evs _ (tracked_mount r)) as Hs.
  set (s0 := BoundedRetry.run evs (BoundedRetry.mount r)) in *.
  destruct (pending_timer_exists s0 Hpend) as (t & tm & Ht).
  pose proof (BoundedRetry.tr_timer s0 Hs t tm Ht) as Href.
  assert (Hall0 : ∀ i k, BoundedRetry.sockets s0 !! i = Some k → BoundedRetry.closed k)
    by (intros i k Hk; by apply (BoundedRetry.tr_quiet s0 Hs t tm i k)).
  assert (Hsocks : (BoundedRetry.close_current s0).1 = BoundedRetry.sockets s0).
  { unfold BoundedRetry.close_current.
    destruct (BoundedRetry.socketRef s0) as [c|]; [|done]. cbn.
    apply list_eq. intros i. destruct (decide (i = c)) as [->|Hne].
    - rewrite list_lookup_alter_eq.
      destruct (BoundedRetry.sockets s0 !! c) as [k|] eqn:Hk; [|done].
      cbn. f_equal. pose proof (Hall0 c k Hk) as Hc.
      unfold Browser.close_socket. unfold BoundedRetry.closed in Hc. by rewrite Hc.
    - by rewrite list_lookup_alter_ne. }
  assert (Hno : BoundedRetry.no_timer (BoundedRetry.step s0 BoundedRetry.Unmount)).
  { intros t' tm'. cbn [BoundedRetry.step]. unfold BoundedRetry.cleanup.
    destruct (BoundedRetry.close_current s0) as [socks ref]. cbn.
    rewrite Href. intros Ht'. destruct (decide (t' = t)) as [->|Hne].
    - apply list_lookup_insert_Some in Ht' as [(_ & ? & _) | (? & _)]; done.
    - rewrite list_lookup_insert_ne in Ht' by done.
      apply (BoundedRetry.tr_timer s0 Hs) in Ht'. congruence. }
  assert (Hall : ∀ i k,
    BoundedRetry.sockets (BoundedRetry.step s0 BoundedRetry.Unmount) !! i = Some k →
    BoundedRetry.closed k).
  { intros i k. cbn [BoundedRetry.step]. unfold BoundedRetry.cleanup.
    destruct (BoundedRetry.close_current s0) as [socks ref] eqn:Hcc. cbn.
    rewrite ?Hcc in Hsocks. cbn in Hsocks. subst socks. apply Hall0. }
  split; [|split].
  - unfold BoundedRetry.pending_timers.
    destruct (omap id (BoundedRetry.timers (BoundedRetry.step s0 BoundedRetry.Unmount)))
      as [|tm' l] eqn:Ho; [done|].
    assert (Hin : tm' ∈ omap id
              (BoundedRetry.timers (BoundedRetry.step s0 BoundedRetry.Unmount)))
      by (rewrite Ho; left).
    apply list_elem_of_omap in Hin as (x & Hx & Hid).
    apply list_elem_of_lookup in Hx as [t' Ht']. cbn in Hid. subst x.
    by destruct (Hno t' tm').
  - apply Forall_lookup. exact Hall.
  - assert (Hfix : ∀ ev, BoundedRetry.step
                          (BoundedRetry.step s0 BoundedRetry.Unmount) ev
                        = BoundedRetry.step s0 BoundedRetry.Unmount).
    { intros ev. apply settled_step; try done.
      all: cbn [BoundedRetry.step]; unfold BoundedRetry.cleanup, BoundedRetry.close_current;
        by destruct (BoundedRetry.socketRef s0). }
    induction later as [|ev later IH]; [done|]. cbn. by rewrite Hfix.
Qed.

Lemma unmount_during_backoff_is_final_witness :
  let s := BoundedRetry.step (L := Toy.libs)
             (BoundedRetry.run (L := Toy.libs)
                [BoundedRetry.SockOpen 0; BoundedRetry.SockFail 0]
                (BoundedRetry.mount Scenario.two_attempts))
             BoundedRetry.Unmount in
  BoundedRetry.pending_timers s = []
  ∧ Forall BoundedRetry.closed (BoundedRetry.sockets s)
  ∧ BoundedRetry.run (L := Toy.libs)
      [BoundedRetry.TimerFire 0; BoundedRetry.SockOpen 0] s = s.
Proof.
  apply (unmount_during_backoff_is_final (L := Toy.libs) Scenario.two_attempts
           [BoundedRetry.SockOpen 0; BoundedRetry.SockFail 0]
           [BoundedRetry.TimerFire 0; BoundedRetry.SockOpen 0]).
  vm_compute. discriminate.
Defined.

Section BoundedOneConnection.
Import Browser BoundedRetry.
Context `{L : Libs}.

Lemma at_most_one_pending (l : list (option (Timer Props))) :
  (∀ t t' tm tm', l !! t = Some (Some tm) → l !! t' = Some (Some tm') → t = t') →
  (length (omap id l) ≤ 1)%nat.
Proof.
  induction l as [|[tm|] l IH]; intros H; cbn; [lia| |].
  - assert (Hnil : omap id l = []).
    { destruct (omap id l) as [|tm' r] eqn:Ho; [done|].
      assert (Hin : tm' ∈ omap id l) by (rewrite Ho; left).
      apply list_elem_of_omap in Hin as (x & Hx & Hid). cbn in Hid. subst x.
      apply list_elem_of_lookup in Hx as [t' Ht'].
      specialize (H 0%nat (S t') tm tm' eq_refl Ht'). lia. }
    rewrite Hnil. cbn. lia.
  - apply IH. intros t t' tm tm' Ht Ht'.
    specialize (H (S t) (S t') tm tm' Ht Ht'). lia.
Qed.

(** X21.  In every run of the bounded variant at most one socket is not
    closed, at most one reconnection timer is pending, the pending timer is
    the one held by [reconnectTimeoutRef], and no timer is pending while a
    socket is not closed. *)
Theorem bounded_variant_keeps_one_connection (r : Props) (evs : list Event) :
  let s := run evs (mount r) in
  (∀ i j ki kj, sockets s !! i = Some ki → sockets s !! j = Some kj →
                readyState ki ≠ CLOSED → readyState kj ≠ CLOSED → i = j)
  ∧ (length (pending_timers s) ≤ 1)%nat
  ∧ (∀ t tm, timers s !! t = Some (Some tm) →
             reconnectTimeoutRef s = Some t ∧ Forall closed (sockets s)).
Proof.
  cbn zeta. pose proof (tracked_run evs _ (tracked_mount r)) as [H1 H2 H3].
  split; [exact H3|]. split.
  - apply at_most_one_pending. intros t t' tm tm' Ht Ht'.
    apply H1 in Ht, Ht'. congruence.
  - intros t tm Ht. split; [by apply (H1 t tm)|].
    apply Forall_lookup. intros i k. by apply (H2 t tm).
Qed.

End BoundedOneConnection.

(** ** The training status *)

Section TrainingStatusFacts.
Import TrainingStatus.

Lemma existsb_status (want : string) (languages : list string)
    (st : gmap string TrainingSession) :
  existsb (λ session, String.eqb (status session) want)
    (omap (λ lang, st !! lang) languages) = true
  ↔ ∃ l s, l ∈ languages ∧ st !! l = Some s ∧ status s = want.
Proof.
  rewrite existsb_exists. split.
  - intros (s & Hin & Heq). apply list_elem_of_In, list_elem_of_omap in Hin
      as (l & Hl & Hs).
    exists l, s. by apply String.eqb_eq in Heq.
  - intros (l & s & Hl & Hs & Heq). exists s. split.
    + apply list_elem_of_In, list_elem_of_omap. by exists l.
    + by apply String.eqb_eq.
Qed.

Lemma no_sessions (languages : list string) (st : gmap string TrainingSession) :
  omap (λ lang, st !! lang) languages = []
  ↔ ∀ l, l ∈ languages → st !! l = None.
Proof.
  induction languages as [|l ls IH]; cbn.
  - split; [|done]. intros _ l Hl. by apply not_elem_of_nil in Hl.
  - destruct (st !! l) as [s|] eqn:Hl; cbn.
    + split; [done|]. intros H. specialize (H l (list_elem_of_here _ _)). congruence.
    + rewrite IH. split.
      * intros H l' [->|Hin]%elem_of_cons; auto.
      * intros H l' Hin. apply H. by right.
Qed.

Lemma getTrainingStatus_cases (languages : list string)
    (st : gmap string TrainingSession) :
  getTrainingStatus (Some languages) st
  = if bool_decide (omap (λ lang, st !! lang) languages = []) then None
    else if existsb (λ session, String.eqb (status session) "training")
              (omap (λ lang, st !! lang) languages) then Some "training"
    else if existsb (λ session, String.eqb (status session) "needs-training")
              (omap (λ lang, st !! lang) languages) then Some "needs-training"
    else Some "done".
Proof.
  unfold getTrainingStatus. destruct languages as [|l ls]; [done|].
  destruct (omap _ (l :: ls)) as [|s ss] eqn:Ho; [done|]. done.
Qed.

Lemma shown_training (languages : list string)
    (st : gmap string TrainingSession) :
  (∃ l s, l ∈ languages ∧ st !! l = Some s ∧ status s = "training") →
  getTrainingStatus (Some languages) st = Some "training".
Proof.
  intros H. rewrite getTrainingStatus_cases.
  apply existsb_status in H. rewrite H.
  rewrite bool_decide_eq_false_2; [done|].
  intros Hnil. rewrite Hnil in H. discriminate.
Qed.

Lemma shown_done (languages : list string) (st : gmap string TrainingSession) :
  (∃ l, l ∈ languages ∧ is_Some (st !! l)) →
  (∀ l s, l ∈ languages → st !! l = Some s →
          status s ≠ "training" ∧ status s ≠ "needs-training") →
  getTrainingStatus (Some languages) st = Some "done".
Proof.
  intros (l & Hl & [s Hs]) Hnone. rewrite getTrainingStatus_cases.
  rewrite bool_decide_eq_false_2.
  - destruct (existsb (λ session, String.eqb (status session) "training") _)
      eqn:He1.
    { apply existsb_status in He1 as (l' & s' & Hl' & Hs' & Hst).
      by destruct (Hnone l' s' Hl' Hs'). }
    destruct (existsb (λ session, String.eqb (status session) "needs-training") _)
      eqn:He2; [|done].
    apply existsb_status in He2 as (l' & s' & Hl' & Hs' & Hst).
    by destruct (Hnone l' s' Hl' Hs').
  - intros Hnil. rewrite (proj1 (no_sessions languages st) Hnil l Hl) in Hs.
    discriminate.
Qed.

(** X22.  The status shown is decided by the sessions of the listed
    languages alone, in this order: nothing is shown when none of them has
    a session; [training] when one of them is training; otherwise
    [needs-training] when one needs training; otherwise [done], whatever
    the statuses are. *)
Theorem training_status_by_priority (languages : list string)
    (st : gmap string TrainingSession) :
  let shown := getTrainingStatus (Some languages) st in
  let has (want : string) :=
    ∃ l s, l ∈ languages ∧ st !! l = Some s ∧ status s = want in
  (shown = None ↔ ∀ l, l ∈ languages → st !! l = None)
  ∧ (shown = Some "training" ↔ has "training")
  ∧ (shown = Some "needs-training" ↔ ¬ has "training" ∧ has "needs-training")
  ∧ (shown = Some "done"
     ↔ (∃ l, l ∈ languages ∧ is_Some (st !! l))
       ∧ ¬ has "training" ∧ ¬ has "needs-training").
Proof.
  cbn zeta. rewrite getTrainingStatus_cases.
  pose proof (no_sessions languages st) as Hnone.
  pose proof (existsb_status "training" languages st) as Ht.
  pose proof (existsb_status "needs-training" languages st) as Hn.
  assert (Hsome : omap (λ lang, st !! lang) languages ≠ []
                  → ∃ l, l ∈ languages ∧ is_Some (st !! l)).
  { intros Hne. destruct (omap _ languages) as [|s ss] eqn:Ho; [done|].
    assert (Hin : s ∈ omap (λ lang, st !! lang) languages) by (rewrite Ho; left).
    apply list_elem_of_omap in Hin as (l & Hl & Hs). exists l. by rewrite Hs. }
  destruct (bool_decide _) eqn:Hb.
  - apply bool_decide_eq_true in Hb. pose proof (proj1 Hnone Hb) as Hall.
    assert (Hno : ∀ want, ¬ ∃ l s, l ∈ languages ∧ st !! l = Some s ∧ status s = want).
    { intros want (l & s & Hl & Hs & _). rewrite (Hall l Hl) in Hs. done. }
    repeat split; try done.
    + intros H. by destruct (Hno "training").
    + intros [_ H]. by destruct (Hno "needs-training").
    + intros [(l & Hl & [s Hs]) _]. rewrite (Hall l Hl) in Hs. done.
  - apply bool_decide_eq_false in Hb.
    destruct (existsb (λ session, String.eqb (status session) "training") _)
      eqn:He1.
    + pose proof (proj1 Ht eq_refl) as Hhas. repeat split; try done.
      * intros H. destruct Hb. by apply Hnone.
      * by intros [H _].
      * by intros (_ & H & _).
    + assert (Hnt : ¬ ∃ l s, l ∈ languages ∧ st !! l = Some s ∧ status s = "training").
      { intros H. apply Ht in H. congruence. }
      destruct (existsb (λ session, String.eqb (status session) "needs-training")
                  _) eqn:He2.
      * pose proof (proj1 Hn eq_refl) as Hhas. repeat split; try done.
        -- intros H. destruct Hb. by apply Hnone.
        -- by intros (_ & _ & H).
      * assert (Hnn : ¬ ∃ l s, l ∈ languages ∧ st !! l = Some s
                               ∧ status s = "needs-training").
        { intros H. apply Hn in H. congruence. }
        repeat split; try done.
        -- intros H. destruct Hb. by apply Hnone.
        -- by intros [_ H].
        -- by apply Hsome.
Qed.

Lemma batch_lookup (sessions : list TrainingSession) (l : string) :
  l ∈ language <$> sessions →
  ∃ s, trainSessionBatchUpdate sessions !! l = Some s
       ∧ s ∈ sessions ∧ language s = l.
Proof.
  unfold trainSessionBatchUpdate.
  induction sessions as [|x xs IH] using rev_ind; intros Hl.
  - by apply not_elem_of_nil in Hl.
  - rewrite foldl_app. cbn. destruct (decide (language x = l)) as [<-|Hne].
    + exists x. rewrite lookup_insert_eq. split; [done|]. split; [|done].
      apply elem_of_app. right. left.
    + rewrite lookup_insert_ne by done.
      rewrite fmap_app in Hl. apply elem_of_app in Hl as [Hl|Hl].
      * destruct (IH Hl) as (s & Hs & Hin & Hlang). exists s.
        split; [done|]. split; [|done]. apply elem_of_app. by left.
      * apply list_elem_of_singleton in Hl. done.
Qed.

(** X23.  When the request fails for every listed language, the state
    loaded holds an errored session for each of them, and the status shown
    is [done]. *)
Theorem failed_requests_show_done (response : string → option TrainingSession)
    (languages : list string) (st0 : gmap string TrainingSession) :
  languages ≠ [] →
  (∀ l, l ∈ languages → response l = None) →
  ∃ st, load response languages st0 = Some st
        ∧ (∀ l, l ∈ languages →
                ∃ s, st !! l = Some s ∧ status s = "errored")
        ∧ getTrainingStatus (Some languages) st = Some "done".
Proof.
  intros Hne Hfail. eexists. split; [reflexivity|].
  assert (Hall : ∀ l, l ∈ languages →
    ∃ s, trainSessionBatchUpdate
           (fetchTrainingSessionForLang response <$> languages) !! l = Some s
         ∧ status s = "errored").
  { intros l Hl.
    destruct (batch_lookup (fetchTrainingSessionForLang response <$> languages) l)
      as (s & Hs & Hin & _).
    - rewrite <- list_fmap_compose. apply list_elem_of_fmap. exists l.
      split; [|done]. cbn. unfold fetchTrainingSessionForLang.
      by rewrite (Hfail l Hl).
    - exists s. split; [done|].
      apply list_elem_of_fmap in Hin as (l' & -> & Hl').
      unfold fetchTrainingSessionForLang. by rewrite (Hfail l' Hl'). }
  split; [done|].
  apply shown_done.
  - destruct languages as [|l ls]; [done|].
    exists l. split; [left|]. destruct (Hall l) as (s & -> & _); [left|done].
  - intros l s Hl Hs. destruct (Hall l Hl) as (s' & Hs' & Hst').
    assert (s' = s) as -> by congruence. rewrite Hst'. done.
Qed.

(** X24.  A status event for a listed language that reports training is
    shown at once, whatever the other sessions are; an event for a language
    that is not listed changes nothing of what is shown. *)
Theorem status_event_is_shown (languages : list string)
    (st : gmap string TrainingSession) (event : TrainingSession) :
  ∃ st', trainStatusReducer st (setTrainSession event) = Some st'
         ∧ (language event ∈ languages → status event = "training" →
            getTrainingStatus (Some languages) st' = Some "training")
         ∧ (language event ∉ languages →
            getTrainingStatus (Some languages) st'
            = getTrainingStatus (Some languages) st).
Proof.
  eexists. split; [reflexivity|]. split.
  - intros Hl Hst. apply shown_training.
    exists (language event), event. by rewrite lookup_insert_eq.
  - intros Hl. rewrite !getTrainingStatus_cases.
    replace (omap (λ lang, <[language event := event]> st !! lang) languages)
      with (omap (λ lang, st !! lang) languages); [done|].
    induction languages as [|l ls IH]; [done|]. cbn.
    rewrite lookup_insert_ne by (intros Heq; apply Hl; rewrite Heq; left).
    rewrite IH; [done|]. intros H. apply Hl. by right.
Qed.

End TrainingStatusFacts.

Lemma failed_requests_show_done_witness :
  ∃ st, TrainingStatus.load (λ _, None) ["en"; "fr"] ∅ = Some st
        ∧ TrainingStatus.getTrainingStatus (Some ["en"; "fr"]) st = Some "done".
Proof.
  destruct (failed_requests_show_done (λ _, None) ["en"; "fr"] ∅)
    as (st & H1 & _ & H3).
  - discriminate.
  - reflexivity.
  - exists st. split; [exact H1 | exact H3].
Defined.

Lemma status_event_is_shown_witness :
  TrainingStatus.getTrainingStatus (Some ["en"; "fr"])
    (<["fr" := TrainingStatus.mkSession "fr" 0 "training" "k1"]>
       {["en" := TrainingStatus.mkSession "en" 1 "done" "k0"]})
  = Some "training".
Proof.
  destruct (status_event_is_shown ["en"; "fr"]
              {["en" := TrainingStatus.mkSession "en" 1 "done" "k0"]}
              (TrainingStatus.mkSession "fr" 0 "training" "k1"))
    as (st' & H1 & H2 & _).
  injection H1 as <-. apply H2.
  - right. left.
  - reflexivity.
Defined.

(** ** The entity service *)

Section EntityLists.
Import EntityService.

(** *** Listing *)

Lemma findIndex_none {A} (p : A → bool) (l : list A) :
  (∀ x, x ∈ l → p x = false) → findIndex p l = None.
Proof.
  induction l as [|x l IH]; intros H; [done|]. cbn.
  rewrite (H x) by left. rewrite IH; [done|]. intros y Hy. apply H. by right.
Qed.

Lemma findIndex_app_l {A} (p : A → bool) (pre suf : list A) (x : A) :
  x ∈ pre → p x = true →
  ∃ i, findIndex p (pre ++ suf) = Some i ∧ (i < length pre)%nat.
Proof.
  induction pre as [|y pre IH]; intros Hin Hp; [by apply not_elem_of_nil in Hin|].
  cbn. destruct (p y) eqn:Hy.
  - exists 0%nat. split; [done|]. lia.
  - apply elem_of_cons in Hin as [->|Hin]; [congruence|].
    destruct (IH Hin Hp) as (i & -> & Hi). exists (S i). split; [done|]. lia.
Qed.

Lemma findIndex_app_r {A} (p : A → bool) (pre suf : list A) (x : A) :
  (∀ y, y ∈ pre → p y = false) → p x = true →
  findIndex p (pre ++ x :: suf) = Some (length pre).
Proof.
  induction pre as [|y pre IH]; intros Hpre Hp; cbn.
  - by rewrite Hp.
  - rewrite (Hpre y) by left. rewrite IH; [done| |done].
    intros z Hz. apply Hpre. by right.
Qed.

Lemma keeps_first (pre suf : list EntityDefinition) (x : EntityDefinition) :
  bool_decide (Some (length pre)
               = findIndex (λ e, String.eqb (e_name e) (e_name x))
                   (pre ++ x :: suf))
  = bool_decide (e_name x ∉ e_name <$> pre).
Proof.
  apply bool_decide_ext. split.
  - intros Hidx Hin. apply list_elem_of_fmap in Hin as (y & Hy & Hin).
    destruct (findIndex_app_l (λ e, String.eqb (e_name e) (e_name x)) pre
                (x :: suf) y Hin) as (i & Hi & Hlt).
    + apply String.eqb_eq. done.
    + rewrite Hi in Hidx. injection Hidx as Hidx. lia.
  - intros Hnot. symmetry. apply findIndex_app_r.
    + intros y Hy. apply String.eqb_neq. intros Heq. apply Hnot.
      apply list_elem_of_fmap. exists y. done.
    + apply String.eqb_refl.
Qed.

Lemma filter_from_first (pre suf : list EntityDefinition) :
  filter_from
    (λ entity index,
       bool_decide (Some index
                    = findIndex (λ e, String.eqb (e_name e) (e_name entity))
                        (pre ++ suf)))
    (length pre) suf
  = first_of_each_name (e_name <$> pre) suf.
Proof.
  revert pre. induction suf as [|x suf IH]; intros pre; [done|].
  cbn [filter_from first_of_each_name]. rewrite keeps_first.
  pose proof (IH (pre ++ [x])) as IH'.
  rewrite <- app_assoc, length_app, fmap_app in IH'. cbn in IH'.
  replace (S (length pre)) with (length pre + 1)%nat by lia. rewrite IH'.
  destruct (decide (e_name x ∈ e_name <$> pre)) as [Hin|Hnot].
  - by rewrite bool_decide_eq_false_2 by tauto.
  - by rewrite bool_decide_eq_true_2.
Qed.

Lemma first_names (seen : list string) (l : list EntityDefinition) :
  NoDup (e_name <$> first_of_each_name seen l)
  ∧ (∀ n, n ∈ e_name <$> first_of_each_name seen l
          ↔ n ∈ e_name <$> l ∧ n ∉ seen)
  ∧ (first_of_each_name seen l `sublist_of` l).
Proof.
  revert seen. induction l as [|x l IH]; intros seen.
  - cbn. split; [constructor|]. split; [|done].
    intros n. split; [by intros ?%not_elem_of_nil|by intros [?%not_elem_of_nil _]].
  - destruct (IH (seen ++ [e_name x])) as (Hnd & Hin & Hsub). cbn.
    assert (Hseen : ∀ n, (n ∉ seen ++ [e_name x]) ↔ (n ∉ seen) ∧ n ≠ e_name x).
    { intros n. rewrite elem_of_app, list_elem_of_singleton. tauto. }
    destruct (decide (e_name x ∈ seen)) as [Hx|Hx].
    + split; [done|]. split; [|by apply sublist_cons].
      intros n. rewrite Hin, elem_of_cons, Hseen. split.
      * intros (H1 & H2 & H3). auto.
      * intros [[->|H1] H2]; [done|]. repeat split; [done..|]. by intros ->.
    + cbn. split; [|split; [|by apply sublist_skip]].
      * constructor; [|done]. rewrite Hin, Hseen. intros (_ & _ & H). done.
      * intros n. rewrite !elem_of_cons, Hin, Hseen.
        destruct (decide (n = e_name x)) as [->|Hne]; [tauto|]. tauto.
Qed.

Lemma first_of_distinct (seen : list string) (l : list EntityDefinition) :
  NoDup (e_name <$> l) → (∀ n, n ∈ seen → n ∉ e_name <$> l) →
  first_of_each_name seen l = l.
Proof.
  revert seen. induction l as [|x l IH]; intros seen Hl Hseen; [done|]. cbn.
  apply NoDup_cons in Hl as [Hx Hl].
  destruct (decide (e_name x ∈ seen)) as [Hin|_].
  - destruct (Hseen _ Hin). left.
  - f_equal. apply IH; [done|].
    intros n [Hn| ->%list_elem_of_singleton]%elem_of_app; [|done].
    intros Hn'. apply (Hseen n Hn). by right.
Qed.

(** The same list by position: the entities whose name no earlier entity
    carries. *)
Lemma first_by_position (pre suf : list EntityDefinition) :
  first_of_each_name (e_name <$> pre) suf
  = snd <$> filter (λ p, e_name p.2 ∉ e_name <$> take p.1 (pre ++ suf))
              (imap (λ i e, ((length pre + i)%nat, e)) suf).
Proof.
  revert pre. induction suf as [|x suf IH]; intros pre; [done|].
  cbn [first_of_each_name imap].
  pose proof (IH (pre ++ [x])) as IH'.
  rewrite fmap_app, <- app_assoc in IH'. cbn [fmap list_fmap app] in IH'.
  rewrite IH'.
  assert (Himap : imap (λ i e, ((length (pre ++ [x]) + i)%nat, e)) suf
                  = imap ((λ i e, ((length pre + i)%nat, e)) ∘ S) suf).
  { apply imap_ext. intros i e _. cbn. rewrite length_app. cbn. f_equal. lia. }
  rewrite Himap.
  rewrite filter_cons. cbn [fst snd].
  rewrite Nat.add_0_r, take_app_length.
  destruct (decide (e_name x ∈ e_name <$> pre)) as [Hin|Hnot].
  - rewrite decide_False by tauto. done.
  - rewrite decide_True by done. done.
Qed.

Lemma entityExists_spec (g : gmap string string) (n : string) :
  entityExists g n = true ↔ is_Some (g !! file_of n).
Proof. unfold entityExists. by rewrite bool_decide_eq_true. Qed.

Lemma file_of_inj (a b : string) : file_of a = file_of b → a = b.
Proof.
  unfold file_of. revert b. induction a as [|c a IH]; intros [|d b]; cbn; try done.
  - intros [= <- H]. exfalso. destruct b as [|? [|? [|? [|? [|? ?]]]]]; done.
  - intros [= -> H]. exfalso. destruct a as [|? [|? [|? [|? [|? ?]]]]]; done.
  - intros [= -> H]. f_equal. by apply IH.
Qed.

Lemma pattern_names_distinct : NoDup getCustomPatternEntityNames.
Proof.
  apply (bool_decide_unpack (NoDup getCustomPatternEntityNames)).
  vm_compute. exact I.
Qed.

Lemma find_by_name (l : list EntityDefinition) (e : EntityDefinition) :
  NoDup (e_name <$> l) → e ∈ l →
  List.find (λ entity, String.eqb (e_name entity) (e_name e)) l = Some e.
Proof.
  induction l as [|x l IH]; intros Hnd He; [by apply not_elem_of_nil in He|].
  cbn in *. apply NoDup_cons in Hnd as [Hx Hnd].
  apply elem_of_cons in He as [->|He]; [by rewrite String.eqb_refl|].
  destruct (String.eqb_spec (e_name x) (e_name e)) as [Heq|_]; [|by apply IH].
  destruct Hx. rewrite Heq. apply list_elem_of_fmap. by exists e.
Qed.

End EntityLists.

Section EntityFacts.
Import EntityService.
Variable getEntityId : string → string.
Variable sanitizeFileName : string → string.
Variable serialize : EntityDefinition → string.
Variable readObject : string → option EntityDefinition.

Lemma listEntities_first (customEntities : list EntityDefinition) :
  listEntities getEntityId customEntities
  = first_of_each_name [] (getSystemEntities getEntityId ++ customEntities).
Proof. apply (filter_from_first []). Qed.

(** X25.  [listEntities] returns the system entity [any] followed by the
    custom entities in their order, keeping, for every name, only the first
    entity that carries it: no two entries of the result have the same
    name, every name present before is still present, a custom entity
    called [any] is dropped, and when all names are different nothing is
    dropped.  Which entity stays is fixed by its position: the result is
    the list of the entities, taken in order, whose name is carried by no
    entity at an earlier position. *)
Theorem listEntities_keeps_first_of_each_name
    (customEntities : list EntityDefinition) :
  let all := getSystemEntities getEntityId ++ customEntities in
  let listed := listEntities getEntityId customEntities in
  NoDup (e_name <$> listed)
  ∧ (∀ n, n ∈ e_name <$> listed ↔ n ∈ e_name <$> all)
  ∧ (listed `sublist_of` all)
  ∧ head listed = head all
  ∧ (∀ e, e ∈ listed → e_name e = "any" → e_type e = "system")
  ∧ (NoDup (e_name <$> all) → listed = all)
  ∧ listed
    = snd <$> filter (λ p, e_name p.2 ∉ e_name <$> take p.1 all) (imap pair all).
Proof.
  cbn zeta. rewrite listEntities_first.
  assert (Hpos :
    first_of_each_name [] (getSystemEntities getEntityId ++ customEntities)
    = snd <$> filter
                (λ p, e_name p.2
                      ∉ e_name <$> take p.1
                                     (getSystemEntities getEntityId ++ customEntities))
                (imap pair (getSystemEntities getEntityId ++ customEntities))).
  { apply (first_by_position []). }
  cut (NoDup (e_name <$> first_of_each_name []
                           (getSystemEntities getEntityId ++ customEntities))
       ∧ (∀ n, n ∈ e_name <$> first_of_each_name []
                                (getSystemEntities getEntityId ++ customEntities)
               ↔ n ∈ e_name <$> getSystemEntities getEntityId ++ customEntities)
       ∧ (first_of_each_name [] (getSystemEntities getEntityId ++ customEntities)
          `sublist_of` getSystemEntities getEntityId ++ customEntities)
       ∧ head (first_of_each_name []
                 (getSystemEntities getEntityId ++ customEntities))
         = head (getSystemEntities getEntityId ++ customEntities)
       ∧ (∀ e, e ∈ first_of_each_name []
                     (getSystemEntities getEntityId ++ customEntities) →
               e_name e = "any" → e_type e = "system")
       ∧ (NoDup (e_name <$> getSystemEntities getEntityId ++ customEntities) →
          first_of_each_name [] (getSystemEntities getEntityId ++ customEntities)
          = getSystemEntities getEntityId ++ customEntities)).
  { intros (H1 & H2 & H3 & H4 & H5 & H6). by repeat (split; [assumption|]). }
  clear Hpos.
  destruct (first_names [] (getSystemEntities getEntityId ++ customEntities))
    as (Hnd & Hin & Hsub).
  split; [done|]. split; [|split; [done|]].
  { intros n. rewrite Hin. split; [by intros [? _]|]. intros H. split; [done|].
    apply not_elem_of_nil. }
  assert (Hshape :
    first_of_each_name [] (getSystemEntities getEntityId ++ customEntities)
    = mkEntity (getEntityId "any") "any" "system" None None None None None None
      :: first_of_each_name ["any"] customEntities).
  { cbn. destruct (decide ("any" ∈ [])) as [H|_]; [|done].
    by apply not_elem_of_nil in H. }
  split; [by rewrite Hshape|]. split.
  - rewrite Hshape. intros e [->|He]%elem_of_cons; [done|]. intros Hname. exfalso.
    assert (Hn : e_name e ∈ e_name <$> first_of_each_name ["any"] customEntities)
      by (apply list_elem_of_fmap; by exists e).
    apply first_names in Hn as [_ Hn]. apply Hn. rewrite Hname. left.
  - intros Hl. apply first_of_distinct; [done|]. by intros n ?%not_elem_of_nil.
Qed.

(** *** The bot's entity files *)

(** X26.  Saving an entity and reading it back by its name gives the
    entity ([readFileAsObject] reading back what [JSON.stringify] wrote);
    deleting it afterwards makes the read fail with [Entity does not
    exist]; deleting a name that has no file fails the same way and changes
    nothing; and saving leaves every other file as it was. *)
Theorem entity_files_follow_save_and_delete (g : gmap string string) (entity : EntityDefinition)
    (other : string) :
  readObject (serialize entity) = Some entity →
  getEntity sanitizeFileName readObject (saveEntity sanitizeFileName serialize g entity)
    (e_name entity) = Ok entity
  ∧ (∃ ops, deleteEntity sanitizeFileName
              (saveEntity sanitizeFileName serialize g entity) (e_name entity)
            = (Ok ops,
               delete (file_of (sanitizeFileName (e_name entity))) g)
            ∧ getEntity sanitizeFileName readObject
                (delete (file_of (sanitizeFileName (e_name entity))) g)
                (e_name entity)
              = Throw (Error "Entity does not exist"))
  ∧ (entityExists g (sanitizeFileName other) = false →
     deleteEntity sanitizeFileName g other
     = (Throw (Error "Entity does not exist"), g))
  ∧ (sanitizeFileName other ≠ sanitizeFileName (e_name entity) →
     getEntity sanitizeFileName readObject
       (saveEntity sanitizeFileName serialize g entity) other
     = getEntity sanitizeFileName readObject g other).
Proof.
  intros Hread. split; [|split; [|split]].
  - unfold getEntity, saveEntity, entityExists. cbn zeta.
    rewrite lookup_insert_eq, bool_decide_eq_true_2 by eauto. cbn.
    by rewrite Hread.
  - eexists. split.
    + unfold deleteEntity, saveEntity, entityExists. cbn zeta.
      rewrite lookup_insert_eq, bool_decide_eq_true_2 by eauto. cbn.
      by rewrite delete_insert_eq.
    + unfold getEntity, entityExists. cbn zeta. rewrite lookup_delete_eq.
      rewrite bool_decide_eq_false_2; [done|]. by intros [? ?].
  - intros He. unfold deleteEntity. cbn zeta. by rewrite He.
  - intros Hne. unfold getEntity, saveEntity, entityExists. cbn zeta.
    rewrite lookup_insert_ne; [done|]. intros H. by apply file_of_inj in H.
Qed.

(** *** The custom pattern entities *)

Lemma initialize_fold (l : list EntityDefinition) (g : gmap string string) :
  (∀ e, e ∈ l → sanitizeFileName (e_name e) = e_name e) →
  let g' := foldl (λ g entity, if entityExists g (e_name entity) then g
                               else saveEntity sanitizeFileName serialize g entity)
              g l in
  (∀ f c, g !! f = Some c → g' !! f = Some c)
  ∧ (∀ e, e ∈ l → is_Some (g' !! file_of (e_name e)))
  ∧ (∀ f, (∀ e, e ∈ l → f ≠ file_of (e_name e)) → g' !! f = g !! f)
  ∧ (∀ f c, g' !! f = Some c →
            g !! f = Some c
            ∨ ∃ e, e ∈ l ∧ f = file_of (e_name e) ∧ c = serialize e
                   ∧ g !! f = None).
Proof.
  revert g. induction l as [|x l IH]; intros g Hs; cbn zeta.
  - cbn. repeat split; try done.
    + by intros e ?%not_elem_of_nil.
    + by left.
  - cbn [foldl].
    assert (Hs' : ∀ e, e ∈ l → sanitizeFileName (e_name e) = e_name e)
      by (intros e He; apply Hs; by right).
    set (g1 := if entityExists g (e_name x) then g
               else saveEntity sanitizeFileName serialize g x).
    destruct (IH g1 Hs') as (H1 & H2 & H3 & H4).
    assert (Hg1 : (∀ f c, g !! f = Some c → g1 !! f = Some c)
                  ∧ is_Some (g1 !! file_of (e_name x))
                  ∧ (∀ f, f ≠ file_of (e_name x) → g1 !! f = g !! f)
                  ∧ (∀ c, g1 !! file_of (e_name x) = Some c →
                          g !! file_of (e_name x) = Some c
                          ∨ (c = serialize x ∧ g !! file_of (e_name x) = None))).
    { subst g1. destruct (entityExists g (e_name x)) eqn:He.
      - apply entityExists_spec in He. repeat split; auto.
      - assert (Hnone : g !! file_of (e_name x) = None).
        { destruct (g !! file_of (e_name x)) eqn:Hg; [|done].
          assert (entityExists g (e_name x) = true)
            by (apply entityExists_spec; eauto). congruence. }
        unfold saveEntity. rewrite (Hs x) by left. repeat split.
        + intros f c Hf. rewrite lookup_insert_ne; [done|]. congruence.
        + rewrite lookup_insert_eq. eauto.
        + intros f Hf. by rewrite lookup_insert_ne.
        + intros c. rewrite lookup_insert_eq. intros [= <-]. auto. }
    destruct Hg1 as (G1 & G2 & G3 & G4).
    split; [|split; [|split]].
    + intros f c Hf. apply H1, G1, Hf.
    + intros e [->|He]%elem_of_cons; [|by apply H2].
      destruct G2 as [c Hc]. rewrite (H1 _ _ Hc). eauto.
    + intros f Hf. rewrite H3, G3; [done| |].
      * apply Hf. left.
      * intros e He. apply Hf. by right.
    + intros f c Hf. destruct (H4 f c Hf) as [Hg1 | (e & He & -> & -> & Hg1)].
      * destruct (decide (f = file_of (e_name x))) as [->|Hne].
        -- destruct (G4 c Hg1) as [?|[-> ?]]; [by left|].
           right. exists x. split; [left|]. done.
        -- left. by rewrite <- G3.
      * right. exists e. split; [by right|]. split; [done|]. split; [done|].
        destruct (g !! file_of (e_name e)) as [c|] eqn:Hg; [|done].
        apply G1 in Hg. congruence.
Qed.

Lemma initialize_fixpoint (l : list EntityDefinition) (g0 : gmap string string) :
  (∀ e, e ∈ l → is_Some (g0 !! file_of (e_name e))) →
  foldl (λ g entity, if entityExists g (e_name entity) then g
                     else saveEntity sanitizeFileName serialize g entity)
    g0 l = g0.
Proof.
  induction l as [|x l IH]; intros H; [done|]. cbn.
  rewrite (proj2 (entityExists_spec g0 (e_name x))) by (apply H; left).
  apply IH. intros e He. apply H. by right.
Qed.

(** X27.  Initialising the custom pattern entities ([sanitizeFileName]
    leaving their names as they are) never overwrites a file that exists
    and touches no file but theirs; afterwards each of the eight entities
    has its file; and running the initialisation again changes nothing. *)
Theorem pattern_entities_initialisation (g : gmap string string) :
  (∀ e, e ∈ CUSTOM_PATTERN_ENTITIES → sanitizeFileName (e_name e) = e_name e) →
  let g' := initializeCustomPatternEntities sanitizeFileName serialize g in
  (∀ f c, g !! f = Some c → g' !! f = Some c)
  ∧ (∀ n, n ∈ getCustomPatternEntityNames → entityExists g' n = true)
  ∧ (∀ f, (∀ n, n ∈ getCustomPatternEntityNames → f ≠ file_of n) →
          g' !! f = g !! f)
  ∧ initializeCustomPatternEntities sanitizeFileName serialize g' = g'.
Proof.
  intros Hs. cbn zeta. unfold initializeCustomPatternEntities.
  destruct (initialize_fold CUSTOM_PATTERN_ENTITIES g Hs) as (H1 & H2 & H3 & _).
  split; [done|]. split; [|split].
  - intros n Hn. apply list_elem_of_fmap in Hn as (e & -> & He).
    apply entityExists_spec. by apply H2.
  - intros f Hf. apply H3. intros e He. apply Hf.
    apply list_elem_of_fmap. by exists e.
  - by apply initialize_fixpoint.
Qed.

(** X28.  After the initialisation, every name listed by
    [getCustomPatternEntityNames] is served by [getEntity]: the entity that
    [getCustomPatternEntity] gives for this name when the bot had no file
    of that name, and the bot's own file when it had one. *)
Theorem pattern_entities_are_served (g : gmap string string) (n : string) :
  (∀ e, e ∈ CUSTOM_PATTERN_ENTITIES → sanitizeFileName (e_name e) = e_name e) →
  (∀ e, e ∈ CUSTOM_PATTERN_ENTITIES → readObject (serialize e) = Some e) →
  n ∈ getCustomPatternEntityNames →
  let g' := initializeCustomPatternEntities sanitizeFileName serialize g in
  (entityExists g n = false →
   ∃ e, getCustomPatternEntity n = Some e
        ∧ getEntity sanitizeFileName readObject g' n = Ok e)
  ∧ (entityExists g n = true →
     getEntity sanitizeFileName readObject g' n
     = getEntity sanitizeFileName readObject g n).
Proof.
  intros Hs Hread Hn. cbn zeta.
  apply list_elem_of_fmap in Hn as (e & -> & He).
  destruct (initialize_fold CUSTOM_PATTERN_ENTITIES g Hs) as (H1 & H2 & _ & H4).
  fold (initializeCustomPatternEntities sanitizeFileName serialize g) in *.
  destruct (H2 e He) as [c Hc].
  split.
  - intros Hnot. exists e. split.
    + unfold getCustomPatternEntity.
      apply find_by_name; [apply pattern_names_distinct|done].
    + assert (Hnone : g !! file_of (e_name e) = None).
      { destruct (g !! file_of (e_name e)) eqn:Hg; [|done].
        assert (entityExists g (e_name e) = true)
          by (apply entityExists_spec; eauto). congruence. }
      destruct (H4 _ _ Hc) as [Hg | (e' & He' & Hf & -> & _)]; [congruence|].
      apply file_of_inj in Hf.
      assert (e' = e) as ->.
      { pose proof (find_by_name _ e pattern_names_distinct He) as F1.
        pose proof (find_by_name _ e' pattern_names_distinct He') as F2.
        fold getCustomPatternEntityNames in *. rewrite Hf in F1. congruence. }
      unfold getEntity, entityExists. rewrite (Hs e He), Hc.
      rewrite bool_decide_eq_true_2 by eauto. cbn. by rewrite Hread.
  - intros Hex. apply entityExists_spec in Hex as [c0 Hc0].
    unfold getEntity, entityExists. rewrite (Hs e He), (H1 _ _ Hc0), Hc0. done.
Qed.

End EntityFacts.

Lemma listEntities_keeps_first_of_each_name_witness :
  let custom := [EntityService.pattern_entity "city" "^[A-Z]" [];
                 EntityService.mkEntity "any" "any" "list" None None None None
                   None None;
                 EntityService.pattern_entity "zip" "^\d" [];
                 EntityService.pattern_entity "city" "^[a-z]" [];
                 EntityService.pattern_entity "city" "^[A-Z]" []] in
  EntityService.listEntities id custom
  = EntityService.getSystemEntities id
    ++ [EntityService.pattern_entity "city" "^[A-Z]" [];
        EntityService.pattern_entity "zip" "^\d" []].
Proof.
  cbn zeta.
  destruct (listEntities_keeps_first_of_each_name id
              [EntityService.pattern_entity "city" "^[A-Z]" [];
               EntityService.mkEntity "any" "any" "list" None None None None
                 None None;
               EntityService.pattern_entity "zip" "^\d" [];
               EntityService.pattern_entity "city" "^[a-z]" [];
               EntityService.pattern_entity "city" "^[A-Z]" []])
    as (_ & _ & _ & _ & _ & _ & H).
  rewrite H. vm_compute. reflexivity.
Defined.

Lemma entity_files_follow_save_and_delete_witness :
  EntityService.getEntity id (λ _, Some (EntityService.pattern_entity "zip" "^\d" []))
    (EntityService.saveEntity id (λ _, "{}") ∅
       (EntityService.pattern_entity "zip" "^\d" []))
    "zip"
  = Ok (EntityService.pattern_entity "zip" "^\d" []).
Proof.
  destruct (entity_files_follow_save_and_delete id (λ _, "{}")
              (λ _, Some (EntityService.pattern_entity "zip" "^\d" [])) ∅
              (EntityService.pattern_entity "zip" "^\d" []) "city") as [H _].
  - reflexivity.
  - exact H.
Defined.

Lemma pattern_entities_initialisation_witness :
  let g := {["custom.email.json" := "edited"]} in
  EntityService.initializeCustomPatternEntities id EntityService.e_name g
    !! "custom.email.json" = Some "edited"
  ∧ EntityService.entityExists
      (EntityService.initializeCustomPatternEntities id EntityService.e_name g)
      "custom.zipcode" = true.
Proof.
  cbn zeta.
  destruct (pattern_entities_initialisation id EntityService.e_name
              {["custom.email.json" := "edited"]}) as (H1 & H2 & _).
  - intros e _. reflexivity.
  - split.
    + apply H1. reflexivity.
    + apply H2. match goal with |- ?P => apply (bool_decide_unpack P) end.
    vm_compute. exact I.
Defined.

Lemma pattern_entities_are_served_witness :
  ∃ e, EntityService.getCustomPatternEntity "custom.zipcode" = Some e
       ∧ EntityService.getEntity id
           (λ c, EntityService.getCustomPatternEntity c)
           (EntityService.initializeCustomPatternEntities id
              EntityService.e_name ∅)
           "custom.zipcode" = Ok e.
Proof.
  destruct (pattern_entities_are_served id EntityService.e_name
              (λ c, EntityService.getCustomPatternEntity c) ∅ "custom.zipcode")
    as [H _].
  - intros e _. reflexivity.
  - intros e He. unfold EntityService.CUSTOM_PATTERN_ENTITIES in He.
    repeat (apply elem_of_cons in He as [->|He]; [reflexivity|]).
    by apply not_elem_of_nil in He.
  - match goal with |- ?P => apply (bool_decide_unpack P) end.
    vm_compute. exact I.
  - apply H. reflexivity.
Defined.

(** ** The warning overlay *)

Section Overlay.
Import DevTools.

Lemma detect_open (ow iw oh ih : Z) (body : list Node) :
  160 < ow - iw ∨ 160 < oh - ih →
  detectDevTools ow iw oh ih body
  = match getElementById "devtools-warning" body with
    | Some _ => body
    | None => [Element "div" "devtools-blur-wrapper" blur_style body; warningDiv]
    end.
Proof.
  intros H. unfold detectDevTools. cbn zeta.
  replace ((ow - iw >? 160) || (oh - ih >? 160)) with true; [done|].
  symmetry. apply orb_true_iff.
  destruct H; [left|right]; apply Z.gtb_lt; lia.
Qed.

Lemma detect_closed (ow iw oh ih : Z) (body : list Node) :
  ow - iw ≤ 160 → oh - ih ≤ 160 →
  detectDevTools ow iw oh ih body
  = let body1 :=
      match getElementById "devtools-blur-wrapper" body with
      | Some blurWrapper =>
          splice blurWrapper (λ _, [])
            (splice blurWrapper without_children body
             ++ match node_at blurWrapper body with
                | Some n => children_of n
                | None => []
                end)
      | None => body
      end in
    match getElementById "devtools-warning" body1 with
    | Some overlay => splice overlay (λ _, []) body1
    | None => body1
    end.
Proof.
  intros Hw Hh. unfold detectDevTools. cbn zeta.
  replace ((ow - iw >? 160) || (oh - ih >? 160)) with false; [done|].
  symmetry. apply orb_false_iff.
  split; rewrite Z.gtb_ltb; apply Z.ltb_ge; lia.
Qed.

(** X29.  The overlay is reversible.  On a page none of whose elements
    carries one of the two identifiers: when the tools are detected the
    whole content moves, in order, into the blurred wrapper, followed by the
    warning; detecting them again changes nothing; and when they are closed
    the wrapper and the warning are removed and the content is back in the
    body, in order, after whatever was added to the body in the meantime.
    On a page without overlay a check that detects nothing changes
    nothing. *)
Theorem overlay_is_reversible (ow iw oh ih ow' iw' oh' ih' : Z)
    (body added : list Node) :
  unmarked body →
  160 < ow - iw ∨ 160 < oh - ih →
  ow' - iw' ≤ 160 → oh' - ih' ≤ 160 →
  let shown := detectDevTools ow iw oh ih body in
  shown = [Element "div" "devtools-blur-wrapper" blur_style body; warningDiv]
  ∧ detectDevTools ow iw oh ih shown = shown
  ∧ detectDevTools ow' iw' oh' ih' (shown ++ added) = added ++ body
  ∧ detectDevTools ow' iw' oh' ih' body = body.
Proof.
  intros [Hwarn Hblur] Hopen Hw Hh. cbn zeta.
  rewrite (detect_open _ _ _ _ body Hopen), Hwarn.
  split; [done|]. split; [|split].
  - rewrite (detect_open _ _ _ _ _ Hopen).
    unfold getElementById. cbn.
    fold (getElementById "devtools-warning" body). by rewrite Hwarn.
  - rewrite (detect_closed _ _ _ _ _ Hw Hh). reflexivity.
  - rewrite (detect_closed _ _ _ _ _ Hw Hh). cbn zeta.
    by rewrite Hblur, Hwarn.
Qed.

End Overlay.

Lemma overlay_is_reversible_witness :
  let body := [DevTools.Element "div" "app" [] [DevTools.Text "Studio"];
               DevTools.Text "footer"] in
  let shown := DevTools.detectDevTools 1600 1200 900 880 body in
  DevTools.detectDevTools 1600 1590 900 880
    (shown ++ [DevTools.Element "div" "portal" [] []])
  = [DevTools.Element "div" "portal" [] []] ++ body.
Proof.
  cbn zeta.
  destruct (overlay_is_reversible 1600 1200 900 880 1600 1590 900 880
              [DevTools.Element "div" "app" [] [DevTools.Text "Studio"];
               DevTools.Text "footer"]
              [DevTools.Element "div" "portal" [] []])
    as (_ & _ & H & _).
  - split; reflexivity.
  - left. reflexivity.
  - vm_compute. discriminate.
  - vm_compute. discriminate.
  - exact H.
Defined.

(** ** The identity the application passes to the wrapper *)

Section UserEmail.
Context `{L : Libs}.

(** X30.  [getUserEmailFromStorage] gives the [email] field of the user
    data that were stored as [JSON] text under [userData] (lawful
    libraries, the field being truthy), and leaves the storage as it is; it
    gives [null] when the entry is absent, when it does not decrypt (the
    entry is then removed) and when the stored text is not [JSON]. *)
Theorem user_email_comes_from_storage (HL : LibsLaws L) (salt text : string)
    (store : gmap string string) (d email : jsval) :
  text ≠ "" →
  JSON_parse text = Some d →
  get_prop d "email" = Ok email →
  truthy email = true →
  let store' := (SecureStorage.setItem salt "userData" text store).2 in
  App.getUserEmailFromStorage store' = (email, store')
  ∧ (∀ s0, s0 !! "userData" = None →
           App.getUserEmailFromStorage s0 = (VNull, s0))
  ∧ (∀ s0 c e, s0 !! "userData" = Some c →
               SecureStorage.decryptData c None = Throw e →
               App.getUserEmailFromStorage s0 = (VNull, delete "userData" s0))
  ∧ (∀ bad, JSON_parse bad = None →
            (App.getUserEmailFromStorage
               (SecureStorage.setItem salt "userData" bad store).2).1 = VNull).
Proof.
  intros Hne Hp He Ht. cbn zeta. split; [|split; [|split]].
  - destruct (getItem_after_setItem HL salt "userData" text store) as [_ Hget].
    cbn zeta in Hget. unfold App.getUserEmailFromStorage. rewrite Hget.
    cbn [truthy to_text]. rewrite (proj2 (String.eqb_neq _ _) Hne). cbn [negb].
    by rewrite Hp, He, Ht.
  - intros s0 H0. unfold App.getUserEmailFromStorage, SecureStorage.getItem.
    by rewrite H0.
  - intros s0 c e H0 Hd. unfold App.getUserEmailFromStorage.
    by rewrite (getItem_purges _ _ _ _ H0 Hd).
  - intros bad Hbad.
    destruct (getItem_after_setItem HL salt "userData" bad store) as [_ Hget].
    cbn zeta in Hget. unfold App.getUserEmailFromStorage. rewrite Hget.
    cbn [truthy to_text]. destruct (negb (String.eqb bad "")); [|done].
    by rewrite Hbad.
Qed.

End UserEmail.

Lemma user_email_comes_from_storage_witness :
  (App.getUserEmailFromStorage (L := Demo.libs)
     (SecureStorage.setItem (L := Demo.libs) "salt" "userData"
        "{email:alice@example.com}" ∅).2).1
  = VStr "alice@example.com".
Proof.
  destruct (user_email_comes_from_storage (L := Demo.libs) demo_laws "salt"
              "{email:alice@example.com}" ∅
              (VObj [("email", VStr "alice@example.com")])
              (VStr "alice@example.com")) as [H _].
  - discriminate.
  - reflexivity.
  - reflexivity.
  - reflexivity.
  - rewrite H. reflexivity.
Defined.
